(** * Molty Royale bot: the decision and region-learning engine of [bot.py]

    A shallow embedding of the decision core of [src/bot.py]:
    [Weapon], [Enemy], [Zone], [GameState], [RegionMemory] and
    [DecisionEngine], followed by the properties of the design document
    that are settled on it.

    Numbers are the program's own: a Python [float] is an IEEE-754 binary64
    value, embedded as Rocq's primitive [float] (same format, same rounding,
    NaN and infinities included); a Python [int] is a [Z]; a [str] is a
    [string]; a [dict] is an insertion-ordered association list, because
    [list(self.memory._rvs.keys())] observes the insertion order. *)

From Stdlib Require Import ZArith List String Ascii Bool Lia Floats.
Import ListNotations.

Set Warnings "-inexact-float".

Local Open Scope string_scope.
Local Open Scope list_scope.
Local Open Scope float_scope.

(* ================================================================== *)
(** * Python values and built-ins used by the engine *)
(* ================================================================== *)

Module Py.

(** ** binary64 comparisons as propositions *)

Definition lt (x y : float) : Prop := (x <? y) = true.
Definition le (x y : float) : Prop := (x <=? y) = true.
Definition is_nan (x : float) : Prop := Prim2SF x = S754_nan.

(** Truth value of a float in a condition: [if x:] is [x != 0.0]. *)
Definition truthy (x : float) : bool := negb (x =? 0).

(** [min(a, b)] and [max(a, b)] on two positional arguments: CPython keeps
    the first argument and replaces it only when the later one compares
    strictly below (resp. above) it. *)
Definition min (a b : float) : float := if b <? a then b else a.
Definition max (a b : float) : float := if a <? b then b else a.

(** [max(x :: xs, key=key)]: the first element is the running best and a
    later item replaces it only when its key is strictly greater. *)
Definition max_by {A : Type} (key : A -> float) (x : A) (xs : list A) : A :=
  fold_left (fun best item => if key best <? key item then item else best) xs x.

(** [max(pool, key=key) if pool else None]. *)
Definition max_by_opt {A : Type} (key : A -> float) (pool : list A) : option A :=
  match pool with
  | [] => None
  | x :: xs => Some (max_by key x xs)
  end.

(** ** exceptions *)

Inductive Exn : Type := ZeroDivisionError | KeyError.

Inductive Result (A : Type) : Type :=
| Ok (a : A)
| Raise (e : Exn).
Arguments Ok {A} a.
Arguments Raise {A} e.

(** [x / y] on floats: raises when the divisor is zero (of either sign),
    is the IEEE quotient otherwise. *)
Definition truediv (x y : float) : Result float :=
  if y =? 0 then Raise ZeroDivisionError else Ok (x / y).

(** ** strings *)

(** [str.lower()] on the ASCII range. The only code point outside ASCII
    that lowers to an ASCII letter is the Kelvin sign (to [k]), and no key
    of [TIER_MULT] contains a [k]. *)
Definition lower_ascii (c : ascii) : ascii :=
  let n := nat_of_ascii c in
  if (65 <=? n)%nat && (n <=? 90)%nat then ascii_of_nat (n + 32) else c.

Fixpoint lower (s : string) : string :=
  match s with
  | EmptyString => EmptyString
  | String c s' => String (lower_ascii c) (lower s')
  end.

(** ** dictionaries, in insertion order *)

Definition dict (V : Type) : Type := list (string * V).

Fixpoint get {V : Type} (d : dict V) (k : string) : option V :=
  match d with
  | [] => None
  | (k', v) :: d' => if String.eqb k' k then Some v else get d' k
  end.

(** [d.get(k, default)] *)
Definition get_default {V : Type} (d : dict V) (k : string) (default : V) : V :=
  match get d k with
  | Some v => v
  | None => default
  end.

(** [d[k]] *)
Definition getitem {V : Type} (d : dict V) (k : string) : Result V :=
  match get d k with
  | Some v => Ok v
  | None => Raise KeyError
  end.

(** [d[k] = v]: an existing key keeps its position, a new one goes last. *)
Fixpoint set {V : Type} (d : dict V) (k : string) (v : V) : dict V :=
  match d with
  | [] => [(k, v)]
  | (k', v') :: d' =>
      if String.eqb k' k then (k', v) :: d' else (k', v') :: set d' k v
  end.

(** [list(d.keys())] *)
Definition keys {V : Type} (d : dict V) : list string := map fst d.

(** Truth value of a dict, a list or an optional string in a condition. *)
Definition nonempty {A : Type} (l : list A) : bool :=
  match l with [] => false | _ :: _ => true end.

Definition str_truthy (s : string) : bool := negb (String.eqb s "").

Definition opt_truthy (o : option string) : bool :=
  match o with Some s => str_truthy s | None => false end.

(** [x in l] for a list of strings *)
Definition contains (l : list string) (x : string) : bool :=
  existsb (String.eqb x) l.

End Py.

Import Py.

(* ================================================================== *)
(** * Constants *)
(* ================================================================== *)

(** [class State(Enum)] *)
Inductive State : Type :=
| IDLE | ROOM_SCAN | IN_LOBBY | ZONE_ESCAPE | WEAPON_HUNT | EXPLORING
| TARGET_LOCK | COMBAT | LOOTING | HEALING | DEAD | VICTORY.

(** Combat thresholds *)
Definition WIN_PROB_ENGAGE    : float := 0.60.
Definition WIN_PROB_DISENGAGE : float := 0.55.
Definition ESCAPE_PROB_MAX    : float := 0.40.
Definition WEAPON_UPGRADE_PCT : float := 0.15.
Definition SAFE_PATH_MIN      : float := 0.65.
Definition ZONE_CHASE_MAX_SEC : float := 3.0.
Definition ZONE_ESCAPE_MIN    : float := 0.75.

(** HP thresholds: Python ints, only ever compared with floats, which
    converts them exactly. *)
Definition HP_USE_HEAL   : float := 60.
Definition HP_DISENGAGE  : float := 35.
Definition HP_ZONE_ABORT : float := 60.

(** Inventory limits *)
Definition MAX_HEAL_PER_TYPE : Z := 3.

(** Region value scores *)
Definition RVS_BASE         : float := 1.0.
Definition RVS_FLOOR        : float := 0.5.
Definition RVS_HIGH_WEAPON  : float := 0.3.
Definition RVS_KILL         : float := 0.2.
Definition RVS_FAIL_EXPLORE : float := -0.3.
Definition RVS_ZONE_PRONE   : float := -0.5.
Definition RVS_AMBUSH       : float := -0.2.

(** Weapon tier multipliers *)
Definition TIER_MULT : dict float :=
  [ ("legendary", 3.0); ("epic", 2.2); ("rare", 1.5);
    ("uncommon", 1.2); ("common", 1.0); ("fists", 0.3) ].

Definition HEAL_PRIORITY : list string :=
  [ "mega_shield"; "large_medkit"; "medkit"; "bandage"; "small_heal" ].

(* ================================================================== *)
(** * Data models *)
(* ================================================================== *)

Module Weapon.

Record t : Type := mk {
  name     : string;
  dps      : float;
  accuracy : float;
  range    : float;
  tier     : string
}.

(** [Weapon(name)] with the declared defaults. *)
Definition default (name : string) : t := mk name 0.0 1.0 1.0 "common".

Definition score (self : t) : float :=
  let mult := get_default TIER_MULT (lower (tier self)) 1.0 in
  dps self * accuracy self * range self * mult.

(** The quotient is only reached when [other.score <= 0] is false, which
    excludes a zero divisor ([not_le_zero_nonzero]), so it cannot raise. *)
Definition is_upgrade_over (self : t) (other : option t) : bool :=
  match other with
  | None => true
  | Some other =>
      if score other <=? 0 then 0 <? score self
      else WEAPON_UPGRADE_PCT <=? (score self - score other) / score other
  end.

End Weapon.

Module Enemy.

(** The [position] dict is carried by the dataclass and never read by the
    engine; it is left out. *)
Record t : Type := mk {
  id       : string;
  hp       : float;
  max_hp   : float;
  dps      : float;
  distance : float;
  in_zone  : bool
}.

Definition default (id : string) : t := mk id 100.0 100.0 10.0 50.0 false.

(** [(self.hp / self.max_hp) * 100 if self.max_hp else 0] *)
Definition hp_pct (self : t) : float :=
  if truthy (max_hp self) then (hp self / max_hp self) * 100 else 0.

End Enemy.

Module Zone.

Record t : Type := mk {
  distance     : float;
  shrink_timer : float;
  direction    : string;
  is_safe      : bool;
  shrink_speed : float
}.

Definition default : t := mk 999.0 999.0 "" true 1.0.

End Zone.

(** An entry of [loot_nearby] is a raw dict of the wire payload; the engine
    reads its ["item"] and ["id"] keys and its truth value. Values are kept
    as strings. *)
Definition Loot : Type := dict string.

Module GameState.

(** The [position] dict is not read by the engine and is left out. *)
Record t : Type := mk {
  hp              : float;
  max_hp          : float;
  balance         : float;
  kills           : Z;
  weapon          : option Weapon.t;
  inventory       : dict Z;
  zone            : Zone.t;
  vision_modifier : float;
  enemies         : list Enemy.t;
  loot_nearby     : list Loot;
  weapons_nearby  : list Weapon.t;
  current_region  : string;
  players_alive   : Z;
  match_id        : string;
  tick            : Z;
  state           : State;
  target_id       : option string;
  locked_target   : option Enemy.t
}.

(** [GameState()] *)
Definition default : t :=
  mk 100.0 100.0 0.0 0 None [] Zone.default 1.0 [] [] [] "" 0 "" 0 IDLE
     None None.

Definition hp_pct (self : t) : float :=
  if truthy (max_hp self) then (hp self / max_hp self) * 100 else 0.

(** First item of [HEAL_PRIORITY] held with a positive count. *)
Definition best_heal (self : t) : option string :=
  find (fun item => (0 <? get_default (inventory self) item 0)%Z) HEAL_PRIORITY.

(** [gs.locked_target = target; gs.target_id = id] *)
Definition set_lock (self : t) (target : option Enemy.t) (id : option string) : t :=
  mk (hp self) (max_hp self) (balance self) (kills self) (weapon self)
     (inventory self) (zone self) (vision_modifier self) (enemies self)
     (loot_nearby self) (weapons_nearby self) (current_region self)
     (players_alive self) (match_id self) (tick self) (state self)
     id target.

End GameState.

(* ================================================================== *)
(** * Logging and the effects of a method call *)
(* ================================================================== *)

(** One constructor per [log.*] call of the engine, with the values the
    message is formatted from. *)
Inductive LogRecord : Type :=
| LogRVS (region : string) (old new : float) (reason : string)
| LogZoneEscape (dist timer hp_pct : float)
| LogWeaponHunt (name : string) (score : float)
| LogZoneChase (id : string) (kill_t esc_p : float)
| LogRefusedZoneChase (id : string)
| LogAttacking (id : string) (wp hp_pct : float)
| LogHeal (item : option string) (hp_pct : float)
| LogExplore (region : string)
| LogLoot (item : option string).

(** A method call on an object of type [S]: it may mutate the object, append
    to the log, and either return or raise. What was mutated and logged
    before a raise stays. *)
Definition M (S A : Type) : Type :=
  S * list LogRecord -> Result A * (S * list LogRecord).

Definition ret {S A : Type} (a : A) : M S A := fun st => (Ok a, st).

Definition bind {S A B : Type} (c : M S A) (k : A -> M S B) : M S B :=
  fun st =>
    match c st with
    | (Ok a, st') => k a st'
    | (Raise e, st') => (Raise e, st')
    end.

Definition lift {S A : Type} (r : Result A) : M S A := fun st => (r, st).

Definition get_self {S : Type} : M S S := fun st => (Ok (fst st), st).

Definition modify {S : Type} (f : S -> S) : M S unit :=
  fun st => (Ok tt, (f (fst st), snd st)).

Definition emit {S : Type} (r : LogRecord) : M S unit :=
  fun st => (Ok tt, (fst st, (snd st ++ [r])%list)).

Declare Scope method_scope.
Delimit Scope method_scope with method.
Notation "x <- c ;; k" := (bind c (fun x => k))
  (at level 61, c at next level, right associativity) : method_scope.
Notation "c ;; k" := (bind c (fun _ => k))
  (at level 61, right associativity) : method_scope.
Local Open Scope method_scope.

(** Pure binding of a possibly raising expression. *)
Definition rbind {A B : Type} (r : Result A) (k : A -> Result B) : Result B :=
  match r with
  | Ok a => k a
  | Raise e => Raise e
  end.

(* ================================================================== *)
(** * Region value system *)
(* ================================================================== *)

Module RegionMemory.

Record t : Type := mk {
  _rvs        : dict float;   (* region -> score *)
  _explores   : dict Z;       (* region -> count *)
  _loot_found : dict Z        (* region -> total loot found *)
}.

(** [RegionMemory()] *)
Definition init : t := mk [] [] [].

Definition rvs (self : t) (region : string) : float :=
  get_default (_rvs self) region RVS_BASE.

Definition _adjust (region : string) (delta : float) (reason : string)
  : M t unit :=
  self <- get_self ;;
  let old := rvs self region in
  modify (fun s =>
    mk (set (_rvs s) region (max 0.0 (min 2.0 (old + delta))))
       (_explores s) (_loot_found s)) ;;
  self <- get_self ;;
  emit (LogRVS region old (rvs self region) reason).

Definition record_explore (region : string) (loot_found : Z) : M t unit :=
  modify (fun s =>
    mk (_rvs s)
       (set (_explores s) region (get_default (_explores s) region 0 + 1)%Z)
       (_loot_found s)) ;;
  modify (fun s =>
    mk (_rvs s) (_explores s)
       (set (_loot_found s) region
            (get_default (_loot_found s) region 0 + loot_found)%Z)) ;;
  self <- get_self ;;
  count <- lift (getitem (_explores self) region) ;;
  total_loot <- lift (getitem (_loot_found self) region) ;;
  if (2 <=? count)%Z && (total_loot =? 0)%Z
  then _adjust region RVS_FAIL_EXPLORE "2 failed explores"
  else ret tt.

Definition delta_map : dict float :=
  [ ("high_tier_weapon", RVS_HIGH_WEAPON);
    ("kill",             RVS_KILL);
    ("zone_prone",       RVS_ZONE_PRONE);
    ("ambush",           RVS_AMBUSH) ].

Definition record_event (region : string) (event : string) : M t unit :=
  let delta := get_default delta_map event 0 in
  if truthy delta then _adjust region delta event else ret tt.

Definition is_worthwhile (self : t) (region : string) : bool :=
  RVS_FLOOR <=? rvs self region.

Definition best_region (self : t) (candidates : list string) : option string :=
  let worth := filter (is_worthwhile self) candidates in
  let pool  := if nonempty worth then worth else candidates in
  max_by_opt (rvs self) pool.

End RegionMemory.

(* ================================================================== *)
(** * Decision engine *)
(* ================================================================== *)

(** The action dict returned by [decide], by its ["action"] tag. A key that
    the code only sets under a condition is an [option]. *)
Inductive Action : Type :=
| escape_zone (direction priority : string) (use_heal : option string)
| use_item (item : option string)
| move_to_weapon (weapon_name : string)
| attack (target_id : string)
| move_to_region (region : string)
| pick_loot (item_id : option string)
| patrol.

Module DecisionEngine.

Record t : Type := mk { memory : RegionMemory.t }.

(** ** Zone helpers *)

Definition _zone_critical (gs : GameState.t) : bool :=
  let zone := GameState.zone gs in
  if negb (Zone.is_safe zone) then true
  else if (Zone.distance zone <? 50) && (Zone.shrink_timer zone <? 10) then true
  else if (GameState.hp_pct gs <? HP_ZONE_ABORT) && (Zone.distance zone <? 80) then true
  else false.

Definition _zone_escape_action (gs : GameState.t) : M GameState.t Action :=
  let zone := GameState.zone gs in
  emit (LogZoneEscape (Zone.distance zone) (Zone.shrink_timer zone)
                      (GameState.hp_pct gs)) ;;
  let direction :=
    if str_truthy (Zone.direction zone) then Zone.direction zone
    else "safe_zone_center" in
  let use_heal :=
    if (GameState.hp_pct gs <? 30) && opt_truthy (GameState.best_heal gs)
    then GameState.best_heal gs else None in
  ret (escape_zone direction "sprint" use_heal).

(** ** Weapon helpers *)

Definition _best_nearby_weapon (gs : GameState.t) : option Weapon.t :=
  max_by_opt Weapon.score (GameState.weapons_nearby gs).

Definition _safe_path_prob (gs : GameState.t) : float :=
  let d := Zone.distance (GameState.zone gs) in
  if 200 <? d then 0.90
  else if 100 <? d then 0.75
  else if 50 <? d then 0.55
  else 0.30.

Definition _weapon_in_zone_trajectory (gs : GameState.t) : bool :=
  (Zone.distance (GameState.zone gs) <? 40)
  && (Zone.shrink_timer (GameState.zone gs) <? 8).

(** ** Target selection *)

Definition _position_advantage (gs : GameState.t) (enemy : Enemy.t) : float :=
  1.0.

Definition _win_prob (gs : GameState.t) (enemy : Enemy.t) : Result float :=
  let my_dps  := match GameState.weapon gs with
                 | Some w => Weapon.dps w
                 | None => 5.0
                 end in
  let my_hp   := GameState.hp gs in
  let pos_adv := _position_advantage gs enemy in
  let vis_adv := GameState.vision_modifier gs in
  let vis_adv :=
    if GameState.vision_modifier gs <? 0.5
    then (if 60 <? Enemy.distance enemy then vis_adv * 0.6 else vis_adv)
    else vis_adv in
  let e_dps  := max (Enemy.dps enemy) 0.1 in
  let e_hp   := max (Enemy.hp enemy) 0.1 in
  let dist_r := max 1.0 (Enemy.distance enemy / 50.0) in
  let numerator   := my_dps * my_hp * pos_adv * vis_adv in
  let denominator := e_dps * e_hp * dist_r in
  rbind (truediv numerator denominator) (fun raw =>
  rbind (truediv raw (raw + 1.0)) (fun q =>
  Ok (min 1.0 (max 0.0 q)))).

Definition _enemy_escape_prob (enemy : Enemy.t) : float :=
  if Enemy.hp_pct enemy <? 25 then 0.10
  else if 100 <? Enemy.distance enemy then 0.70
  else 0.35.

(** The body of the [for enemy in gs.enemies] loop, on the loop variables
    [(best, best_score)]. *)
Definition _select_target_step (gs : GameState.t)
    (acc : option Enemy.t * float) (enemy : Enemy.t)
  : Result (option Enemy.t * float) :=
  let '(best, best_score) := acc in
  if Enemy.in_zone enemy then Ok acc
  else
    rbind (_win_prob gs enemy) (fun wp =>
    let ep := _enemy_escape_prob enemy in
    if (WIN_PROB_ENGAGE <=? wp) && (ep <=? ESCAPE_PROB_MAX) then
      rbind (truediv (wp * (1.0 - Enemy.hp_pct enemy / 100))
                     (max (Enemy.distance enemy) 1)) (fun score =>
      if best_score <? score then Ok (Some enemy, score) else Ok acc)
    else Ok acc).

Fixpoint _select_target_loop (gs : GameState.t) (enemies : list Enemy.t)
    (acc : option Enemy.t * float) : Result (option Enemy.t * float) :=
  match enemies with
  | [] => Ok acc
  | enemy :: rest =>
      rbind (_select_target_step gs acc enemy)
            (_select_target_loop gs rest)
  end.

Definition _select_target (gs : GameState.t) : Result (option Enemy.t) :=
  rbind (_select_target_loop gs (GameState.enemies gs) (None, 0.0))
        (fun acc => Ok (fst acc)).

(** [my_dps > 0] excludes a zero divisor ([pos_nonzero]). *)
Definition _kill_time (gs : GameState.t) (enemy : Enemy.t) : float :=
  let my_dps := match GameState.weapon gs with
                | Some w => Weapon.dps w
                | None => 5.0
                end in
  if 0 <? my_dps then Enemy.hp enemy / my_dps else 999.0.

Definition _self_escape_prob (gs : GameState.t) : float :=
  let d := Zone.distance (GameState.zone gs) in
  if d <? 20 then 0.30
  else if d <? 60 then 0.60
  else 0.85.

(** ** Heal helpers *)

Definition _heal_action (gs : GameState.t) : M GameState.t Action :=
  let item := GameState.best_heal gs in
  emit (LogHeal item (GameState.hp_pct gs)) ;;
  ret (use_item item).

(** ** Region helpers *)

Definition _choose_region (self : t) (gs : GameState.t) : option string :=
  let known := keys (RegionMemory._rvs (memory self)) in
  let known := if nonempty known then known
               else ["central"; "north"; "south"; "east"; "west"] in
  RegionMemory.best_region (memory self) known.

(** ** Loot helpers *)

Definition _pick_loot (gs : GameState.t) : option Loot :=
  let uncapped (item : Loot) :=
    let name := get_default item "item" "" in
    (get_default (GameState.inventory gs) name 0 <? MAX_HEAL_PER_TYPE)%Z in
  let heal (item : Loot) :=
    let name := get_default item "item" "" in
    contains HEAL_PRIORITY name && uncapped item in
  if negb (nonempty (GameState.loot_nearby gs)) then None
  else
    match (if GameState.hp_pct gs <? HP_USE_HEAL
           then find heal (GameState.loot_nearby gs) else None) with
    | Some item => Some item
    | None => find uncapped (GameState.loot_nearby gs)
    end.

(** ** The priority chain

    [decide] is one chain of guarded returns: a rule that does not fire
    falls through to the next one. The chain is written from its end, each
    part followed by the rules that can fall through to it. *)

(** Rules 7 and 8: pick up loot, else patrol. *)
Definition loot_or_patrol (gs : GameState.t) : M GameState.t Action :=
  match _pick_loot gs with
  | Some loot =>
      if nonempty loot
      then emit (LogLoot (get loot "item")) ;;
           ret (pick_loot (get loot "id"))
      else ret patrol
  | None => ret patrol
  end.

(** Rule 6, explore the best region, then rules 7 and 8. *)
Definition explore_or_later (self : t) : M GameState.t Action :=
  gs <- get_self ;;
  match _choose_region self gs with
  | Some region =>
      if str_truthy region
         && negb (String.eqb region (GameState.current_region gs))
      then emit (LogExplore region) ;; ret (move_to_region region)
      else loot_or_patrol gs
  | None => loot_or_patrol gs
  end.

(** Rule 4, normal heal, and rule 5, target acquisition and combat, then
    rules 6 to 8. *)
Definition heal_combat_or_later (self : t) (gs : GameState.t)
  : M GameState.t Action :=
  if (GameState.hp_pct gs <? HP_USE_HEAL) && opt_truthy (GameState.best_heal gs)
  then _heal_action gs else
  target <- lift (_select_target gs) ;;
  match target with
  | Some target =>
      modify (fun g =>
        GameState.set_lock g (Some target) (Some (Enemy.id target))) ;;
      gs <- get_self ;;
      if Enemy.in_zone target then
        let kill_t := _kill_time gs target in
        let esc_p  := _self_escape_prob gs in
        if (kill_t <=? ZONE_CHASE_MAX_SEC) && (ZONE_ESCAPE_MIN <=? esc_p)
        then emit (LogZoneChase (Enemy.id target) kill_t esc_p) ;;
             ret (attack (Enemy.id target))
        else emit (LogRefusedZoneChase (Enemy.id target)) ;;
             modify (fun g => GameState.set_lock g None None) ;;
             explore_or_later self
      else
        wp <- lift (_win_prob gs target) ;;
        emit (LogAttacking (Enemy.id target) wp (Enemy.hp_pct target)) ;;
        ret (attack (Enemy.id target))
  | None => explore_or_later self
  end.

(** [decide(gs)]: rule 1, zone escape; rule 2, critical heal; rule 3,
    weapon hunt; then rules 4 to 8. The snapshot [gs] is the object the
    call may mutate. *)
Definition decide (self : t) : M GameState.t Action :=
  gs <- get_self ;;
  if _zone_critical gs then _zone_escape_action gs else
  if (GameState.hp_pct gs <? HP_DISENGAGE) && opt_truthy (GameState.best_heal gs)
  then _heal_action gs else
  match _best_nearby_weapon gs with
  | Some best_w =>
      if Weapon.is_upgrade_over best_w (GameState.weapon gs)
      then
        if (SAFE_PATH_MIN <=? _safe_path_prob gs)
           && negb (_weapon_in_zone_trajectory gs)
        then emit (LogWeaponHunt (Weapon.name best_w) (Weapon.score best_w)) ;;
             ret (move_to_weapon (Weapon.name best_w))
        else heal_combat_or_later self gs
      else heal_combat_or_later self gs
  | None => heal_combat_or_later self gs
  end.

(** [post_kill_actions] returns actions outside the seven of [decide]; it
    takes no part in the properties below and is not embedded. *)

End DecisionEngine.

(* ================================================================== *)
(** * Vocabulary of the properties *)
(* ================================================================== *)

(** ** Snapshots and actions *)

(** A snapshot builder for examples: the fields the engine reads, the rest
    at the values of [GameState()]. *)
Definition snapshot (hp : float) (weapon : option Weapon.t) (inventory : dict Z)
    (zone : Zone.t) (enemies : list Enemy.t) (loot_nearby : list Loot)
    (weapons_nearby : list Weapon.t) (current_region : string) : GameState.t :=
  GameState.mk hp 100.0 0.0 0 weapon inventory zone 1.0 enemies loot_nearby
               weapons_nearby current_region 0 "" 0 IDLE None None.

(** What [_zone_escape_action] returns, spelled out. *)
Definition zone_escape_result (gs : GameState.t) : Action :=
  escape_zone
    (if str_truthy (Zone.direction (GameState.zone gs))
     then Zone.direction (GameState.zone gs) else "safe_zone_center")
    "sprint"
    (if (GameState.hp_pct gs <? 30) && opt_truthy (GameState.best_heal gs)
     then GameState.best_heal gs else None).

(** The test of rule 2. *)
Definition critical_heal_fires (gs : GameState.t) : bool :=
  (GameState.hp_pct gs <? HP_DISENGAGE) && opt_truthy (GameState.best_heal gs).

(** The test of rule 4. *)
Definition normal_heal_fires (gs : GameState.t) : bool :=
  (GameState.hp_pct gs <? HP_USE_HEAL) && opt_truthy (GameState.best_heal gs).

(** The test of rule 3 on the best nearby weapon. *)
Definition weapon_rule_fires (gs : GameState.t) (w : Weapon.t) : bool :=
  Weapon.is_upgrade_over w (GameState.weapon gs)
  && ((SAFE_PATH_MIN <=? DecisionEngine._safe_path_prob gs)
      && negb (DecisionEngine._weapon_in_zone_trajectory gs)).

(** ** Win probability and target selection *)

(** The pinned configuration of the design document: an enemy at distance
    80 with 40 hit points, outside the zone, [dps] and [max_hp] at their
    declared defaults; an agent with a weapon of [dps] 20, 100 hit points
    and full vision. *)
Definition pinned_enemy (e : Enemy.t) : Prop :=
  Enemy.distance e = 80 /\ Enemy.hp e = 40 /\ Enemy.in_zone e = false
  /\ Enemy.dps e = 10 /\ Enemy.max_hp e = 100.

Definition pinned_agent (gs : GameState.t) : Prop :=
  (exists w, GameState.weapon gs = Some w /\ Weapon.dps w = 20)
  /\ GameState.hp gs = 100 /\ GameState.vision_modifier gs = 1.0.

(** The eligibility test of [_select_target]: outside the zone, win
    probability at least [WIN_PROB_ENGAGE] and escape probability at most
    [ESCAPE_PROB_MAX]. *)
Definition eligible (gs : GameState.t) (e : Enemy.t) : Prop :=
  Enemy.in_zone e = false
  /\ exists wp : float,
       DecisionEngine._win_prob gs e = Ok wp
       /\ le 0.60 wp
       /\ le (DecisionEngine._enemy_escape_prob e) 0.40.

(** The composite score that [_select_target] gives an eligible enemy of
    win probability [wp]. *)
Definition target_score (e : Enemy.t) (wp : float) : Result float :=
  truediv (wp * (1.0 - Enemy.hp_pct e / 100)) (max (Enemy.distance e) 1).

(** [e] passes the eligibility test and its composite score is [s]. *)
Definition scored (gs : GameState.t) (e : Enemy.t) (s : float) : Prop :=
  Enemy.in_zone e = false
  /\ exists wp : float,
       DecisionEngine._win_prob gs e = Ok wp
       /\ le 0.60 wp
       /\ le (DecisionEngine._enemy_escape_prob e) 0.40
       /\ target_score e wp = Ok s.

(** The loop invariant of [_select_target] after the enemies [seen]: with
    no best yet, no eligible enemy seen had a positive score; otherwise the
    best is the first maximum of the eligible enemies seen, and its score is
    positive. *)
Definition select_target_inv (gs : GameState.t) (seen : list Enemy.t)
    (acc : option Enemy.t * float) : Prop :=
  match fst acc with
  | None =>
      snd acc = 0.0
      /\ forall e s, In e seen -> scored gs e s -> (0 <? s) = false
  | Some t =>
      scored gs t (snd acc) /\ lt 0 (snd acc)
      /\ exists l1 l2,
           seen = l1 ++ t :: l2
           /\ (forall e s, In e l1 -> scored gs e s -> (snd acc <=? s) = false)
           /\ (forall e s, In e l2 -> scored gs e s -> (snd acc <? s) = false)
  end.

(** ** Sessions of the region memory *)

(** A call of the feedback interface of [RegionMemory]. *)
Inductive Call : Type :=
| RecordExplore (region : string) (loot_found : Z)
| RecordEvent (region event : string).

Definition call (c : Call) : M RegionMemory.t unit :=
  match c with
  | RecordExplore region loot_found => RegionMemory.record_explore region loot_found
  | RecordEvent region event => RegionMemory.record_event region event
  end.

(** The calls of a session, in order. *)
Fixpoint calls (cs : list Call) : M RegionMemory.t unit :=
  match cs with
  | [] => ret tt
  | c :: cs' => call c ;; calls cs'
  end.

Definition in_range (v : float) : Prop := le 0.0 v /\ le v 2.0.

Definition scores_in_range (mem : RegionMemory.t) : Prop :=
  Forall (fun kv => in_range (snd kv)) (RegionMemory._rvs mem).

(** The number of failed-explore penalties a log shows for a region: the
    [_adjust] calls made with the reason of [record_explore]. No event of
    [record_event] carries that reason, [delta_map] has no such key. *)
Definition is_fail_penalty (region : string) (r : LogRecord) : bool :=
  match r with
  | LogRVS region' _ _ reason =>
      String.eqb region' region && String.eqb reason "2 failed explores"
  | _ => false
  end.

Definition fail_penalties (region : string) (log : list LogRecord) : nat :=
  List.length (filter (is_fail_penalty region) log).

(** The memory after [_adjust]. *)
Definition adjusted (mem : RegionMemory.t) (region : string) (delta : float)
  : RegionMemory.t :=
  RegionMemory.mk
    (set (RegionMemory._rvs mem) region
         (max 0.0 (min 2.0 (RegionMemory.rvs mem region + delta))))
    (RegionMemory._explores mem) (RegionMemory._loot_found mem).

(** The memory after the two counter updates of [record_explore]. *)
Definition counted (mem : RegionMemory.t) (region : string) (loot_found : Z)
  : RegionMemory.t :=
  RegionMemory.mk
    (RegionMemory._rvs mem)
    (set (RegionMemory._explores mem) region
         (get_default (RegionMemory._explores mem) region 0 + 1)%Z)
    (set (RegionMemory._loot_found mem) region
         (get_default (RegionMemory._loot_found mem) region 0 + loot_found)%Z).

(** The test of [record_explore], on the counters as they were before the
    call. *)
Definition penalty_due (mem : RegionMemory.t) (region : string) (loot_found : Z)
  : bool :=
  (2 <=? get_default (RegionMemory._explores mem) region 0 + 1)%Z
  && (get_default (RegionMemory._loot_found mem) region 0 + loot_found =? 0)%Z.

(** The score of a region after one failed-explore penalty: 0.3 lower,
    kept within [[0, 2]]. *)
Definition penalised (score : float) : float :=
  max 0.0 (min 2.0 (score + -0.3)).

(** A memory in which every known region has fallen below the floor. *)
Definition exhausted_memory : RegionMemory.t :=
  RegionMemory.mk [("south", 0.4); ("north", 0.1); ("east", 0.4)] [] [].

(** ** The first maximum of a list *)

(** [r] sits in [l] at a position before which no item ties with it or
    beats it, and after which no item beats it. Stated with the
    comparisons the code makes, it holds of [max] for every key, NaN
    included. *)
Definition first_max {A : Type} (key : A -> float) (l : list A) (r : A)
  : Prop :=
  exists l1 l2,
    l = l1 ++ r :: l2
    /\ (forall y, In y l1 -> (key r <=? key y) = false)
    /\ (forall y, In y l2 -> (key r <? key y) = false).

(** [r] is the first maximum of the items of [l] that satisfy [P]: it
    satisfies [P], every such item before it has a strictly smaller key
    and every such item after it a key that is not greater. *)
Definition first_maximum_among {A : Type} (key : A -> float) (P : A -> bool)
    (l : list A) (r : A) : Prop :=
  P r = true
  /\ exists l1 l2,
       l = l1 ++ r :: l2
       /\ (forall y, In y l1 -> P y = true -> lt (key y) (key r))
       /\ (forall y, In y l2 -> P y = true -> le (key y) (key r)).

(** ** Outcomes of the priority chain *)

(** The actions of rules 6 to 8. *)
Definition late_action (a : Action) : Prop :=
  match a with
  | move_to_region _ | pick_loot _ | patrol => True
  | _ => False
  end.

(** The two log records of the zone-chase branch of rule 5: one of them is
    emitted whenever the commit test [kill_t <= ZONE_CHASE_MAX_SEC and
    esc_p >= ZONE_ESCAPE_MIN] is evaluated, and only then. *)
Definition is_zone_chase (r : LogRecord) : bool :=
  match r with
  | LogZoneChase _ _ _ | LogRefusedZoneChase _ => true
  | _ => false
  end.

Definition chase_free (l : list LogRecord) : Prop :=
  Forall (fun r => is_zone_chase r = false) l.

(** The outcomes of rules 4 to 8 on the snapshot [gs]. *)
Inductive combat_outcome (self : DecisionEngine.t) (gs : GameState.t)
    (log : list LogRecord)
  : Result Action -> GameState.t -> list LogRecord -> Prop :=
| outcome_heal :
    normal_heal_fires gs = true ->
    combat_outcome self gs log
      (Ok (use_item (GameState.best_heal gs))) gs
      (log ++ [LogHeal (GameState.best_heal gs) (GameState.hp_pct gs)])
| outcome_raise (e : Exn) :
    DecisionEngine._select_target gs = Raise e ->
    combat_outcome self gs log (Raise e) gs log
| outcome_attack (t : Enemy.t) (wp : float) :
    DecisionEngine._select_target gs = Ok (Some t) ->
    In t (GameState.enemies gs) ->
    Enemy.in_zone t = false ->
    DecisionEngine._win_prob gs t = Ok wp ->
    combat_outcome self gs log
      (Ok (attack (Enemy.id t)))
      (GameState.set_lock gs (Some t) (Some (Enemy.id t)))
      (log ++ [LogAttacking (Enemy.id t) wp (Enemy.hp_pct t)])
| outcome_later (a : Action) (l : list LogRecord) :
    DecisionEngine._select_target gs = Ok None ->
    late_action a -> chase_free l ->
    combat_outcome self gs log (Ok a) gs (log ++ l).

(** The outcomes of [decide] on the snapshot [gs], rule by rule. *)
Inductive decide_outcome (self : DecisionEngine.t) (gs : GameState.t)
    (log : list LogRecord)
  : Result Action -> GameState.t -> list LogRecord -> Prop :=
| decide_zone :
    DecisionEngine._zone_critical gs = true ->
    decide_outcome self gs log
      (Ok (zone_escape_result gs)) gs
      (log ++ [LogZoneEscape (Zone.distance (GameState.zone gs))
                             (Zone.shrink_timer (GameState.zone gs))
                             (GameState.hp_pct gs)])
| decide_critical_heal :
    DecisionEngine._zone_critical gs = false ->
    critical_heal_fires gs = true ->
    decide_outcome self gs log
      (Ok (use_item (GameState.best_heal gs))) gs
      (log ++ [LogHeal (GameState.best_heal gs) (GameState.hp_pct gs)])
| decide_weapon (best_w : Weapon.t) :
    DecisionEngine._zone_critical gs = false ->
    critical_heal_fires gs = false ->
    DecisionEngine._best_nearby_weapon gs = Some best_w ->
    weapon_rule_fires gs best_w = true ->
    decide_outcome self gs log
      (Ok (move_to_weapon (Weapon.name best_w))) gs
      (log ++ [LogWeaponHunt (Weapon.name best_w) (Weapon.score best_w)])
| decide_later (res : Result Action) (gs' : GameState.t)
    (log' : list LogRecord) :
    DecisionEngine._zone_critical gs = false ->
    critical_heal_fires gs = false ->
    (forall w, DecisionEngine._best_nearby_weapon gs = Some w ->
               weapon_rule_fires gs w = false) ->
    combat_outcome self gs log res gs' log' ->
    decide_outcome self gs log res gs' log'.

(* ================================================================== *)
(** * Room descriptors: decoded JSON values *)
(* ================================================================== *)

(** The rooms that [RoomSelector.select] receives are what [json.loads]
    made of the service's answer: a value of any JSON shape. Python's
    conversions are embedded on these values; the three that read or write
    text ([int] and [float] of a string, [str] of a value that is not a
    string) are taken as given, in a record of builtins. *)
Module Json.

#[local] Set Warnings "-register-all".

Inductive t : Type :=
| Null
| Bool (b : bool)
| Int (z : Z)
| Float (f : float)
| Str (s : string)
| List (items : list t)
| Dict (entries : list (string * t)).

Inductive PyError : Type := TypeError | ValueError | OverflowError.

Inductive Outcome (A : Type) : Type :=
| Returned (a : A)
| Raised (e : PyError).
Arguments Returned {A} a.
Arguments Raised {A} e.

Definition obind {A B : Type} (o : Outcome A) (k : A -> Outcome B)
  : Outcome B :=
  match o with
  | Returned a => k a
  | Raised e => Raised e
  end.

Record Builtins : Type := {
  int_of_str   : string -> Outcome Z;       (* int(s) *)
  float_of_str : string -> Outcome float;   (* float(s) *)
  repr         : t -> string                (* str(v), v not a string *)
}.

(** Truth value in a condition and in [a or b]. *)
Definition truthy (v : t) : bool :=
  match v with
  | Null => false
  | Bool b => b
  | Int z => negb (z =? 0)%Z
  | Float f => negb (f =? 0)
  | Str s => str_truthy s
  | List items => nonempty items
  | Dict entries => nonempty entries
  end.

(** [a or b] *)
Definition or_ (a b : t) : t := if truthy a then a else b.

(** [int(f)] on a float: truncation toward zero. *)
Definition trunc (f : float) : Outcome Z :=
  match Prim2SF f with
  | S754_nan => Raised ValueError
  | S754_infinity _ => Raised OverflowError
  | S754_zero _ => Returned 0%Z
  | S754_finite s m e =>
      let a := if (0 <=? e)%Z then (Zpos m * 2 ^ e)%Z
               else (Zpos m / 2 ^ (- e))%Z in
      Returned (if s then (- a)%Z else a)
  end.

(** [float(z)] on an int: the nearest float, ties to even; an int beyond
    the range raises. *)
Definition of_int (z : Z) : Outcome float :=
  match binary_normalize prec emax z 0 false with
  | S754_infinity _ => Raised OverflowError
  | sf => Returned (SF2Prim sf)
  end.

(** [int(v)] *)
Definition int_ (py : Builtins) (v : t) : Outcome Z :=
  match v with
  | Null | List _ | Dict _ => Raised TypeError
  | Bool b => Returned (if b then 1 else 0)%Z
  | Int z => Returned z
  | Float f => trunc f
  | Str s => int_of_str py s
  end.

(** [float(v)] *)
Definition float_ (py : Builtins) (v : t) : Outcome float :=
  match v with
  | Null | List _ | Dict _ => Raised TypeError
  | Bool b => Returned (if b then 1.0 else 0.0)
  | Int z => of_int z
  | Float f => Returned f
  | Str s => float_of_str py s
  end.

(** [str(v)] *)
Definition str_ (py : Builtins) (v : t) : string :=
  match v with
  | Str s => s
  | _ => repr py v
  end.

(** [d.get(k)]: [None] for a missing key. *)
Definition get_or_null (d : dict t) (k : string) : t := get_default d k Null.

(** [d.setdefault(k, v)]: a key that is present, whatever its value, is
    left alone. *)
Definition setdefault (d : dict t) (k : string) (v : t) : dict t :=
  match get d k with
  | Some _ => d
  | None => set d k v
  end.

End Json.

(* ================================================================== *)
(** * Room selection *)
(* ================================================================== *)

Module RoomSelector.

Import Json.

(** One constructor per [log.*] call of [select]. *)
Inductive LogRecord : Type :=
| LogUnknownType (raw_room : Json.t)
| LogFull (rid : Json.t) (current max_p : Z)
| LogPaid (rid : Json.t) (cost balance : float)
| LogNoRooms
| LogSelected (best : dict Json.t).

(** The dict made for a room given as a plain id. *)
Definition of_id (raw_room : string) : dict Json.t :=
  [ ("id", Str raw_room); ("current_players", Int 0);
    ("max_players", Int 99); ("type", Str "free"); ("entry_cost", Int 0) ].

(** The five [setdefault] calls, in order, each on the dict as the earlier
    ones left it. *)
Definition normalise (room : dict Json.t) : dict Json.t :=
  let room := setdefault room "id"
    (or_ (get_or_null room "room_id")
         (or_ (get_or_null room "roomId") (Str ""))) in
  let room := setdefault room "current_players"
    (or_ (get_or_null room "players")
         (or_ (get_or_null room "playerCount") (Int 0))) in
  let room := setdefault room "max_players"
    (or_ (get_or_null room "maxPlayers")
         (or_ (get_or_null room "capacity") (Int 99))) in
  let room := setdefault room "type"
    (or_ (get_or_null room "roomType") (Str "free")) in
  let room := setdefault room "entry_cost"
    (or_ (get_or_null room "cost")
         (or_ (get_or_null room "fee") (Int 0))) in
  room.

(** The reading of a room, in the order of the source: [current], [max_p],
    [rtype], [cost], [rid]. *)
Definition current_of (py : Builtins) (room : dict Json.t) : Outcome Z :=
  int_ py (get_default room "current_players" (Int 0)).

Definition max_of (py : Builtins) (room : dict Json.t) : Outcome Z :=
  int_ py (get_default room "max_players" (Int 99)).

Definition rtype_of (py : Builtins) (room : dict Json.t) : string :=
  lower (str_ py (get_default room "type" (Str "free"))).

Definition cost_of (py : Builtins) (room : dict Json.t) : Outcome float :=
  float_ py (get_default room "entry_cost" (Int 0)).

Definition rid_of (room : dict Json.t) : Json.t :=
  get_default room "id" (Str "?").

(** The two tests on a room: whether it is kept, and what is logged when it
    is not. *)
Definition examine (py : Builtins) (balance : float) (room : dict Json.t)
  : Outcome (bool * list LogRecord) :=
  obind (current_of py room) (fun current =>
  obind (max_of py room) (fun max_p =>
  let rtype := rtype_of py room in
  obind (cost_of py room) (fun cost =>
  let rid := rid_of room in
  if (max_p <=? current)%Z
  then Returned (false, [LogFull rid current max_p])
  else if String.eqb rtype "paid" && (balance <? cost)
  then Returned (false, [LogPaid rid cost balance])
  else Returned (true, [])))).

(** The state of a run of the loop: the rooms already visited as the loop
    left them (a dict is normalised in place), the rooms kept, and the
    log. *)
Record LoopState : Type := {
  visited   : list Json.t;
  available : list (dict Json.t);
  log       : list LogRecord
}.

(** [for raw_room in rooms]. When a conversion raises, the room at hand
    has already been normalised in place and the rest is untouched. *)
Fixpoint select_loop (py : Builtins) (balance : float) (rooms : list Json.t)
    (st : LoopState) : Outcome unit * LoopState * list Json.t :=
  match rooms with
  | [] => (Returned tt, st, [])
  | raw_room :: rest =>
      let visit (room : dict Json.t) (raw_room' : Json.t) :=
        match examine py balance room with
        | Raised e =>
            (Raised e,
             Build_LoopState (visited st ++ [raw_room']) (available st)
                             (log st),
             rest)
        | Returned (keep, logged) =>
            select_loop py balance rest
              (Build_LoopState
                 (visited st ++ [raw_room'])
                 (if keep then available st ++ [room] else available st)
                 (log st ++ logged))
        end in
      match raw_room with
      | Str s => visit (of_id s) raw_room
      | Dict room => visit (normalise room) (Dict (normalise room))
      | _ =>
          select_loop py balance rest
            (Build_LoopState (visited st ++ [raw_room]) (available st)
                             (log st ++ [LogUnknownType raw_room]))
      end
  end.

(** [max(available, key=lambda r: int(r.get("current_players", 0)))]: the
    keys are computed in order, and a later room replaces the running best
    only when its key is strictly greater. *)
Fixpoint keys_of (py : Builtins) (rooms : list (dict Json.t))
  : Outcome (list (dict Json.t * Z)) :=
  match rooms with
  | [] => Returned []
  | room :: rest =>
      obind (current_of py room) (fun k =>
      obind (keys_of py rest) (fun ks => Returned ((room, k) :: ks)))
  end.

Definition max_keyed (first : dict Json.t * Z) (rest : list (dict Json.t * Z))
  : dict Json.t * Z :=
  fold_left (fun best item => if (snd best <? snd item)%Z then item else best)
            rest first.

(** The outcome of [select]: what it returns or raises, the list [rooms] as
    it leaves it, and the log. *)
Record Run : Type := {
  result : Outcome (option (dict Json.t));
  rooms_after : list Json.t;
  logged : list LogRecord
}.

Definition select (py : Builtins) (rooms : list Json.t) (balance : float)
  : Run :=
  match select_loop py balance rooms (Build_LoopState [] [] []) with
  | (Raised e, st, rest) =>
      Build_Run (Raised e) (visited st ++ rest) (log st)
  | (Returned _, st, rest) =>
      match available st with
      | [] =>
          Build_Run (Returned None) (visited st ++ rest)
                    (log st ++ [LogNoRooms])
      | first :: others =>
          match obind (current_of py first) (fun k =>
                obind (keys_of py others) (fun ks =>
                Returned (fst (max_keyed (first, k) ks)))) with
          | Raised e => Build_Run (Raised e) (visited st ++ rest) (log st)
          | Returned best =>
              Build_Run (Returned (Some best)) (visited st ++ rest)
                        (log st ++ [LogSelected best])
          end
      end
  end.

End RoomSelector.

(* ================================================================== *)
(** * The client: room descriptors *)
(* ================================================================== *)

Module MoltyClient.

Import Json.

(** [_normalize_room]: five [setdefault] calls on the dict it is given,
    which it returns. *)
Definition _normalize_room (room : dict Json.t) : dict Json.t :=
  let room := setdefault room "id"
    (or_ (get_or_null room "room_id")
         (or_ (get_or_null room "roomId")
              (or_ (get_or_null room "_id") (Str "")))) in
  let room := setdefault room "current_players"
    (or_ (get_or_null room "players")
         (or_ (get_or_null room "playerCount")
              (or_ (get_or_null room "currentPlayers") (Int 0)))) in
  let room := setdefault room "max_players"
    (or_ (get_or_null room "maxPlayers")
         (or_ (get_or_null room "max")
              (or_ (get_or_null room "capacity")
                   (or_ (get_or_null room "size") (Int 99))))) in
  let room := setdefault room "type"
    (or_ (get_or_null room "roomType")
         (or_ (get_or_null room "room_type") (Str "free"))) in
  let room := setdefault room "entry_cost"
    (or_ (get_or_null room "cost")
         (or_ (get_or_null room "fee")
              (or_ (get_or_null room "price")
                   (or_ (get_or_null room "entryCost") (Int 0))))) in
  room.

(** The dict that [list_rooms] makes for an item it has no details of. *)
Definition fallback_room (id : string) : dict Json.t :=
  [ ("id", Str id); ("current_players", Int 0); ("max_players", Int 99);
    ("type", Str "free"); ("entry_cost", Int 0) ].

End MoltyClient.

(* ================================================================== *)
(** * Vocabulary of the further properties *)
(* ================================================================== *)

(** ** Snapshots *)

(** The snapshot with another list of visible enemies. *)
Definition with_enemies (gs : GameState.t) (enemies : list Enemy.t)
  : GameState.t :=
  GameState.mk
    (GameState.hp gs) (GameState.max_hp gs) (GameState.balance gs)
    (GameState.kills gs) (GameState.weapon gs) (GameState.inventory gs)
    (GameState.zone gs) (GameState.vision_modifier gs) enemies
    (GameState.loot_nearby gs) (GameState.weapons_nearby gs)
    (GameState.current_region gs) (GameState.players_alive gs)
    (GameState.match_id gs) (GameState.tick gs) (GameState.state gs)
    (GameState.target_id gs) (GameState.locked_target gs).

Definition outside_zone (e : Enemy.t) : bool := negb (Enemy.in_zone e).

(** [gs.inventory.get(item, 0)] *)
Definition held (gs : GameState.t) (item : string) : Z :=
  get_default (GameState.inventory gs) item 0%Z.

(** ** Loot entries *)

(** [item.get("item", "")] *)
Definition loot_name (item : Loot) : string := get_default item "item" "".

(** The entry names an item of which fewer than [MAX_HEAL_PER_TYPE] are
    held. *)
Definition uncapped (gs : GameState.t) (item : Loot) : bool :=
  (held gs (loot_name item) <? MAX_HEAL_PER_TYPE)%Z.

(** The entry names one of the heal items. *)
Definition heal_class (item : Loot) : bool :=
  contains HEAL_PRIORITY (loot_name item).

(** ** Regions *)

(** The candidates of [_choose_region] while no region has a score. *)
Definition DEFAULT_REGIONS : list string :=
  ["central"; "north"; "south"; "east"; "west"].

(** The region a feedback call is about. *)
Definition call_region (c : Call) : string :=
  match c with
  | RecordExplore region _ => region
  | RecordEvent region _ => region
  end.

(** The number of [record_explore] calls of a session for a region, and the
    loot they reported. *)
Fixpoint explore_count (region : string) (cs : list Call) : Z :=
  match cs with
  | [] => 0
  | RecordExplore r _ :: cs' =>
      ((if String.eqb r region then 1 else 0) + explore_count region cs')%Z
  | RecordEvent _ _ :: cs' => explore_count region cs'
  end.

Fixpoint loot_total (region : string) (cs : list Call) : Z :=
  match cs with
  | [] => 0
  | RecordExplore r n :: cs' =>
      ((if String.eqb r region then n else 0) + loot_total region cs')%Z
  | RecordEvent _ _ :: cs' => loot_total region cs'
  end.

(** No [record_explore] call of the session reports a negative loot. *)
Definition loot_nonnegative (cs : list Call) : Prop :=
  Forall (fun c => match c with
                   | RecordExplore _ n => (0 <= n)%Z
                   | RecordEvent _ _ => True
                   end) cs.

(** The log shows a score adjustment of the region. *)
Definition adjusted_in (log : list LogRecord) (region : string) : Prop :=
  exists old new reason, In (LogRVS region old new reason) log.

(** The memory after a feedback call and the records the call logs, in
    closed form. *)
Definition after_call (c : Call) (mem : RegionMemory.t) : RegionMemory.t :=
  match c with
  | RecordExplore region loot_found =>
      if penalty_due mem region loot_found
      then adjusted (counted mem region loot_found) region RVS_FAIL_EXPLORE
      else counted mem region loot_found
  | RecordEvent region event =>
      if truthy (get_default RegionMemory.delta_map event 0)
      then adjusted mem region (get_default RegionMemory.delta_map event 0)
      else mem
  end.

Definition call_log (c : Call) (mem : RegionMemory.t) : list LogRecord :=
  match c with
  | RecordExplore region loot_found =>
      if penalty_due mem region loot_found
      then [LogRVS region
              (RegionMemory.rvs (counted mem region loot_found) region)
              (RegionMemory.rvs
                 (adjusted (counted mem region loot_found) region
                           RVS_FAIL_EXPLORE) region)
              "2 failed explores"]
      else []
  | RecordEvent region event =>
      if truthy (get_default RegionMemory.delta_map event 0)
      then [LogRVS region (RegionMemory.rvs mem region)
              (RegionMemory.rvs
                 (adjusted mem region
                    (get_default RegionMemory.delta_map event 0)) region)
              event]
      else []
  end.

(** ** Room selection *)

(** The dict that [select] examines for an element of [rooms]: none for an
    element that is neither a string nor a dict. *)
Definition candidate (raw_room : Json.t) : option (dict Json.t) :=
  match raw_room with
  | Json.Str s => Some (RoomSelector.of_id s)
  | Json.Dict room => Some (RoomSelector.normalise room)
  | _ => None
  end.

(** Every conversion that [select] makes on the elements of [rooms]
    returns. *)
Definition readable (py : Json.Builtins) (balance : float)
    (rooms : list Json.t) : Prop :=
  forall raw_room room,
    In raw_room rooms -> candidate raw_room = Some room ->
    exists r, RoomSelector.examine py balance room = Json.Returned r.

(** The rooms that pass both tests, in the order of [rooms]. *)
Fixpoint kept_rooms (py : Json.Builtins) (balance : float)
    (rooms : list Json.t) : list (dict Json.t) :=
  match rooms with
  | [] => []
  | raw_room :: rest =>
      match candidate raw_room with
      | Some room =>
          match RoomSelector.examine py balance room with
          | Json.Returned (true, _) => room :: kept_rooms py balance rest
          | _ => kept_rooms py balance rest
          end
      | None => kept_rooms py balance rest
      end
  end.

(** The room is not full and, if paid, affordable. *)
Definition open_and_affordable (py : Json.Builtins) (balance : float)
    (room : dict Json.t) : Prop :=
  exists (current max_p : Z) (cost : float),
    RoomSelector.current_of py room = Json.Returned current
    /\ RoomSelector.max_of py room = Json.Returned max_p
    /\ RoomSelector.cost_of py room = Json.Returned cost
    /\ (current < max_p)%Z
    /\ (RoomSelector.rtype_of py room = "paid" -> (balance <? cost) = false).

(** An element of [rooms] as a visit of the loop leaves it: a dict is
    normalised in place. *)
Definition in_place (raw_room : Json.t) : Json.t :=
  match raw_room with
  | Json.Dict room => Json.Dict (RoomSelector.normalise room)
  | _ => raw_room
  end.

(** The five keys that [select] reads. *)
Definition ROOM_KEYS : list string :=
  ["id"; "current_players"; "max_players"; "type"; "entry_cost"].

(** What [list_rooms] appends to the list it returns: a dict normalised by
    [_normalize_room], or the fallback dict. *)
Definition listed (raw_room : Json.t) : Prop :=
  exists room,
    raw_room = Json.Dict room
    /\ ((exists d, room = MoltyClient._normalize_room d)
        \/ (exists id, room = MoltyClient.fallback_room id)).

(** Builtins for examples whose rooms hold no number as text. *)
Definition no_text_numbers : Json.Builtins :=
  Json.Build_Builtins (fun _ => Json.Raised Json.ValueError)
                      (fun _ => Json.Raised Json.ValueError)
                      (fun _ => "").

(** ** The decision table

    What each rule of [decide] would return, and the action of the whole
    chain as a function of the engine and the snapshot alone. *)

(** Rule 3: the weapon to hunt, if any. *)
Definition hunt_target (gs : GameState.t) : option Weapon.t :=
  match DecisionEngine._best_nearby_weapon gs with
  | Some w => if weapon_rule_fires gs w then Some w else None
  | None => None
  end.

(** Rule 6: the region to move to, if any. *)
Definition explore_target (self : DecisionEngine.t) (gs : GameState.t)
  : option string :=
  match DecisionEngine._choose_region self gs with
  | Some region =>
      if str_truthy region
         && negb (String.eqb region (GameState.current_region gs))
      then Some region else None
  | None => None
  end.

(** Rule 7: the loot entry to pick up, if any. *)
Definition loot_target (gs : GameState.t) : option Loot :=
  match DecisionEngine._pick_loot gs with
  | Some loot => if nonempty loot then Some loot else None
  | None => None
  end.

Definition explore_table (self : DecisionEngine.t) (gs : GameState.t)
  : Result Action :=
  match explore_target self gs with
  | Some region => Ok (move_to_region region)
  | None =>
      match loot_target gs with
      | Some loot => Ok (pick_loot (get loot "id"))
      | None => Ok patrol
      end
  end.

Definition combat_table (self : DecisionEngine.t) (gs : GameState.t)
  : Result Action :=
  if normal_heal_fires gs then Ok (use_item (GameState.best_heal gs))
  else
    match DecisionEngine._select_target gs with
    | Raise e => Raise e
    | Ok (Some t) => Ok (attack (Enemy.id t))
    | Ok None => explore_table self gs
    end.

Definition decide_table (self : DecisionEngine.t) (gs : GameState.t)
  : Result Action :=
  if DecisionEngine._zone_critical gs then Ok (zone_escape_result gs)
  else if critical_heal_fires gs then Ok (use_item (GameState.best_heal gs))
  else
    match hunt_target gs with
    | Some w => Ok (move_to_weapon (Weapon.name w))
    | None => combat_table self gs
    end.

(* ================================================================== *)
(** * Facts on binary64 comparison *)
(* ================================================================== *)

Module FloatOrder.

Ltac cmp_cases :=
  repeat match goal with
    | |- context [Z.compare ?a ?b] =>
        destruct (Z.compare_spec a b); subst
    | |- context [Pos.compare_cont Eq ?a ?b] =>
        change (Pos.compare_cont Eq a b) with (Pos.compare a b);
        destruct (Pos.compare_spec a b); subst
    | H : context [Z.compare ?a ?b] |- _ =>
        destruct (Z.compare_spec a b); subst
    | H : context [Pos.compare_cont Eq ?a ?b] |- _ =>
        change (Pos.compare_cont Eq a b) with (Pos.compare a b) in H;
        destruct (Pos.compare_spec a b); subst
    end.

Ltac sf_cases :=
  intros;
  repeat match goal with
    | x : spec_float |- _ => destruct x
    end;
  repeat match goal with
    | s : bool |- _ => destruct s
    end;
  cbn [SFcompare CompOpp option_map] in *;
  try discriminate; try reflexivity;
  cmp_cases; cbn [CompOpp] in *;
  try discriminate; try reflexivity; try lia; try congruence.

Lemma SFcompare_antisym (x y : spec_float) :
  SFcompare y x = option_map CompOpp (SFcompare x y).
Proof. sf_cases. Qed.

(** From the primitive comparisons to [SFcompare] on the decoded values. *)
Ltac to_spec :=
  unfold lt, le, is_nan in *;
  rewrite ?ltb_spec, ?leb_spec, ?eqb_spec in *;
  unfold SFltb, SFleb, SFeqb in *;
  repeat match goal with
    | |- context [Prim2SF ?x] =>
        let s := fresh "s" in
        let E := fresh "E" in
        remember (Prim2SF x) as s eqn:E in *; clear E
    | H : context [Prim2SF ?x] |- _ =>
        let s := fresh "s" in
        let E := fresh "E" in
        remember (Prim2SF x) as s eqn:E in *; clear E
    end.

Ltac float_order := intros; to_spec; sf_cases.

Lemma lt_le (x y : float) : lt x y -> le x y.
Proof. float_order. Qed.

Lemma lt_trans (x y z : float) : lt x y -> lt y z -> lt x z.
Proof. float_order. Qed.

Lemma lt_not_le (x y : float) : lt x y -> (y <=? x) = false.
Proof. float_order. Qed.

Lemma le_not_nan_r (x y : float) : le x y -> ~ is_nan y.
Proof. float_order. Qed.

(** Away from NaN the order is total. *)
Lemma not_lt_le (x y : float) :
  ~ is_nan x -> ~ is_nan y -> (x <? y) = false -> le y x.
Proof. float_order. Qed.

Lemma not_le_lt (x y : float) :
  ~ is_nan x -> ~ is_nan y -> (x <=? y) = false -> lt y x.
Proof. float_order. Qed.

Lemma not_le_not_lt (x y : float) : (x <=? y) = false -> (x <? y) = false.
Proof. float_order. Qed.


(** The step of a running maximum, valid for every float, NaN included:
    an item that was not above the old best neither ties with nor beats a
    strictly greater new best. *)
Lemma not_above_step (b e y : float) :
  (b <? y) = false -> lt b e -> (e <=? y) = false.
Proof. float_order. Qed.

(** Guards that protect a division. *)
Lemma not_le_zero_nonzero (x : float) :
  (x <=? 0) = false -> (x =? 0) = false.
Proof.
  intros H. rewrite leb_spec in H. rewrite eqb_spec.
  unfold SFleb, SFeqb in *. destruct (SFcompare _ _) as [[]|]; congruence.
Qed.

Lemma pos_nonzero (x : float) : (0 <? x) = true -> (x =? 0) = false.
Proof.
  intros H. rewrite ltb_spec in H. rewrite eqb_spec.
  unfold SFltb, SFeqb in *.
  rewrite (SFcompare_antisym (Prim2SF 0) (Prim2SF x)).
  destruct (SFcompare (Prim2SF 0) (Prim2SF x)) as [[]|]; cbn; congruence.
Qed.

Lemma pos_not_le_zero (x : float) : (0 <? x) = true -> (x <=? 0) = false.
Proof. intros H. apply lt_not_le. exact H. Qed.

End FloatOrder.

Import FloatOrder.

(* ================================================================== *)
(** * Weapon upgrades *)
(* ================================================================== *)

(** The division of [is_upgrade_over] is never reached with a zero divisor:
    on the path that divides, [truediv] returns the IEEE quotient. *)
Lemma is_upgrade_over_division_guarded (self other : Weapon.t) :
  (Weapon.score other <=? 0) = false ->
  truediv (Weapon.score self - Weapon.score other) (Weapon.score other)
  = Ok ((Weapon.score self - Weapon.score other) / Weapon.score other).
Proof.
  intros H. unfold truediv. now rewrite (not_le_zero_nonzero _ H).
Qed.

(** Likewise for [_kill_time]: it divides only by a positive [my_dps]. *)
Lemma kill_time_division_guarded (hp my_dps : float) :
  (0 <? my_dps) = true -> truediv hp my_dps = Ok (hp / my_dps).
Proof.
  intros H. unfold truediv. now rewrite (pos_nonzero _ H).
Qed.

(** And for [hp_pct]: it divides only by a [max_hp] that is not zero. *)
Lemma hp_pct_division_guarded (hp max_hp : float) :
  truthy max_hp = true -> truediv hp max_hp = Ok (hp / max_hp).
Proof.
  unfold truthy, truediv. now destruct (max_hp =? 0).
Qed.

(** C9. Every weapon is an upgrade over no weapon; over a weapon whose score
    is [<= 0] it is an upgrade exactly when its own score is positive; over
    a weapon of positive score exactly when the relative gain
    [(W.score - O.score) / O.score] is at least 0.15. *)
Theorem is_upgrade_over_spec (W : Weapon.t) :
  Weapon.is_upgrade_over W None = true
  /\ (forall O : Weapon.t,
        le (Weapon.score O) 0 ->
        (Weapon.is_upgrade_over W (Some O) = true <-> lt 0 (Weapon.score W)))
  /\ (forall O : Weapon.t,
        lt 0 (Weapon.score O) ->
        (Weapon.is_upgrade_over W (Some O) = true
         <-> le 0.15 ((Weapon.score W - Weapon.score O) / Weapon.score O))).
Proof.
  split; [reflexivity | split]; intros O HO; cbn [Weapon.is_upgrade_over].
  - unfold le in HO. rewrite HO. reflexivity.
  - rewrite (pos_not_le_zero _ HO). reflexivity.
Qed.

(* ================================================================== *)
(** * Zone escape *)
(* ================================================================== *)

Lemma zone_critical_iff (gs : GameState.t) :
  DecisionEngine._zone_critical gs = true <->
  Zone.is_safe (GameState.zone gs) = false
  \/ (lt (Zone.distance (GameState.zone gs)) 50
      /\ lt (Zone.shrink_timer (GameState.zone gs)) 10)
  \/ (lt (GameState.hp_pct gs) 60
      /\ lt (Zone.distance (GameState.zone gs)) 80).
Proof.
  unfold DecisionEngine._zone_critical, lt, HP_ZONE_ABORT.
  destruct (Zone.is_safe _); cbn [negb].
  - destruct (Zone.distance _ <? 50) eqn:D50;
      destruct (Zone.shrink_timer _ <? 10) eqn:T10;
      destruct (GameState.hp_pct gs <? 60) eqn:H60;
      destruct (Zone.distance _ <? 80) eqn:D80;
      cbn [andb]; intuition congruence.
  - intuition.
Qed.

Lemma decide_zone_critical (self : DecisionEngine.t) (gs : GameState.t)
    (log : list LogRecord) :
  DecisionEngine._zone_critical gs = true ->
  DecisionEngine.decide self (gs, log)
  = (Ok (zone_escape_result gs),
     (gs, log ++ [LogZoneEscape (Zone.distance (GameState.zone gs))
                                (Zone.shrink_timer (GameState.zone gs))
                                (GameState.hp_pct gs)])%list).
Proof.
  intros H. unfold DecisionEngine.decide, bind, get_self. cbn [fst snd].
  rewrite H. reflexivity.
Qed.

(** C1. Whenever the agent is not marked safe, or [zone.distance < 50] and
    [zone.shrink_timer < 10], or [hp_pct < 60] and [zone.distance < 80],
    [decide] returns an [escape_zone] action, whatever the other fields, the
    region memory and the log are: the zone rule is tested before every
    other rule. *)
Theorem decide_zone_escape_first (self : DecisionEngine.t) (gs : GameState.t)
    (log : list LogRecord) :
  Zone.is_safe (GameState.zone gs) = false
  \/ (lt (Zone.distance (GameState.zone gs)) 50
      /\ lt (Zone.shrink_timer (GameState.zone gs)) 10)
  \/ (lt (GameState.hp_pct gs) 60
      /\ lt (Zone.distance (GameState.zone gs)) 80) ->
  exists direction use_heal,
    fst (DecisionEngine.decide self (gs, log))
    = Ok (escape_zone direction "sprint" use_heal).
Proof.
  intros H. apply zone_critical_iff in H.
  rewrite (decide_zone_critical self gs log H).
  eexists; eexists; reflexivity.
Qed.

(** Health 20%, 30 from the boundary, 5 s to the shrink, a medkit held: the
    zone rule fires before the heal rule. *)
Lemma decide_zone_escape_first_witness :
  exists direction use_heal,
    fst (DecisionEngine.decide (DecisionEngine.mk RegionMemory.init)
           (snapshot 20 None [("medkit", 1%Z)] (Zone.mk 30 5 "" true 1)
                     [] [] [] "", []))
    = Ok (escape_zone direction "sprint" use_heal).
Proof.
  apply decide_zone_escape_first.
  right; left. split; reflexivity.
Defined.

(* ================================================================== *)
(** * Win probability *)
(* ================================================================== *)

Lemma win_prob_pinned_value (gs : GameState.t) (e : Enemy.t) :
  pinned_agent gs -> pinned_enemy e ->
  DecisionEngine._win_prob gs e = Ok 0.7575757575757576.
Proof.
  intros [[w [Hw Hdps]] [Hhp Hvis]] [Hd [Hh [_ [Hed _]]]].
  unfold DecisionEngine._win_prob, DecisionEngine._position_advantage.
  rewrite Hw, Hdps, Hhp, Hvis, Hd, Hh, Hed.
  vm_compute. reflexivity.
Qed.

(** C7, as stated, fails: in the pinned configuration the ratio is
    [2000 / 640 = 3.125] and the probability [3.125 / 4.125], above 0.75. *)
Lemma win_prob_pin_counterexample :
  exists (gs : GameState.t) (e : Enemy.t) (wp : float),
    pinned_agent gs /\ pinned_enemy e
    /\ DecisionEngine._win_prob gs e = Ok wp
    /\ ~ (le 0.55 wp /\ le wp 0.75).
Proof.
  exists (snapshot 100 (Some (Weapon.mk "rifle" 20 1 1 "common")) []
                   Zone.default [] [] [] "").
  exists (Enemy.mk "e" 40 100 10 80 false).
  exists 0.7575757575757576.
  split; [| split; [| split]].
  - split; [eexists; split; reflexivity | split; reflexivity].
  - repeat split.
  - reflexivity.
  - intros [_ H]. vm_compute in H. discriminate H.
Qed.

(** C7, amended. In the pinned configuration [_win_prob] returns
    [3.125 / 4.125] (0.7575757575757576 in binary64), which lies in
    [[0.55, 0.76]]. *)
Theorem win_prob_pin (gs : GameState.t) (e : Enemy.t) :
  pinned_agent gs -> pinned_enemy e ->
  exists wp : float,
    DecisionEngine._win_prob gs e = Ok wp
    /\ wp = 3.125 / 4.125 /\ le 0.55 wp /\ le wp 0.76.
Proof.
  intros Hgs He. exists 0.7575757575757576.
  split; [apply win_prob_pinned_value; assumption |].
  repeat split; vm_compute; reflexivity.
Qed.

Lemma win_prob_pin_witness :
  exists wp : float,
    DecisionEngine._win_prob
      (snapshot 100 (Some (Weapon.mk "rifle" 20 1 1 "common")) []
                Zone.default [] [] [] "")
      (Enemy.mk "e" 40 100 10 80 false) = Ok wp
    /\ wp = 3.125 / 4.125 /\ le 0.55 wp /\ le wp 0.76.
Proof.
  apply win_prob_pin.
  - split; [eexists; split; reflexivity | split; reflexivity].
  - repeat split.
Defined.

(* ================================================================== *)
(** * Dictionaries *)
(* ================================================================== *)

Section Dict.

Context {V : Type}.
Implicit Types (d : dict V) (k : string) (v : V).

Lemma get_set_same d k v : get (set d k v) k = Some v.
Proof.
  induction d as [|[k' v'] d IH]; cbn [set get].
  - now rewrite String.eqb_refl.
  - destruct (String.eqb k' k) eqn:E; cbn [get]; rewrite E; auto.
Qed.

Lemma getitem_set_same d k v : getitem (set d k v) k = Ok v.
Proof. unfold getitem. now rewrite get_set_same. Qed.

Lemma get_default_set_same d k v default :
  get_default (set d k v) k default = v.
Proof. unfold get_default. now rewrite get_set_same. Qed.

Lemma Forall_set (P : string * V -> Prop) d k v :
  (forall k0, P (k0, v)) -> Forall P d -> Forall P (set d k v).
Proof.
  intros Hv. induction 1 as [|[k' v'] d HP Hd IH]; cbn [set].
  - constructor; auto.
  - destruct (String.eqb k' k); constructor; auto.
Qed.

Lemma get_Forall (P : string * V -> Prop) d k v :
  Forall P d -> get d k = Some v -> exists k0, P (k0, v).
Proof.
  induction 1 as [|[k' v'] d HP Hd IH]; cbn [get]; [discriminate|].
  destruct (String.eqb k' k).
  - intros [= ->]. now exists k'.
  - exact IH.
Qed.

End Dict.

(* ================================================================== *)
(** * Region memory: bounded scores and the failed-explore penalty *)
(* ================================================================== *)

Lemma clamp_in_range (x : float) : in_range (max 0.0 (min 2.0 x)).
Proof.
  unfold max, min, in_range.
  destruct (x <? 2.0) eqn:H2.
  - destruct (0.0 <? x) eqn:H0.
    + split; apply lt_le; assumption.
    + split; reflexivity.
  - destruct (0.0 <? 2.0) eqn:H0; split; reflexivity.
Qed.

Lemma adjust_run (region : string) (delta : float) (reason : string)
    (mem : RegionMemory.t) (log : list LogRecord) :
  RegionMemory._adjust region delta reason (mem, log)
  = (Ok tt,
     (adjusted mem region delta,
      (log ++ [LogRVS region (RegionMemory.rvs mem region)
                      (RegionMemory.rvs (adjusted mem region delta) region)
                      reason])%list)).
Proof. reflexivity. Qed.

Lemma record_explore_run (region : string) (loot_found : Z)
    (mem : RegionMemory.t) (log : list LogRecord) :
  RegionMemory.record_explore region loot_found (mem, log)
  = if penalty_due mem region loot_found
    then RegionMemory._adjust region RVS_FAIL_EXPLORE "2 failed explores"
           (counted mem region loot_found, log)
    else (Ok tt, (counted mem region loot_found, log)).
Proof.
  unfold RegionMemory.record_explore, bind, modify, get_self, lift, ret.
  cbn [fst snd RegionMemory._explores RegionMemory._loot_found RegionMemory._rvs].
  rewrite !getitem_set_same.
  unfold penalty_due. destruct (_ && _); reflexivity.
Qed.

Lemma record_event_run (region event : string)
    (mem : RegionMemory.t) (log : list LogRecord) :
  RegionMemory.record_event region event (mem, log)
  = if truthy (get_default RegionMemory.delta_map event 0)
    then RegionMemory._adjust region
           (get_default RegionMemory.delta_map event 0) event (mem, log)
    else (Ok tt, (mem, log)).
Proof.
  unfold RegionMemory.record_event.
  destruct (truthy _); reflexivity.
Qed.

Lemma adjusted_in_range (mem : RegionMemory.t) (region : string) (delta : float) :
  scores_in_range mem -> scores_in_range (adjusted mem region delta).
Proof.
  unfold scores_in_range, adjusted. cbn [RegionMemory._rvs].
  apply Forall_set. intros k0. apply clamp_in_range.
Qed.

Lemma rvs_in_range (mem : RegionMemory.t) (region : string) :
  scores_in_range mem -> in_range (RegionMemory.rvs mem region).
Proof.
  intros H. unfold RegionMemory.rvs, get_default.
  destruct (get _ region) as [v|] eqn:E.
  - destruct (get_Forall _ _ _ _ H E) as [k0 Hk]. exact Hk.
  - split; reflexivity.
Qed.

Lemma call_in_range (c : Call) (mem : RegionMemory.t) (log : list LogRecord) :
  scores_in_range mem ->
  exists mem' log',
    call c (mem, log) = (Ok tt, (mem', log')) /\ scores_in_range mem'.
Proof.
  intros H. destruct c as [region loot_found | region event]; cbn [call].
  - rewrite record_explore_run.
    destruct (penalty_due mem region loot_found).
    + rewrite adjust_run. eexists; eexists; split; [reflexivity|].
      apply adjusted_in_range. exact H.
    + eexists; eexists; split; [reflexivity | exact H].
  - rewrite record_event_run.
    destruct (truthy _).
    + rewrite adjust_run. eexists; eexists; split; [reflexivity|].
      apply adjusted_in_range. exact H.
    + eexists; eexists; split; [reflexivity | exact H].
Qed.

Lemma calls_in_range (cs : list Call) :
  forall (mem : RegionMemory.t) (log : list LogRecord),
    scores_in_range mem ->
    exists mem' log',
      calls cs (mem, log) = (Ok tt, (mem', log')) /\ scores_in_range mem'.
Proof.
  induction cs as [|c cs IH]; intros mem log H; cbn [calls].
  - exists mem, log. split; [reflexivity | exact H].
  - destruct (call_in_range c mem log H) as [mem1 [log1 [E1 H1]]].
    destruct (IH mem1 log1 H1) as [mem2 [log2 [E2 H2]]].
    exists mem2, log2. split; [| exact H2].
    unfold bind. rewrite E1. exact E2.
Qed.

(** C4. From a fresh [RegionMemory], every finite sequence of
    [record_explore] and [record_event] calls, whatever their arguments,
    runs to completion and leaves every stored score in [[0.0, 2.0]]; the
    score read for any region, stored or not, is in that range, and an
    unseen region reads as the base value 1.0. *)
Theorem region_scores_bounded (cs : list Call) :
  exists (mem : RegionMemory.t) (log : list LogRecord),
    calls cs (RegionMemory.init, []) = (Ok tt, (mem, log))
    /\ scores_in_range mem
    /\ (forall region, in_range (RegionMemory.rvs mem region))
    /\ (forall region,
          get (RegionMemory._rvs mem) region = None ->
          RegionMemory.rvs mem region = 1.0).
Proof.
  destruct (calls_in_range cs RegionMemory.init [] (Forall_nil _))
    as [mem [log [E H]]].
  exists mem, log. repeat split.
  - exact E.
  - exact H.
  - apply rvs_in_range; exact H.
  - apply rvs_in_range; exact H.
  - intros region Hn. unfold RegionMemory.rvs, get_default. now rewrite Hn.
Qed.

Lemma fail_penalties_app (region : string) (l1 l2 : list LogRecord) :
  fail_penalties region (l1 ++ l2)
  = (fail_penalties region l1 + fail_penalties region l2)%nat.
Proof. unfold fail_penalties. now rewrite filter_app, length_app. Qed.

(** C2, as stated, fails. From a fresh memory, the second
    [record_explore("r", 0)] reaches the threshold and applies the penalty
    (score 1.0 to 0.7); a third zero-loot call, with the condition never
    having ceased to hold, applies it again (score 0.7 to 0.4). *)
Lemma fail_penalty_repeats_counterexample :
  exists (mem2 mem3 : RegionMemory.t) (log2 log3 : list LogRecord),
    (RegionMemory.record_explore "r" 0 ;; RegionMemory.record_explore "r" 0)
      (RegionMemory.init, []) = (Ok tt, (mem2, log2))
    /\ fail_penalties "r" log2 = 1%nat
    /\ RegionMemory.rvs mem2 "r" = 1.0 + -0.3
    /\ RegionMemory.record_explore "r" 0 (mem2, log2) = (Ok tt, (mem3, log3))
    /\ fail_penalties "r" log3 = 2%nat
    /\ RegionMemory.rvs mem3 "r" = 1.0 + -0.3 + -0.3.
Proof.
  do 4 eexists.
  split; [vm_compute; reflexivity |].
  repeat split; vm_compute; reflexivity.
Qed.

(** What a [record_explore] call does to the memory and to the log. *)
Lemma record_explore_effect (region : string) (loot_found : Z)
    (mem : RegionMemory.t) (log : list LogRecord) :
  RegionMemory.record_explore region loot_found (mem, log)
  = (Ok tt,
     (RegionMemory.mk
        (if penalty_due mem region loot_found
         then set (RegionMemory._rvs mem) region
                  (penalised (RegionMemory.rvs mem region))
         else RegionMemory._rvs mem)
        (set (RegionMemory._explores mem) region
             (get_default (RegionMemory._explores mem) region 0 + 1)%Z)
        (set (RegionMemory._loot_found mem) region
             (get_default (RegionMemory._loot_found mem) region 0
              + loot_found)%Z),
      (log ++ if penalty_due mem region loot_found
              then [LogRVS region (RegionMemory.rvs mem region)
                           (penalised (RegionMemory.rvs mem region))
                           "2 failed explores"]
              else [])%list)).
Proof.
  rewrite record_explore_run.
  destruct (penalty_due mem region loot_found).
  - rewrite adjust_run.
    unfold adjusted, counted, penalised, RegionMemory.rvs, RVS_FAIL_EXPLORE.
    cbn [RegionMemory._rvs RegionMemory._explores RegionMemory._loot_found].
    rewrite get_default_set_same. reflexivity.
  - rewrite app_nil_r. reflexivity.
Qed.

(** C2, amended. A [record_explore] call applies the failed-explore penalty
    exactly when it leaves the region's explore count at 2 or more with a
    cumulative loot of 0, on every such call and on no other: it then
    stores the region's score lowered by 0.3 (kept within [[0, 2]]) and
    logs the change, and otherwise leaves every score and the log as they
    were. So on a region with no earlier explore and no earlier loot, two
    consecutive [record_explore(region, 0)] calls apply it exactly once:
    the first leaves the score alone and the second lowers it once. *)
Theorem fail_penalty_on_each_failed_explore (region : string)
    (mem : RegionMemory.t) (log : list LogRecord) :
  (forall loot_found : Z,
     exists (mem' : RegionMemory.t) (log' : list LogRecord),
       RegionMemory.record_explore region loot_found (mem, log)
       = (Ok tt, (mem', log'))
       /\ fail_penalties region log'
          = (fail_penalties region log
             + if (2 <=? get_default (RegionMemory._explores mem) region 0 + 1)%Z
                  && (get_default (RegionMemory._loot_found mem) region 0
                      + loot_found =? 0)%Z
               then 1 else 0)%nat
       /\ if (2 <=? get_default (RegionMemory._explores mem) region 0 + 1)%Z
             && (get_default (RegionMemory._loot_found mem) region 0
                 + loot_found =? 0)%Z
          then get (RegionMemory._rvs mem') region
               = Some (penalised (RegionMemory.rvs mem region))
               /\ RegionMemory.rvs mem' region
                  = penalised (RegionMemory.rvs mem region)
               /\ log' = (log ++ [LogRVS region (RegionMemory.rvs mem region)
                                     (penalised (RegionMemory.rvs mem region))
                                     "2 failed explores"])%list
          else RegionMemory._rvs mem' = RegionMemory._rvs mem
               /\ RegionMemory.rvs mem' region = RegionMemory.rvs mem region
               /\ log' = log)
  /\ (get_default (RegionMemory._explores mem) region 0%Z = 0%Z ->
      get_default (RegionMemory._loot_found mem) region 0%Z = 0%Z ->
      exists (mem1 mem' : RegionMemory.t) (log' : list LogRecord),
        RegionMemory.record_explore region 0 (mem, log) = (Ok tt, (mem1, log))
        /\ RegionMemory._rvs mem1 = RegionMemory._rvs mem
        /\ (RegionMemory.record_explore region 0 ;;
            RegionMemory.record_explore region 0) (mem, log)
           = (Ok tt, (mem', log'))
        /\ fail_penalties region log' = (fail_penalties region log + 1)%nat
        /\ RegionMemory.rvs mem' region
           = penalised (RegionMemory.rvs mem region)
        /\ get (RegionMemory._rvs mem') region
           = Some (penalised (RegionMemory.rvs mem region))).
Proof.
  split.
  - intros loot_found. rewrite record_explore_effect.
    fold (penalty_due mem region loot_found).
    do 2 eexists. split; [reflexivity |].
    destruct (penalty_due mem region loot_found).
    + split; [| split; [| split]].
      * rewrite fail_penalties_app. f_equal.
        unfold fail_penalties. cbn [filter is_fail_penalty].
        now rewrite !String.eqb_refl.
      * cbn [RegionMemory._rvs]. apply get_set_same.
      * unfold RegionMemory.rvs at 1. cbn [RegionMemory._rvs].
        apply get_default_set_same.
      * reflexivity.
    + rewrite app_nil_r, Nat.add_0_r. repeat split.
  - intros Hc Hl.
    assert (D1 : penalty_due mem region 0 = false).
    { unfold penalty_due. rewrite Hc. reflexivity. }
    pose proof (record_explore_effect region 0 mem log) as E1.
    rewrite D1, app_nil_r in E1.
    set (mem1 := RegionMemory.mk _ _ _) in E1.
    assert (D2 : penalty_due mem1 region 0 = true).
    { unfold penalty_due, mem1.
      cbn [RegionMemory._explores RegionMemory._loot_found].
      rewrite !get_default_set_same, Hc, Hl. reflexivity. }
    pose proof (record_explore_effect region 0 mem1 log) as E2.
    rewrite D2 in E2.
    assert (R1 : RegionMemory.rvs mem1 region = RegionMemory.rvs mem region)
      by reflexivity.
    rewrite R1 in E2.
    do 3 eexists. split; [exact E1 |]. split; [reflexivity |].
    split; [unfold bind; rewrite E1; exact E2 |].
    split; [| split].
    + rewrite fail_penalties_app. f_equal.
      unfold fail_penalties. cbn [filter is_fail_penalty].
      now rewrite !String.eqb_refl.
    + unfold RegionMemory.rvs at 1. cbn [RegionMemory._rvs].
      apply get_default_set_same.
    + cbn [RegionMemory._rvs]. apply get_set_same.
Qed.

Lemma fail_penalty_on_each_failed_explore_witness :
  exists (mem1 mem' : RegionMemory.t) (log' : list LogRecord),
    RegionMemory.record_explore "north" 0 (RegionMemory.init, [])
    = (Ok tt, (mem1, []))
    /\ RegionMemory._rvs mem1 = RegionMemory._rvs RegionMemory.init
    /\ (RegionMemory.record_explore "north" 0 ;;
        RegionMemory.record_explore "north" 0) (RegionMemory.init, [])
       = (Ok tt, (mem', log'))
    /\ fail_penalties "north" log' = (fail_penalties "north" [] + 1)%nat
    /\ RegionMemory.rvs mem' "north"
       = penalised (RegionMemory.rvs RegionMemory.init "north")
    /\ get (RegionMemory._rvs mem') "north"
       = Some (penalised (RegionMemory.rvs RegionMemory.init "north")).
Proof.
  apply (proj2 (fail_penalty_on_each_failed_explore "north" RegionMemory.init []));
    reflexivity.
Defined.

(* ================================================================== *)
(** * [max] with a key: the first maximum *)
(* ================================================================== *)

Section MaxBy.

Context {A : Type} (key : A -> float).

Lemma max_by_running (xs : list A) :
  forall (l1 : list A) (b : A) (l2 : list A),
    (forall y, In y l1 -> (key b <=? key y) = false) ->
    (forall y, In y l2 -> (key b <? key y) = false) ->
    first_max key (l1 ++ b :: l2 ++ xs) (max_by key b xs).
Proof.
  unfold max_by.
  induction xs as [|e xs IH]; intros l1 b l2 H1 H2; cbn [fold_left].
  - exists l1, l2. rewrite app_nil_r. auto.
  - destruct (key b <? key e) eqn:E.
    + replace (l1 ++ b :: l2 ++ e :: xs)
        with ((l1 ++ b :: l2) ++ e :: [] ++ xs)
        by (rewrite <- app_assoc; reflexivity).
      apply IH.
      * intros y Hy. apply in_app_or in Hy.
        destruct Hy as [Hy | [<- | Hy]].
        -- apply not_above_step with (b := key b); [| exact E].
           apply not_le_not_lt. apply H1, Hy.
        -- apply lt_not_le. exact E.
        -- apply not_above_step with (b := key b); [| exact E].
           apply H2, Hy.
      * intros y [].
    + replace (l1 ++ b :: l2 ++ e :: xs)
        with (l1 ++ b :: (l2 ++ [e]) ++ xs)
        by (rewrite <- app_assoc; reflexivity).
      apply IH; [exact H1 |].
      intros y Hy. apply in_app_or in Hy.
      destruct Hy as [Hy | [<- | []]]; [apply H2, Hy | exact E].
Qed.

Lemma max_by_first_max (x : A) (xs : list A) :
  first_max key (x :: xs) (max_by key x xs).
Proof.
  apply (max_by_running xs [] x []); intros y [].
Qed.

Lemma max_by_opt_first_max (pool : list A) :
  pool <> [] ->
  exists r, max_by_opt key pool = Some r /\ first_max key pool r.
Proof.
  destruct pool as [|x xs]; [congruence | intros _].
  exists (max_by key x xs). split; [reflexivity | apply max_by_first_max].
Qed.

Lemma first_max_In (l : list A) (r : A) : first_max key l r -> In r l.
Proof.
  intros [l1 [l2 [-> _]]]. apply in_or_app. right. left. reflexivity.
Qed.

Lemma filter_split (P : A -> bool) (l : list A) :
  forall (w1 : list A) (r : A) (w2 : list A),
    filter P l = w1 ++ r :: w2 ->
    exists l1 l2,
      l = l1 ++ r :: l2 /\ filter P l1 = w1 /\ filter P l2 = w2
      /\ P r = true.
Proof.
  induction l as [|a l IH]; intros w1 r w2 H; cbn [filter] in H.
  - destruct w1; discriminate H.
  - destruct (P a) eqn:Pa.
    + destruct w1 as [|b w1]; cbn [app] in H; injection H as -> H.
      * exists [], l. cbn [filter app]. auto.
      * destruct (IH _ _ _ H) as [l1 [l2 [-> [F1 [F2 Pr]]]]].
        exists (b :: l1), l2. cbn [filter app]. rewrite Pa, F1. auto.
    + destruct (IH _ _ _ H) as [l1 [l2 [-> [F1 [F2 Pr]]]]].
      exists (a :: l1), l2. cbn [filter app]. rewrite Pa. auto.
Qed.

(** Where no key is a NaN, the first maximum of [filter P l] by the
    code's comparisons is the first maximum among the [P]-items of [l]. *)
Lemma first_max_filter (P : A -> bool) (l : list A) (r : A) :
  (forall y, In y l -> ~ is_nan (key y)) ->
  first_max key (filter P l) r ->
  first_maximum_among key P l r.
Proof.
  intros Hnan [w1 [w2 [Hw [H1 H2]]]].
  destruct (filter_split P l _ _ _ Hw) as [l1 [l2 [-> [F1 [F2 Pr]]]]].
  assert (Hr : ~ is_nan (key r)).
  { apply Hnan. apply in_or_app. right. left. reflexivity. }
  split; [exact Pr |]. exists l1, l2. split; [reflexivity | split].
  - intros y Hy Py. apply not_le_lt.
    + exact Hr.
    + apply Hnan. apply in_or_app. left. exact Hy.
    + apply H1. rewrite <- F1. apply filter_In. auto.
  - intros y Hy Py. apply not_lt_le.
    + exact Hr.
    + apply Hnan. apply in_or_app. right. right. exact Hy.
    + apply H2. rewrite <- F2. apply filter_In. auto.
Qed.

Lemma filter_true (l : list A) : filter (fun _ => true) l = l.
Proof. induction l as [|a l IH]; cbn [filter]; congruence. Qed.

End MaxBy.

(* ================================================================== *)
(** * Choosing the region to explore *)
(* ================================================================== *)

Lemma in_range_not_nan (v : float) : in_range v -> ~ is_nan v.
Proof. intros [H _]. exact (le_not_nan_r _ _ H). Qed.

(** C6. On a memory whose scores are in range (every memory the program
    builds, by [calls_in_range]) and a non-empty candidate list,
    [best_region] returns a candidate: the first maximum among the
    candidates of score at least 0.5 when there is one, the first maximum
    of the whole list otherwise. *)
Theorem best_region_spec (mem : RegionMemory.t) (candidates : list string) :
  scores_in_range mem ->
  candidates <> [] ->
  exists r : string,
    RegionMemory.best_region mem candidates = Some r
    /\ In r candidates
    /\ (filter (fun c => RVS_FLOOR <=? RegionMemory.rvs mem c) candidates <> [] ->
        first_maximum_among (RegionMemory.rvs mem)
          (fun c => 0.5 <=? RegionMemory.rvs mem c) candidates r)
    /\ (filter (fun c => RVS_FLOOR <=? RegionMemory.rvs mem c) candidates = [] ->
        first_maximum_among (RegionMemory.rvs mem)
          (fun _ => true) candidates r).
Proof.
  intros Hmem Hne.
  assert (Hnan : forall y, In y candidates -> ~ is_nan (RegionMemory.rvs mem y)).
  { intros y _. apply in_range_not_nan, rvs_in_range, Hmem. }
  unfold RegionMemory.best_region.
  change (RegionMemory.is_worthwhile mem)
    with (fun c => RVS_FLOOR <=? RegionMemory.rvs mem c).
  destruct (filter (fun c => RVS_FLOOR <=? RegionMemory.rvs mem c) candidates)
    as [|w ws] eqn:W; cbn [nonempty].
  - destruct (max_by_opt_first_max (RegionMemory.rvs mem) candidates Hne)
      as [r [E F]].
    exists r. split; [exact E | split; [eapply first_max_In; exact F |]].
    split; [congruence | intros _].
    apply first_max_filter; [exact Hnan |].
    rewrite filter_true. exact F.
  - destruct (max_by_opt_first_max (RegionMemory.rvs mem) (w :: ws))
      as [r [E F]]; [discriminate |].
    exists r. split; [exact E |].
    assert (Hin : In r (w :: ws)) by (eapply first_max_In; exact F).
    rewrite <- W in Hin, F. apply filter_In in Hin.
    split; [apply Hin | split; [intros _ | discriminate]].
    apply first_max_filter; [exact Hnan | exact F].
Qed.

(** Every known region below the floor: the best of them is still
    returned, the first of the two that tie. *)
Lemma best_region_spec_witness :
  exists r : string,
    RegionMemory.best_region exhausted_memory ["south"; "north"; "east"]
    = Some r
    /\ In r ["south"; "north"; "east"]
    /\ (filter (fun c => RVS_FLOOR <=? RegionMemory.rvs exhausted_memory c)
               ["south"; "north"; "east"] <> [] ->
        first_maximum_among (RegionMemory.rvs exhausted_memory)
          (fun c => 0.5 <=? RegionMemory.rvs exhausted_memory c)
          ["south"; "north"; "east"] r)
    /\ (filter (fun c => RVS_FLOOR <=? RegionMemory.rvs exhausted_memory c)
               ["south"; "north"; "east"] = [] ->
        first_maximum_among (RegionMemory.rvs exhausted_memory)
          (fun _ => true) ["south"; "north"; "east"] r).
Proof.
  apply best_region_spec.
  - repeat constructor.
  - discriminate.
Defined.

Example best_region_exhausted :
  RegionMemory.best_region exhausted_memory ["south"; "north"; "east"]
  = Some "south".
Proof. vm_compute. reflexivity. Qed.

(** Whatever the scores are, a non-empty candidate list yields a
    candidate. *)
Lemma best_region_returns_candidate (mem : RegionMemory.t)
    (candidates : list string) :
  candidates <> [] ->
  exists r : string,
    RegionMemory.best_region mem candidates = Some r /\ In r candidates.
Proof.
  intros Hne. unfold RegionMemory.best_region.
  destruct (filter (RegionMemory.is_worthwhile mem) candidates)
    as [|w ws] eqn:W; cbn [nonempty].
  - destruct (max_by_opt_first_max (RegionMemory.rvs mem) candidates Hne)
      as [r [E F]].
    exists r. split; [exact E | eapply first_max_In; exact F].
  - destruct (max_by_opt_first_max (RegionMemory.rvs mem) (w :: ws))
      as [r [E F]]; [discriminate |].
    exists r. split; [exact E |].
    assert (Hin : In r (w :: ws)) by (eapply first_max_In; exact F).
    rewrite <- W in Hin. apply filter_In in Hin. apply Hin.
Qed.

(* ================================================================== *)
(** * Target selection *)
(* ================================================================== *)

Lemma select_target_step_sound (gs : GameState.t) (Q : Enemy.t -> Prop)
    (acc acc' : option Enemy.t * float) (e : Enemy.t) :
  (eligible gs e -> Q e) ->
  (forall t, fst acc = Some t -> Q t) ->
  DecisionEngine._select_target_step gs acc e = Ok acc' ->
  forall t, fst acc' = Some t -> Q t.
Proof.
  intros He Hacc. unfold DecisionEngine._select_target_step.
  destruct acc as [best best_score].
  destruct (Enemy.in_zone e) eqn:Z; [intros [= <-]; exact Hacc |].
  destruct (DecisionEngine._win_prob gs e) as [wp|] eqn:W;
    cbn [rbind]; [| discriminate].
  destruct ((WIN_PROB_ENGAGE <=? wp)
            && (DecisionEngine._enemy_escape_prob e <=? ESCAPE_PROB_MAX)) eqn:C;
    [| intros [= <-]; exact Hacc].
  apply andb_prop in C. destruct C as [C1 C2].
  destruct (truediv _ _) as [score|]; cbn [rbind]; [| discriminate].
  destruct (best_score <? score); intros [= <-]; [| exact Hacc].
  cbn [fst]. intros t [= <-]. apply He.
  split; [exact Z |]. exists wp. auto.
Qed.

Lemma select_target_loop_sound (gs : GameState.t) (Q : Enemy.t -> Prop)
    (enemies : list Enemy.t) :
  forall acc acc' : option Enemy.t * float,
    (forall e, In e enemies -> eligible gs e -> Q e) ->
    (forall t, fst acc = Some t -> Q t) ->
    DecisionEngine._select_target_loop gs enemies acc = Ok acc' ->
    forall t, fst acc' = Some t -> Q t.
Proof.
  induction enemies as [|e rest IH]; intros acc acc' HQ Hacc;
    cbn [DecisionEngine._select_target_loop].
  - intros [= <-]. exact Hacc.
  - destruct (DecisionEngine._select_target_step gs acc e) as [acc1|] eqn:S;
      cbn [rbind]; [| discriminate].
    apply IH.
    + intros e' He'. apply HQ. now right.
    + apply (select_target_step_sound gs Q acc acc1 e); auto.
      apply HQ. now left.
Qed.

(** What [_select_target] returns is one of the visible enemies and passed
    the eligibility test. *)
Lemma select_target_sound (gs : GameState.t) (t : Enemy.t) :
  DecisionEngine._select_target gs = Ok (Some t) ->
  In t (GameState.enemies gs) /\ eligible gs t.
Proof.
  unfold DecisionEngine._select_target.
  destruct (DecisionEngine._select_target_loop gs _ _) as [acc|] eqn:L;
    cbn [rbind]; [| discriminate].
  intros [= H].
  apply (select_target_loop_sound gs
           (fun t => In t (GameState.enemies gs) /\ eligible gs t)
           (GameState.enemies gs) (None, 0.0) acc); auto.
  cbn [fst]. discriminate.
Qed.

Lemma scored_deterministic (gs : GameState.t) (e : Enemy.t) (s s' : float) :
  scored gs e s -> scored gs e s' -> s = s'.
Proof.
  intros [_ [wp [W [_ [_ S]]]]] [_ [wp' [W' [_ [_ S']]]]].
  rewrite W in W'. injection W' as <-. rewrite S in S'. now injection S'.
Qed.

Lemma select_target_step_inv (gs : GameState.t) (seen : list Enemy.t)
    (acc acc' : option Enemy.t * float) (e : Enemy.t) :
  select_target_inv gs seen acc ->
  DecisionEngine._select_target_step gs acc e = Ok acc' ->
  select_target_inv gs (seen ++ [e]) acc'.
Proof.
  intros Inv Hstep.
  (* an enemy that the loop passes over, or that does not beat the best *)
  assert (Keep : (forall s, scored gs e s -> (snd acc <? s) = false) ->
                 select_target_inv gs (seen ++ [e]) acc).
  { intros He. unfold select_target_inv in *.
    destruct (fst acc) as [t|].
    - destruct Inv as [St [Pos [l1 [l2 [-> [H1 H2]]]]]].
      split; [exact St | split; [exact Pos |]].
      exists l1, (l2 ++ [e]). split; [| split; [exact H1 |]].
      + rewrite <- app_assoc. reflexivity.
      + intros e' s Hin Hs. apply in_app_or in Hin.
        destruct Hin as [Hin | [<- | []]]; [eapply H2; eauto | now apply He].
    - destruct Inv as [Z H]. split; [exact Z |].
      intros e' s Hin Hs. apply in_app_or in Hin.
      destruct Hin as [Hin | [<- | []]]; [eapply H; eauto |].
      rewrite <- Z. now apply He. }
  unfold DecisionEngine._select_target_step in Hstep.
  destruct acc as [best best_score]. cbn [snd] in Keep.
  destruct (Enemy.in_zone e) eqn:Z.
  { injection Hstep as <-. apply Keep.
    intros s [Hz _]. congruence. }
  destruct (DecisionEngine._win_prob gs e) as [wp|] eqn:W;
    cbn [rbind] in Hstep; [| discriminate].
  destruct ((WIN_PROB_ENGAGE <=? wp)
            && (DecisionEngine._enemy_escape_prob e <=? ESCAPE_PROB_MAX)) eqn:C.
  2:{ injection Hstep as <-. apply Keep.
      intros s [_ [wp' [W' [C1 [C2 _]]]]].
      rewrite W in W'. injection W' as <-.
      unfold le in C1, C2. unfold WIN_PROB_ENGAGE, ESCAPE_PROB_MAX in C.
      rewrite C1, C2 in C. discriminate C. }
  apply andb_prop in C. destruct C as [C1 C2].
  fold (target_score e wp) in Hstep.
  destruct (target_score e wp) as [score|] eqn:S;
    cbn [rbind] in Hstep; [| discriminate].
  assert (Hsc : scored gs e score).
  { split; [exact Z |]. exists wp. auto. }
  destruct (best_score <? score) eqn:Better; injection Hstep as <-.
  2:{ apply Keep. intros s Hs.
      now rewrite (scored_deterministic gs e s score Hs Hsc). }
  unfold select_target_inv in *. cbn [fst snd] in *.
  destruct best as [t|].
  - destruct Inv as [St [Pos [l1 [l2 [-> [H1 H2]]]]]].
    split; [exact Hsc | split; [exact (lt_trans _ _ _ Pos Better) |]].
    exists (l1 ++ t :: l2), []. split; [reflexivity | split].
    + intros e' s Hin Hs. apply in_app_or in Hin.
      destruct Hin as [Hin | [<- | Hin]].
      * apply not_above_step with (b := best_score); [| exact Better].
        apply not_le_not_lt. eapply H1; eauto.
      * rewrite (scored_deterministic gs _ s best_score Hs St).
        apply lt_not_le. exact Better.
      * apply not_above_step with (b := best_score); [| exact Better].
        eapply H2; eauto.
    + intros e' s [].
  - destruct Inv as [-> H].
    split; [exact Hsc | split; [exact Better |]].
    exists seen, []. split; [reflexivity | split].
    + intros e' s Hin Hs.
      apply not_above_step with (b := 0.0); [| exact Better].
      eapply H; eauto.
    + intros e' s [].
Qed.

Lemma select_target_loop_inv (gs : GameState.t) (enemies : list Enemy.t) :
  forall (seen : list Enemy.t) (acc acc' : option Enemy.t * float),
    select_target_inv gs seen acc ->
    DecisionEngine._select_target_loop gs enemies acc = Ok acc' ->
    select_target_inv gs (seen ++ enemies) acc'.
Proof.
  induction enemies as [|e rest IH]; intros seen acc acc' Inv;
    cbn [DecisionEngine._select_target_loop].
  - intros [= <-]. now rewrite app_nil_r.
  - destruct (DecisionEngine._select_target_step gs acc e) as [acc1|] eqn:S;
      cbn [rbind]; [| discriminate].
    intros L.
    replace (seen ++ e :: rest) with ((seen ++ [e]) ++ rest)
      by (rewrite <- app_assoc; reflexivity).
    apply (IH _ acc1 acc'); [| exact L].
    apply (select_target_step_inv gs seen acc acc1 e Inv S).
Qed.

(** X5. What [_select_target] computes when it returns: the first
    maximum, by composite score, of the eligible enemies, provided that
    score is positive; [None] when no eligible enemy has a positive
    score. *)
Lemma select_target_spec (gs : GameState.t) (r : option Enemy.t) :
  DecisionEngine._select_target gs = Ok r ->
  match r with
  | None =>
      forall e s, In e (GameState.enemies gs) -> scored gs e s ->
                  (0 <? s) = false
  | Some t =>
      exists s l1 l2,
        scored gs t s /\ lt 0 s
        /\ GameState.enemies gs = l1 ++ t :: l2
        /\ (forall e s', In e l1 -> scored gs e s' -> (s <=? s') = false)
        /\ (forall e s', In e l2 -> scored gs e s' -> (s <? s') = false)
  end.
Proof.
  unfold DecisionEngine._select_target.
  destruct (DecisionEngine._select_target_loop gs _ _) as [acc|] eqn:L;
    cbn [rbind]; [| discriminate].
  intros [= <-].
  assert (Inv0 : select_target_inv gs [] (None, 0.0)).
  { split; [reflexivity | intros e s []]. }
  pose proof (select_target_loop_inv gs _ [] _ acc Inv0 L) as Inv.
  cbn [app] in Inv. unfold select_target_inv in Inv.
  destruct (fst acc) as [t|].
  - destruct Inv as [St [Pos [l1 [l2 [E [H1 H2]]]]]].
    exists (snd acc), l1, l2. auto.
  - exact (proj2 Inv).
Qed.

(** C3, the defect. [best_score] starts at [0.0] and only a strictly
    greater score replaces it, so an eligible enemy whose composite score is
    zero is never returned: an enemy at full health ([hp_pct = 100], the
    declared default) has score [wp * (1 - 1) / d = 0]. Here the only
    visible enemy is eligible, win probability 2/3 and escape probability
    0.35, and [_select_target] returns [None]; [decide] goes exploring. *)
Lemma select_target_full_health_enemy :
  let gs := snapshot 100 (Some (Weapon.mk "rifle" 20 1 1 "common")) []
                     Zone.default [Enemy.default "e1"] [] [] "" in
  eligible gs (Enemy.default "e1")
  /\ DecisionEngine._win_prob gs (Enemy.default "e1") = Ok (2 / 3)
  /\ DecisionEngine._enemy_escape_prob (Enemy.default "e1") = 0.35
  /\ DecisionEngine._select_target gs = Ok None
  /\ fst (DecisionEngine.decide (DecisionEngine.mk RegionMemory.init) (gs, []))
     = Ok (move_to_region "central").
Proof.
  cbv zeta. split; [| repeat split; vm_compute; reflexivity].
  split; [reflexivity |].
  exists (2 / 3). repeat split; vm_compute; reflexivity.
Qed.

(* ================================================================== *)
(** * The priority chain, rule by rule *)
(* ================================================================== *)

Ltac run_method :=
  cbv beta iota delta [bind ret lift emit modify get_self]; cbn [fst snd].

Ltac run_method_in H :=
  cbv beta iota delta [bind ret lift emit modify get_self] in H;
  cbn [fst snd] in H.

Lemma loot_or_patrol_run (gs g : GameState.t) (log : list LogRecord) :
  exists (a : Action) (l : list LogRecord),
    DecisionEngine.loot_or_patrol gs (g, log) = (Ok a, (g, log ++ l))
    /\ late_action a /\ chase_free l.
Proof.
  unfold DecisionEngine.loot_or_patrol.
  destruct (DecisionEngine._pick_loot gs) as [loot|].
  - destruct (nonempty loot); run_method.
    + eexists; eexists; split; [reflexivity |].
      split; [exact I | repeat constructor].
    + exists patrol, []. rewrite app_nil_r. repeat split. constructor.
  - run_method. exists patrol, []. rewrite app_nil_r. repeat split. constructor.
Qed.

Lemma explore_or_later_run (self : DecisionEngine.t) (g : GameState.t)
    (log : list LogRecord) :
  exists (a : Action) (l : list LogRecord),
    DecisionEngine.explore_or_later self (g, log) = (Ok a, (g, log ++ l))
    /\ late_action a /\ chase_free l.
Proof.
  unfold DecisionEngine.explore_or_later. run_method.
  destruct (DecisionEngine._choose_region self g) as [region|];
    [| apply loot_or_patrol_run].
  destruct (str_truthy region && _); [| apply loot_or_patrol_run].
  run_method. eexists; eexists; split; [reflexivity |].
  split; [exact I | repeat constructor].
Qed.

(** [set_lock] changes no field that the engine reads. *)
Lemma win_prob_set_lock (gs : GameState.t) (target : option Enemy.t)
    (id : option string) (e : Enemy.t) :
  DecisionEngine._win_prob (GameState.set_lock gs target id) e
  = DecisionEngine._win_prob gs e.
Proof. reflexivity. Qed.

Lemma heal_combat_or_later_run (self : DecisionEngine.t) (gs : GameState.t)
    (log : list LogRecord) :
  exists (res : Result Action) (gs' : GameState.t) (log' : list LogRecord),
    DecisionEngine.heal_combat_or_later self gs (gs, log) = (res, (gs', log'))
    /\ combat_outcome self gs log res gs' log'.
Proof.
  unfold DecisionEngine.heal_combat_or_later.
  destruct ((GameState.hp_pct gs <? HP_USE_HEAL) && _) eqn:Heal.
  - unfold DecisionEngine._heal_action. run_method.
    do 3 eexists. split; [reflexivity |]. now constructor.
  - run_method.
    destruct (DecisionEngine._select_target gs) as [[t|]|e] eqn:T.
    + destruct (select_target_sound gs t T) as [Hin [Hz [wp [Hwp _]]]].
      run_method. rewrite Hz. run_method.
      rewrite win_prob_set_lock, Hwp.
      do 3 eexists. split; [reflexivity |].
      now apply outcome_attack.
    + destruct (explore_or_later_run self gs log) as [a [l [E [Ha Hl]]]].
      run_method. rewrite E. do 3 eexists. split; [reflexivity |].
      now apply outcome_later.
    + do 3 eexists. split; [reflexivity |]. now constructor.
Qed.

Lemma decide_run (self : DecisionEngine.t) (gs : GameState.t)
    (log : list LogRecord) :
  exists (res : Result Action) (gs' : GameState.t) (log' : list LogRecord),
    DecisionEngine.decide self (gs, log) = (res, (gs', log'))
    /\ decide_outcome self gs log res gs' log'.
Proof.
  destruct (DecisionEngine._zone_critical gs) eqn:Zc.
  { rewrite (decide_zone_critical self gs log Zc).
    do 3 eexists. split; [reflexivity |]. now constructor. }
  destruct (critical_heal_fires gs) eqn:Ch.
  { unfold DecisionEngine.decide. run_method. rewrite Zc.
    unfold critical_heal_fires in Ch. rewrite Ch.
    unfold DecisionEngine._heal_action. run_method.
    do 3 eexists. split; [reflexivity |]. now constructor. }
  destruct (heal_combat_or_later_run self gs log)
    as [res [gs' [log' [E O]]]].
  unfold DecisionEngine.decide. run_method. rewrite Zc.
  pose proof Ch as Ch'. unfold critical_heal_fires in Ch'. rewrite Ch'.
  destruct (DecisionEngine._best_nearby_weapon gs) as [best_w|] eqn:B.
  - destruct (weapon_rule_fires gs best_w) eqn:W;
      pose proof W as W'; unfold weapon_rule_fires in W'.
    + apply andb_prop in W'. destruct W' as [W1 W2]. rewrite W1, W2.
      run_method. do 3 eexists. split; [reflexivity |].
      now apply decide_weapon.
    + exists res, gs', log'. split.
      * destruct (Weapon.is_upgrade_over _ _); [| exact E].
        cbn [andb] in W'. rewrite W'. exact E.
      * apply decide_later; [exact Zc | exact Ch | | exact O].
        intros w Hw. rewrite B in Hw. injection Hw as <-. exact W.
  - exists res, gs', log'. split; [exact E |].
    apply decide_later; [exact Zc | exact Ch | | exact O].
    intros w Hw. rewrite B in Hw. discriminate Hw.
Qed.

(** The outcome of [decide], as a fact on the value it computes. *)
Lemma decide_inv (self : DecisionEngine.t) (gs : GameState.t)
    (log : list LogRecord) (res : Result Action) (gs' : GameState.t)
    (log' : list LogRecord) :
  DecisionEngine.decide self (gs, log) = (res, (gs', log')) ->
  decide_outcome self gs log res gs' log'.
Proof.
  intros H.
  destruct (decide_run self gs log) as [res0 [gs0 [log0 [E O]]]].
  rewrite E in H. injection H as <- <- <-. exact O.
Qed.

(* ================================================================== *)
(** * Combat: no attack inside the zone *)
(* ================================================================== *)

Lemma combat_outcome_log (self : DecisionEngine.t) (gs : GameState.t)
    (log : list LogRecord) (res : Result Action) (gs' : GameState.t)
    (log' : list LogRecord) :
  combat_outcome self gs log res gs' log' ->
  exists l, log' = log ++ l /\ chase_free l.
Proof.
  intros [Heal | e He | t wp Ht Hin Hz Hwp | a l Hn Ha Hl].
  - eexists; split; [reflexivity | repeat constructor].
  - exists []. split; [now rewrite app_nil_r | constructor].
  - eexists; split; [reflexivity | repeat constructor].
  - exists l. split; [reflexivity | exact Hl].
Qed.

(** C10. A target returned by [_select_target] is a visible enemy with
    [in_zone = False]. So when [decide] returns an attack, its target is
    the selected enemy, outside the danger zone, locked on the snapshot and
    reached through the out-of-zone branch (the log record is the one of
    that branch); no run of [decide] evaluates the zone-chase commit
    test: neither of the two records that follow it is ever logged; and a
    target selected when rules 1 to 4 do not fire is attacked. *)
Theorem attack_target_outside_zone (self : DecisionEngine.t)
    (gs : GameState.t) (log : list LogRecord) :
  (forall t : Enemy.t,
     DecisionEngine._select_target gs = Ok (Some t) ->
     In t (GameState.enemies gs) /\ Enemy.in_zone t = false)
  /\ (forall (id : string) (gs' : GameState.t) (log' : list LogRecord),
        DecisionEngine.decide self (gs, log) = (Ok (attack id), (gs', log')) ->
        exists (t : Enemy.t) (wp : float),
          DecisionEngine._select_target gs = Ok (Some t)
          /\ In t (GameState.enemies gs)
          /\ Enemy.in_zone t = false
          /\ Enemy.id t = id
          /\ GameState.locked_target gs' = Some t
          /\ GameState.target_id gs' = Some id
          /\ log' = log ++ [LogAttacking id wp (Enemy.hp_pct t)])
  /\ (forall (res : Result Action) (gs' : GameState.t)
             (log' : list LogRecord),
        DecisionEngine.decide self (gs, log) = (res, (gs', log')) ->
        exists l : list LogRecord, log' = log ++ l /\ chase_free l)
  /\ (forall t : Enemy.t,
        DecisionEngine._zone_critical gs = false ->
        critical_heal_fires gs = false ->
        (forall w, DecisionEngine._best_nearby_weapon gs = Some w ->
                   weapon_rule_fires gs w = false) ->
        normal_heal_fires gs = false ->
        DecisionEngine._select_target gs = Ok (Some t) ->
        fst (DecisionEngine.decide self (gs, log)) = Ok (attack (Enemy.id t))).
Proof.
  split; [| split; [| split]].
  - intros t Ht. destruct (select_target_sound gs t Ht) as [Hin [Hz _]]. auto.
  - intros id gs' log' H. apply decide_inv in H.
    inversion H as [Zc | Zc Ch | w Zc Ch B W | res g l Zc Ch B O]; subst.
    inversion O as [Heal | e He | t wp Ht Hin Hz Hwp | a l' Hn Ha Hl]; subst.
    + exists t, wp. repeat split; auto.
    + exfalso. exact Ha.
  - intros res gs' log' H. apply decide_inv in H.
    inversion H as [Zc | Zc Ch | w Zc Ch B W | res0 g l Zc Ch B O]; subst.
    + eexists; split; [reflexivity | repeat constructor].
    + eexists; split; [reflexivity | repeat constructor].
    + eexists; split; [reflexivity | repeat constructor].
    + exact (combat_outcome_log _ _ _ _ _ _ O).
  - intros t Zc Ch Hw Hh Ht.
    destruct (decide_run self gs log) as [res [gs' [log' [E O]]]].
    rewrite E. cbn [fst].
    inversion O as [Zc' | Zc' Ch' | w Zc' Ch' B W | res0 g l Zc' Ch' B O'];
      subst; try congruence.
    + specialize (Hw w B). congruence.
    + inversion O' as [Heal | e He | t' wp Ht' Hin Hz Hwp | a l' Hn Ha Hl];
        subst; congruence.
Qed.

(** An enemy inside the zone is passed over, whatever its score; the one
    outside is attacked. *)
Lemma attack_target_outside_zone_witness :
  exists (t : Enemy.t) (wp : float),
    let gs := snapshot 100 (Some (Weapon.mk "rifle" 20 1 1 "common")) []
                Zone.default
                [Enemy.mk "inside" 5 100 10 10 true;
                 Enemy.mk "outside" 20 100 10 30 false] [] [] "" in
    DecisionEngine._select_target gs = Ok (Some t)
    /\ In t (GameState.enemies gs)
    /\ Enemy.in_zone t = false
    /\ Enemy.id t = "outside"
    /\ GameState.locked_target
         (GameState.set_lock gs
            (Some (Enemy.mk "outside" 20 100 10 30 false)) (Some "outside"))
       = Some t
    /\ GameState.target_id
         (GameState.set_lock gs
            (Some (Enemy.mk "outside" 20 100 10 30 false)) (Some "outside"))
       = Some "outside"
    /\ [LogAttacking "outside" (10 / 11) 20]
       = [] ++ [LogAttacking "outside" wp (Enemy.hp_pct t)].
Proof.
  apply (proj1 (proj2 (attack_target_outside_zone
                         (DecisionEngine.mk RegionMemory.init) _ []))).
  vm_compute. reflexivity.
Defined.

(* ================================================================== *)
(** * Weapon hunt *)
(* ================================================================== *)






Example weapon_hunt_scenario :
  fst (DecisionEngine.decide (DecisionEngine.mk RegionMemory.init)
         (snapshot 80 (Some (Weapon.mk "pistol" 10 1 1 "common")) []
                   (Zone.mk 250 999 "" true 1) [] []
                   [Weapon.mk "knife" 4 1 1 "common";
                    Weapon.mk "rifle" 13 1 1 "common"] "", []))
  = Ok (move_to_weapon "rifle").
Proof. vm_compute. reflexivity. Qed.

(* ================================================================== *)
(** * Totality of [decide] *)
(* ================================================================== *)

(** [decide] returns an action unless target selection raises; nothing
    else in the chain can raise. *)
Lemma decide_returns_or_target_selection_raises (self : DecisionEngine.t)
    (gs : GameState.t) (log : list LogRecord) :
  (exists (a : Action) (gs' : GameState.t) (log' : list LogRecord),
     DecisionEngine.decide self (gs, log) = (Ok a, (gs', log')))
  \/ (exists e : Exn,
        DecisionEngine._select_target gs = Raise e
        /\ DecisionEngine.decide self (gs, log) = (Raise e, (gs, log))).
Proof.
  destruct (decide_run self gs log) as [[a|e] [gs' [log' [E O]]]].
  - left. exists a, gs', log'. exact E.
  - right. exists e.
    inversion O as [Zc | Zc Ch | w Zc Ch B W | r g l Zc Ch B O']; subst.
    inversion O' as [Heal | e' He | t wp Ht Hin Hz Hwp | a l' Hn Ha Hl];
      subst. split; [exact He | exact E].
Qed.

(** With no visible enemy, and whatever the other lists and the held
    weapon are, [decide] returns an action. *)
Lemma decide_returns_without_enemies (self : DecisionEngine.t)
    (gs : GameState.t) (log : list LogRecord) :
  GameState.enemies gs = [] ->
  exists (a : Action) (gs' : GameState.t) (log' : list LogRecord),
    DecisionEngine.decide self (gs, log) = (Ok a, (gs', log')).
Proof.
  intros He.
  destruct (decide_returns_or_target_selection_raises self gs log)
    as [H | [e [T _]]]; [exact H |].
  unfold DecisionEngine._select_target in T. rewrite He in T.
  discriminate T.
Qed.

(** Nothing to do: the fresh snapshot in the region that the fresh memory
    ranks first patrols. *)
Example decide_patrol :
  fst (DecisionEngine.decide (DecisionEngine.mk RegionMemory.init)
         (snapshot 100 None [] Zone.default [] [] [] "central", []))
  = Ok patrol.
Proof. vm_compute. reflexivity. Qed.

(** C5, the defect. [_win_prob] divides by [raw + 1.0], which is zero when
    the strength ratio [raw] is [-1.0]; the clamp [max(0.0, ...)] around the
    quotient provides for a negative ratio, the division does not. A held
    weapon of [dps] -5 against an enemy with 50 hit points at distance 50
    gives [raw = -500 / 500], and [decide] raises [ZeroDivisionError]
    instead of returning an action. *)
Theorem decide_raises_on_ratio_minus_one :
  let gs := snapshot 100 (Some (Weapon.mk "cursed" (-5) 1 1 "common")) []
              Zone.default [Enemy.mk "e1" 50 100 10 50 false] [] [] "" in
  DecisionEngine._win_prob gs (Enemy.mk "e1" 50 100 10 50 false)
  = Raise ZeroDivisionError
  /\ DecisionEngine.decide (DecisionEngine.mk RegionMemory.init) (gs, [])
     = (Raise ZeroDivisionError, (gs, [])).
Proof. cbv zeta. split; vm_compute; reflexivity. Qed.

(* ================================================================== *)
(** * Further facts on binary64 comparison *)
(* ================================================================== *)

Lemma float_lt_le_trans (x y z : float) : lt x y -> le y z -> lt x z.
Proof. float_order. Qed.

Lemma float_le_lt_trans (x y z : float) : le x y -> lt y z -> lt x z.
Proof. float_order. Qed.

Lemma float_lt_asym (x y : float) : lt x y -> (y <? x) = false.
Proof. float_order. Qed.

(** The clamp of [_win_prob]. *)
Lemma clamp_unit (q : float) :
  le 0.0 (min 1.0 (max 0.0 q)) /\ le (min 1.0 (max 0.0 q)) 1.0.
Proof.
  unfold min, max.
  destruct (0.0 <? q) eqn:H0.
  - destruct (q <? 1.0) eqn:H1.
    + split; apply lt_le; assumption.
    + split; reflexivity.
  - split; reflexivity.
Qed.

(* ================================================================== *)
(** * Win and escape probabilities *)
(* ================================================================== *)

(** X1. Whenever [_win_prob] returns, what it returns is a probability: it
    lies in [[0.0, 1.0]] (so it is not a NaN), whatever the fields of the
    snapshot and of the enemy are, NaN and infinities included. *)
Theorem win_prob_is_probability (gs : GameState.t) (e : Enemy.t) (wp : float) :
  DecisionEngine._win_prob gs e = Ok wp ->
  le 0.0 wp /\ le wp 1.0.
Proof.
  unfold DecisionEngine._win_prob.
  destruct (truediv _ _) as [raw|]; cbn [rbind]; [| discriminate].
  destruct (truediv raw _) as [q|]; cbn [rbind]; [| discriminate].
  intros [= <-]. apply clamp_unit.
Qed.

Lemma win_prob_is_probability_witness :
  le 0.0 (10 / 11) /\ le (10 / 11) 1.0.
Proof.
  apply (win_prob_is_probability
           (snapshot 100 (Some (Weapon.mk "rifle" 20 1 1 "common")) []
                     Zone.default [] [] [] "")
           (Enemy.mk "e" 20 100 10 30 false)).
  vm_compute. reflexivity.
Defined.

(** The escape test of target selection, by cases. *)
Lemma escape_test_iff (e : Enemy.t) :
  (DecisionEngine._enemy_escape_prob e <=? ESCAPE_PROB_MAX)
  = (Enemy.hp_pct e <? 25) || negb (100 <? Enemy.distance e).
Proof.
  unfold DecisionEngine._enemy_escape_prob.
  destruct (Enemy.hp_pct e <? 25); [reflexivity |].
  destruct (100 <? Enemy.distance e); reflexivity.
Qed.

(** X2. [_select_target] never returns an enemy that can get away: the
    enemy it returns is below 25% health or not farther than 100, is
    outside the zone, and the win probability against it is at least 0.60
    (and at most 1). *)
Theorem selected_target_cannot_escape (gs : GameState.t) (t : Enemy.t) :
  DecisionEngine._select_target gs = Ok (Some t) ->
  Enemy.in_zone t = false
  /\ (lt (Enemy.hp_pct t) 25 \/ (100 <? Enemy.distance t) = false)
  /\ exists wp : float,
       DecisionEngine._win_prob gs t = Ok wp /\ le 0.60 wp /\ le wp 1.0.
Proof.
  intros H.
  destruct (select_target_sound gs t H) as [_ [Hz [wp [Hwp [Hw He]]]]].
  split; [exact Hz | split].
  - unfold le in He.
    change 0.40 with ESCAPE_PROB_MAX in He.
    rewrite escape_test_iff in He.
    destruct (Enemy.hp_pct t <? 25) eqn:Hp; [now left | right].
    cbn [orb] in He. now destruct (100 <? Enemy.distance t).
  - exists wp. split; [exact Hwp | split; [exact Hw |]].
    unfold DecisionEngine._win_prob in Hwp.
    destruct (truediv _ _) as [raw|]; cbn [rbind] in Hwp; [| discriminate].
    destruct (truediv raw _) as [q|]; cbn [rbind] in Hwp; [| discriminate].
    injection Hwp as <-. apply clamp_unit.
Qed.

Lemma selected_target_cannot_escape_witness :
  Enemy.in_zone (Enemy.mk "far" 20 100 10 150 false) = false
  /\ (lt (Enemy.hp_pct (Enemy.mk "far" 20 100 10 150 false)) 25
      \/ (100 <? Enemy.distance (Enemy.mk "far" 20 100 10 150 false)) = false)
  /\ exists wp : float,
       DecisionEngine._win_prob
         (snapshot 100 (Some (Weapon.mk "rifle" 20 1 1 "common")) []
            Zone.default
            [Enemy.mk "healthy" 60 100 10 150 false;
             Enemy.mk "far" 20 100 10 150 false] [] [] "")
         (Enemy.mk "far" 20 100 10 150 false) = Ok wp
       /\ le 0.60 wp /\ le wp 1.0.
Proof.
  exact (selected_target_cannot_escape
           (snapshot 100 (Some (Weapon.mk "rifle" 20 1 1 "common")) []
              Zone.default
              [Enemy.mk "healthy" 60 100 10 150 false;
               Enemy.mk "far" 20 100 10 150 false] [] [] "")
           (Enemy.mk "far" 20 100 10 150 false) eq_refl).
Defined.

(* ================================================================== *)
(** * The safety tests of the weapon hunt *)
(* ================================================================== *)

Lemma safe_path_min_iff (gs : GameState.t) :
  (SAFE_PATH_MIN <=? DecisionEngine._safe_path_prob gs)
  = (100 <? Zone.distance (GameState.zone gs)).
Proof.
  unfold DecisionEngine._safe_path_prob.
  destruct (200 <? Zone.distance (GameState.zone gs)) eqn:H200.
  - rewrite (lt_trans 100 200 _ eq_refl H200). reflexivity.
  - destruct (100 <? Zone.distance (GameState.zone gs)); [reflexivity |].
    destruct (50 <? Zone.distance (GameState.zone gs)); reflexivity.
Qed.

(** X3. The two safety tests of rule 3 hold together exactly when
    [zone.distance > 100]: a path-safety estimate of at least 0.65 already
    excludes [zone.distance < 40], so the imminent-shrink test
    [_weapon_in_zone_trajectory] never changes the outcome. *)
Theorem weapon_safety_tests_iff (gs : GameState.t) :
  (SAFE_PATH_MIN <=? DecisionEngine._safe_path_prob gs)
  && negb (DecisionEngine._weapon_in_zone_trajectory gs)
  = (100 <? Zone.distance (GameState.zone gs)).
Proof.
  rewrite safe_path_min_iff.
  unfold DecisionEngine._weapon_in_zone_trajectory.
  destruct (100 <? Zone.distance (GameState.zone gs)) eqn:H100;
    [| reflexivity].
  destruct (Zone.distance (GameState.zone gs) <? 40) eqn:H40;
    [| reflexivity].
  pose proof (lt_trans _ _ _ H40 (eq_refl : lt 40 100)) as C.
  rewrite (float_lt_asym _ _ C) in H100. discriminate H100.
Qed.

(** X4. Both step functions of [zone.distance] are monotone: a snapshot
    that is at least as far from the boundary gets a path-safety estimate
    and a self-escape estimate that are at least as high. *)
Theorem zone_estimates_monotone (gs1 gs2 : GameState.t) :
  le (Zone.distance (GameState.zone gs1)) (Zone.distance (GameState.zone gs2)) ->
  le (DecisionEngine._safe_path_prob gs1) (DecisionEngine._safe_path_prob gs2)
  /\ le (DecisionEngine._self_escape_prob gs1)
        (DecisionEngine._self_escape_prob gs2).
Proof.
  intros H.
  unfold DecisionEngine._safe_path_prob, DecisionEngine._self_escape_prob.
  set (d1 := Zone.distance (GameState.zone gs1)) in *.
  set (d2 := Zone.distance (GameState.zone gs2)) in *.
  assert (Up : forall c, (c <? d1) = true -> (c <? d2) = true).
  { intros c Hc. exact (float_lt_le_trans _ _ _ Hc H). }
  assert (Down : forall c, (d2 <? c) = true -> (d1 <? c) = true).
  { intros c Hc. exact (float_le_lt_trans _ _ _ H Hc). }
  split.
  - destruct (200 <? d1) eqn:A1; [rewrite (Up _ A1); reflexivity |].
    destruct (100 <? d1) eqn:B1.
    { rewrite (Up _ B1). destruct (200 <? d2); reflexivity. }
    destruct (50 <? d1) eqn:C1.
    { rewrite (Up _ C1). destruct (200 <? d2); [reflexivity |].
      destruct (100 <? d2); reflexivity. }
    destruct (200 <? d2); [reflexivity |].
    destruct (100 <? d2); [reflexivity |].
    destruct (50 <? d2); reflexivity.
  - destruct (d2 <? 20) eqn:A2; [rewrite (Down _ A2); reflexivity |].
    destruct (d2 <? 60) eqn:B2.
    { rewrite (Down _ B2). destruct (d1 <? 20); reflexivity. }
    destruct (d1 <? 20); [reflexivity |].
    destruct (d1 <? 60); reflexivity.
Qed.

Lemma zone_estimates_monotone_witness :
  le (DecisionEngine._safe_path_prob
        (snapshot 100 None [] (Zone.mk 60 999 "" true 1) [] [] [] ""))
     (DecisionEngine._safe_path_prob
        (snapshot 100 None [] (Zone.mk 150 999 "" true 1) [] [] [] ""))
  /\ le (DecisionEngine._self_escape_prob
           (snapshot 100 None [] (Zone.mk 60 999 "" true 1) [] [] [] ""))
        (DecisionEngine._self_escape_prob
           (snapshot 100 None [] (Zone.mk 150 999 "" true 1) [] [] [] "")).
Proof.
  apply zone_estimates_monotone. reflexivity.
Defined.

(* ================================================================== *)
(** * Target selection and the zone *)
(* ================================================================== *)

Lemma select_target_loop_outside_zone (gs : GameState.t)
    (enemies : list Enemy.t) (l : list Enemy.t) :
  forall acc : option Enemy.t * float,
    DecisionEngine._select_target_loop (with_enemies gs l)
      (filter outside_zone enemies) acc
    = DecisionEngine._select_target_loop gs enemies acc.
Proof.
  induction enemies as [|e rest IH]; intros acc; [reflexivity |].
  cbn [filter DecisionEngine._select_target_loop].
  unfold outside_zone at 1.
  destruct (Enemy.in_zone e) eqn:Z; cbn [negb].
  - unfold DecisionEngine._select_target_step at 1.
    destruct acc as [best best_score]. rewrite Z. cbn [rbind]. apply IH.
  - cbn [DecisionEngine._select_target_loop].
    change (DecisionEngine._select_target_step (with_enemies gs l) acc e)
      with (DecisionEngine._select_target_step gs acc e).
    destruct (DecisionEngine._select_target_step gs acc e) as [acc1|];
      cbn [rbind]; [apply IH | reflexivity].
Qed.

(** Enemies inside the danger zone are invisible to target selection:
    removing them from the snapshot changes neither what [_select_target]
    returns nor whether it raises. *)
Lemma select_target_outside_zone (gs : GameState.t) :
  DecisionEngine._select_target
    (with_enemies gs (filter outside_zone (GameState.enemies gs)))
  = DecisionEngine._select_target gs.
Proof.
  unfold DecisionEngine._select_target.
  change (GameState.enemies (with_enemies gs ?l)) with l.
  now rewrite select_target_loop_outside_zone.
Qed.

(** The divisor of the composite score, [max(enemy.distance, 1)], is never
    zero. *)
Lemma max_one_nonzero (d : float) : (max d 1 =? 0) = false.
Proof.
  unfold max. destruct (d <? 1) eqn:H; [reflexivity |].
  rewrite ltb_spec in H. rewrite eqb_spec.
  unfold SFltb, SFeqb in *.
  change (Prim2SF 0) with (S754_zero false).
  change (Prim2SF 1) with (S754_finite false 4503599627370496 (-52)) in H.
  destruct (Prim2SF d) as [s|s| |s m e]; cbn [SFcompare] in *;
    try destruct s; try reflexivity; discriminate H.
Qed.

Lemma truediv_raises (x y : float) (e : Exn) :
  truediv x y = Raise e -> e = ZeroDivisionError.
Proof. unfold truediv. destruct (y =? 0); congruence. Qed.

Lemma win_prob_raises_zero_division (gs : GameState.t) (e : Enemy.t)
    (x : Exn) :
  DecisionEngine._win_prob gs e = Raise x -> x = ZeroDivisionError.
Proof.
  unfold DecisionEngine._win_prob.
  destruct (truediv _ _) as [raw|x1] eqn:D1; cbn [rbind].
  - destruct (truediv raw _) as [q|x2] eqn:D2; cbn [rbind]; [discriminate |].
    intros [= <-]. exact (truediv_raises _ _ _ D2).
  - intros [= <-]. exact (truediv_raises _ _ _ D1).
Qed.

Lemma select_target_step_raises (gs : GameState.t)
    (acc : option Enemy.t * float) (e : Enemy.t) (x : Exn) :
  DecisionEngine._select_target_step gs acc e = Raise x ->
  Enemy.in_zone e = false /\ DecisionEngine._win_prob gs e = Raise x.
Proof.
  unfold DecisionEngine._select_target_step.
  destruct acc as [best best_score].
  destruct (Enemy.in_zone e); [discriminate |].
  destruct (DecisionEngine._win_prob gs e) as [wp|x'];
    cbn [rbind]; [| intros [= <-]; auto].
  destruct (_ && _); [| discriminate].
  unfold truediv. rewrite max_one_nonzero. cbn [rbind].
  destruct (_ <? _); discriminate.
Qed.

Lemma select_target_loop_raises (gs : GameState.t) (enemies : list Enemy.t)
    (x : Exn) :
  forall acc : option Enemy.t * float,
    DecisionEngine._select_target_loop gs enemies acc = Raise x ->
    exists e, In e enemies /\ Enemy.in_zone e = false
              /\ DecisionEngine._win_prob gs e = Raise x.
Proof.
  induction enemies as [|e rest IH]; intros acc;
    cbn [DecisionEngine._select_target_loop]; [discriminate |].
  destruct (DecisionEngine._select_target_step gs acc e) as [acc1|x'] eqn:S;
    cbn [rbind].
  - intros H. destruct (IH _ H) as [e' [Hin He']].
    exists e'. split; [now right | exact He'].
  - intros [= <-]. exists e. split; [now left |].
    exact (select_target_step_raises gs acc e x' S).
Qed.

(** X7. [decide] changes the snapshot only when it returns an attack, and
    then only sets the two lock fields: [locked_target] becomes the enemy
    that [_select_target] returned, a visible enemy, and [target_id] its
    id, the id the action carries. With any other outcome the snapshot, a
    lock left by an earlier call included, is as it was. *)
Theorem decide_mutates_only_lock (self : DecisionEngine.t)
    (gs : GameState.t) (log : list LogRecord) (res : Result Action)
    (gs' : GameState.t) (log' : list LogRecord) :
  DecisionEngine.decide self (gs, log) = (res, (gs', log')) ->
  match res with
  | Ok (attack id) =>
      exists t : Enemy.t,
        DecisionEngine._select_target gs = Ok (Some t)
        /\ In t (GameState.enemies gs) /\ Enemy.id t = id
        /\ gs' = GameState.set_lock gs (Some t) (Some id)
        /\ GameState.locked_target gs' = Some t
        /\ GameState.target_id gs' = Some id
  | _ => gs' = gs
  end.
Proof.
  intros H. apply decide_inv in H.
  inversion H as [Zc | Zc Ch | w Zc Ch B W | res0 g l Zc Ch B O]; subst;
    try reflexivity.
  inversion O as [Heal | x He | t wp Ht Hin Hz Hwp | a l' Hn Ha Hl]; subst;
    try reflexivity.
  - exists t. repeat split; auto.
  - destruct a; try reflexivity; contradiction.
Qed.

(** An attack: of two visible enemies the second is selected, and the
    snapshot comes back locked on it, a lock left on the first enemy by an
    earlier call being replaced. *)
Lemma decide_mutates_only_lock_witness :
  let first := Enemy.mk "e1" 100 100 10 50 false in
  let second := Enemy.mk "e2" 20 100 10 30 false in
  let gs := GameState.set_lock
              (snapshot 100 (Some (Weapon.mk "rifle" 20 1 1 "common")) []
                        Zone.default [first; second] [] [] "")
              (Some first) (Some "e1") in
  let gs' := fst (snd (DecisionEngine.decide
                         (DecisionEngine.mk RegionMemory.init) (gs, []))) in
  exists t : Enemy.t,
    DecisionEngine._select_target gs = Ok (Some t)
    /\ In t (GameState.enemies gs) /\ Enemy.id t = "e2"
    /\ gs' = GameState.set_lock gs (Some t) (Some "e2")
    /\ GameState.locked_target gs' = Some t
    /\ GameState.target_id gs' = Some "e2".
Proof.
  cbv zeta.
  apply (decide_mutates_only_lock (DecisionEngine.mk RegionMemory.init)
           _ [] (Ok (attack "e2")) _
           (snd (snd (DecisionEngine.decide
                        (DecisionEngine.mk RegionMemory.init)
                        (GameState.set_lock
                           (snapshot 100
                              (Some (Weapon.mk "rifle" 20 1 1 "common")) []
                              Zone.default
                              [Enemy.mk "e1" 100 100 10 50 false;
                               Enemy.mk "e2" 20 100 10 30 false] [] [] "")
                           (Some (Enemy.mk "e1" 100 100 10 50 false))
                           (Some "e1"), []))))).
  vm_compute. reflexivity.
Defined.

(* ================================================================== *)
(** * Heal items *)
(* ================================================================== *)

Lemma find_split {A : Type} (f : A -> bool) (l : list A) (x : A) :
  find f l = Some x ->
  exists l1 l2,
    l = l1 ++ x :: l2 /\ f x = true /\ (forall y, In y l1 -> f y = false).
Proof.
  induction l as [|a l IH]; cbn [find]; [discriminate |].
  destruct (f a) eqn:Fa.
  - intros [= <-]. exists [], l. repeat split; auto. intros y [].
  - intros H. destruct (IH H) as [l1 [l2 [-> [Fx Hl1]]]].
    exists (a :: l1), l2. repeat split; auto.
    intros y [<- | Hy]; auto.
Qed.

Lemma best_heal_some (gs : GameState.t) (item : string) :
  GameState.best_heal gs = Some item ->
  In item HEAL_PRIORITY /\ (0 < held gs item)%Z.
Proof.
  unfold GameState.best_heal. intros H.
  apply find_some in H. destruct H as [Hin Hpos].
  split; [exact Hin |]. unfold held. now apply Z.ltb_lt.
Qed.

Lemma heal_priority_nonempty_names (item : string) :
  In item HEAL_PRIORITY -> str_truthy item = true.
Proof.
  cbn [HEAL_PRIORITY In].
  intros [<- | [<- | [<- | [<- | [<- | []]]]]]; reflexivity.
Qed.

Lemma best_heal_truthy (gs : GameState.t) :
  opt_truthy (GameState.best_heal gs) = true ->
  exists item, GameState.best_heal gs = Some item.
Proof.
  destruct (GameState.best_heal gs) as [item|]; [eauto | discriminate].
Qed.

(** X8. [best_heal] is the first item of the priority order
    [mega_shield, large_medkit, medkit, bandage, small_heal] held with a
    positive count: every item ranked before it is not held; it is [None]
    exactly when no heal item is held. Its truth value in a condition is
    then that of being present. *)
Theorem best_heal_spec (gs : GameState.t) :
  match GameState.best_heal gs with
  | Some item =>
      (exists l1 l2,
         HEAL_PRIORITY = l1 ++ item :: l2
         /\ (forall i, In i l1 -> (held gs i <= 0)%Z))
      /\ (0 < held gs item)%Z
      /\ opt_truthy (GameState.best_heal gs) = true
  | None =>
      (forall i, In i HEAL_PRIORITY -> (held gs i <= 0)%Z)
      /\ opt_truthy (GameState.best_heal gs) = false
  end.
Proof.
  destruct (GameState.best_heal gs) as [item|] eqn:B.
  - destruct (best_heal_some gs item B) as [Hin Hpos].
    unfold GameState.best_heal in B.
    destruct (find_split _ _ _ B) as [l1 [l2 [E [_ Hl1]]]].
    split; [| split; [exact Hpos |]].
    + exists l1, l2. split; [exact E |].
      intros i Hi. specialize (Hl1 i Hi). unfold held.
      now apply Z.ltb_ge.
    + rewrite <- B. unfold GameState.best_heal. rewrite B.
      cbn [opt_truthy]. now apply heal_priority_nonempty_names.
  - split; [| reflexivity].
    intros i Hi. unfold GameState.best_heal in B.
    pose proof (find_none _ _ B i Hi) as H. unfold held.
    now apply Z.ltb_ge.
Qed.

(* ================================================================== *)
(** * The decision table *)
(* ================================================================== *)

Lemma loot_or_patrol_action (gs g : GameState.t) (log : list LogRecord) :
  fst (DecisionEngine.loot_or_patrol gs (g, log))
  = match loot_target gs with
    | Some loot => Ok (pick_loot (get loot "id"))
    | None => Ok patrol
    end.
Proof.
  unfold DecisionEngine.loot_or_patrol, loot_target.
  destruct (DecisionEngine._pick_loot gs) as [loot|]; [| reflexivity].
  destruct (nonempty loot); reflexivity.
Qed.

Lemma explore_or_later_action (self : DecisionEngine.t) (g : GameState.t)
    (log : list LogRecord) :
  fst (DecisionEngine.explore_or_later self (g, log)) = explore_table self g.
Proof.
  unfold DecisionEngine.explore_or_later, explore_table, explore_target.
  run_method.
  destruct (DecisionEngine._choose_region self g) as [region|];
    [| apply loot_or_patrol_action].
  destruct (str_truthy region && _); [reflexivity |].
  apply loot_or_patrol_action.
Qed.

Lemma heal_combat_or_later_action (self : DecisionEngine.t)
    (gs : GameState.t) (log : list LogRecord) :
  fst (DecisionEngine.heal_combat_or_later self gs (gs, log))
  = combat_table self gs.
Proof.
  unfold DecisionEngine.heal_combat_or_later, combat_table, normal_heal_fires.
  destruct ((GameState.hp_pct gs <? HP_USE_HEAL) && _); [reflexivity |].
  run_method.
  destruct (DecisionEngine._select_target gs) as [[t|]|e] eqn:T.
  - destruct (select_target_sound gs t T) as [Hin [Hz [wp [Hwp _]]]].
    run_method. rewrite Hz. run_method.
    rewrite win_prob_set_lock, Hwp. reflexivity.
  - run_method. apply explore_or_later_action.
  - reflexivity.
Qed.

(** The action of [decide] is the one of the decision table; it depends on
    the engine's memory and on the snapshot, not on the log. *)
Lemma decide_action (self : DecisionEngine.t) (gs : GameState.t)
    (log : list LogRecord) :
  fst (DecisionEngine.decide self (gs, log)) = decide_table self gs.
Proof.
  unfold DecisionEngine.decide, decide_table, hunt_target.
  run_method.
  destruct (DecisionEngine._zone_critical gs); [reflexivity |].
  unfold critical_heal_fires.
  destruct ((GameState.hp_pct gs <? HP_DISENGAGE) && _); [reflexivity |].
  destruct (DecisionEngine._best_nearby_weapon gs) as [w|];
    [| apply heal_combat_or_later_action].
  unfold weapon_rule_fires.
  destruct (Weapon.is_upgrade_over w (GameState.weapon gs)); cbn [andb];
    [| apply heal_combat_or_later_action].
  destruct ((SAFE_PATH_MIN <=? _) && _); [reflexivity |].
  apply heal_combat_or_later_action.
Qed.

Ltac table_case H :=
  match type of H with
  | context [if ?b then _ else _] => destruct b eqn:?
  | context [match ?x with _ => _ end] => destruct x eqn:?
  end.

Lemma heal_test_sound (gs : GameState.t) (limit : float) :
  (GameState.hp_pct gs <? limit) && opt_truthy (GameState.best_heal gs) = true ->
  exists item : string,
    GameState.best_heal gs = Some item
    /\ In item HEAL_PRIORITY /\ (0 < held gs item)%Z
    /\ lt (GameState.hp_pct gs) limit.
Proof.
  intros H. apply andb_prop in H. destruct H as [Hlt Ht].
  destruct (best_heal_truthy gs Ht) as [item B].
  destruct (best_heal_some gs item B) as [Hin Hpos].
  exists item. auto.
Qed.

(** X9. A heal that [decide] orders is always a heal item the agent holds:
    [use_item] carries [best_heal], never a missing item, and is only
    returned below 60% health; the heal bundled into [escape_zone] is
    likewise held, and only bundled below 30% health. *)
Theorem decide_heals_with_held_item (self : DecisionEngine.t)
    (gs : GameState.t) (log : list LogRecord) :
  (forall it : option string,
     fst (DecisionEngine.decide self (gs, log)) = Ok (use_item it) ->
     exists item : string,
       it = Some item /\ GameState.best_heal gs = Some item
       /\ In item HEAL_PRIORITY /\ (0 < held gs item)%Z
       /\ lt (GameState.hp_pct gs) 60)
  /\ (forall (direction priority item : string),
        fst (DecisionEngine.decide self (gs, log))
        = Ok (escape_zone direction priority (Some item)) ->
        GameState.best_heal gs = Some item
        /\ In item HEAL_PRIORITY /\ (0 < held gs item)%Z
        /\ lt (GameState.hp_pct gs) 30).
Proof.
  rewrite decide_action. split.
  - intros it H.
    unfold decide_table, combat_table, explore_table, zone_escape_result in H.
    repeat table_case H; try discriminate H; injection H as <-.
    + match goal with
      | C : critical_heal_fires gs = true |- _ =>
          destruct (heal_test_sound gs _ C) as [item [B [Hin [Hpos Hlt]]]]
      end.
      exists item. repeat split; auto.
      exact (lt_trans _ _ _ Hlt (eq_refl : lt 35 60)).
    + match goal with
      | C : normal_heal_fires gs = true |- _ =>
          destruct (heal_test_sound gs _ C) as [item [B [Hin [Hpos Hlt]]]]
      end.
      exists item. repeat split; auto.
  - intros direction priority item H.
    unfold decide_table, combat_table, explore_table in H.
    destruct (DecisionEngine._zone_critical gs).
    + unfold zone_escape_result in H. injection H as _ _ Hu.
      destruct ((GameState.hp_pct gs <? 30) && _) eqn:C; [| discriminate].
      destruct (heal_test_sound gs _ C) as [item' [B [Hin [Hpos Hlt]]]].
      rewrite B in Hu. injection Hu as <-. auto.
    + repeat table_case H; discriminate H.
Qed.

(** X10. [decide] returns [use_item] exactly when the zone rule does not
    fire and either health is below 35% with a heal item held, or health is
    below 60% with a heal item held and the weapon hunt does not fire: a
    weapon worth hunting delays the normal heal, never the critical one. *)
Theorem decide_heals_iff (self : DecisionEngine.t) (gs : GameState.t)
    (log : list LogRecord) :
  (exists it : option string,
     fst (DecisionEngine.decide self (gs, log)) = Ok (use_item it))
  <-> DecisionEngine._zone_critical gs = false
      /\ (critical_heal_fires gs = true
          \/ (normal_heal_fires gs = true
              /\ forall w, DecisionEngine._best_nearby_weapon gs = Some w ->
                           weapon_rule_fires gs w = false)).
Proof.
  rewrite decide_action.
  unfold decide_table, hunt_target, combat_table, explore_table,
    zone_escape_result.
  destruct (DecisionEngine._zone_critical gs).
  { split; [intros [it H]; discriminate H | intros [H _]; discriminate H]. }
  destruct (critical_heal_fires gs).
  { split; [auto | eauto]. }
  destruct (DecisionEngine._best_nearby_weapon gs) as [w|].
  - destruct (weapon_rule_fires gs w) eqn:W.
    + split; [intros [it H]; discriminate H |].
      intros [_ [H | [_ H]]]; [discriminate H |].
      specialize (H w eq_refl). congruence.
    + destruct (normal_heal_fires gs).
      * split; [intros _ | eauto].
        split; [reflexivity | right; split; [reflexivity |]].
        now intros w' [= <-].
      * split; [| intros [_ [H | [H _]]]; discriminate H].
        intros [it H]. repeat table_case H; discriminate H.
  - destruct (normal_heal_fires gs).
    + split; [intros _ | eauto].
      split; [reflexivity | right; split; [reflexivity | discriminate]].
    + split; [| intros [_ [H | [H _]]]; discriminate H].
      intros [it H]. repeat table_case H; discriminate H.
Qed.

(* ================================================================== *)
(** * The division that can fail *)
(* ================================================================== *)

Lemma select_target_step_raises_conv (gs : GameState.t)
    (acc : option Enemy.t * float) (e : Enemy.t) (x : Exn) :
  Enemy.in_zone e = false ->
  DecisionEngine._win_prob gs e = Raise x ->
  DecisionEngine._select_target_step gs acc e = Raise x.
Proof.
  intros Hz Hw. unfold DecisionEngine._select_target_step.
  destruct acc as [best best_score]. rewrite Hz, Hw. reflexivity.
Qed.

Lemma select_target_loop_raises_conv (gs : GameState.t)
    (enemies : list Enemy.t) (e : Enemy.t) :
  In e enemies ->
  Enemy.in_zone e = false ->
  DecisionEngine._win_prob gs e = Raise ZeroDivisionError ->
  forall acc : option Enemy.t * float,
    DecisionEngine._select_target_loop gs enemies acc
    = Raise ZeroDivisionError.
Proof.
  intros Hin Hz Hw.
  induction enemies as [|e' rest IH]; [destruct Hin |]. intros acc.
  cbn [DecisionEngine._select_target_loop].
  destruct (DecisionEngine._select_target_step gs acc e') as [acc1|x] eqn:S;
    cbn [rbind].
  - destruct Hin as [-> | Hin]; [| exact (IH Hin acc1)].
    rewrite (select_target_step_raises_conv gs acc e _ Hz Hw) in S.
    discriminate S.
  - destruct (select_target_step_raises gs acc e' x S) as [_ Hx].
    now rewrite (win_prob_raises_zero_division gs e' x Hx).
Qed.

Lemma select_target_raises_iff (gs : GameState.t) :
  DecisionEngine._select_target gs = Raise ZeroDivisionError
  <-> exists e : Enemy.t,
        In e (GameState.enemies gs) /\ Enemy.in_zone e = false
        /\ DecisionEngine._win_prob gs e = Raise ZeroDivisionError.
Proof.
  unfold DecisionEngine._select_target. split.
  - destruct (DecisionEngine._select_target_loop _ _ _) as [acc|x] eqn:L;
      cbn [rbind]; [discriminate |].
    intros [= ->]. exact (select_target_loop_raises _ _ _ _ L).
  - intros [e [Hin [Hz Hw]]].
    now rewrite (select_target_loop_raises_conv gs _ e Hin Hz Hw).
Qed.

(** X6. On a snapshot whose fields hold values of their declared types,
    [decide] raises [ZeroDivisionError] exactly when none of the zone,
    critical-heal, weapon and normal-heal rules fires and the win
    probability of some visible enemy outside the zone raises it: every
    other division of the chain is guarded. A call that raises leaves the
    snapshot and the log as they were. *)
Theorem decide_zero_division_iff (self : DecisionEngine.t)
    (gs : GameState.t) (log : list LogRecord) :
  (fst (DecisionEngine.decide self (gs, log)) = Raise ZeroDivisionError
   <-> DecisionEngine._zone_critical gs = false
       /\ critical_heal_fires gs = false
       /\ (forall w, DecisionEngine._best_nearby_weapon gs = Some w ->
                     weapon_rule_fires gs w = false)
       /\ normal_heal_fires gs = false
       /\ exists e : Enemy.t,
            In e (GameState.enemies gs) /\ Enemy.in_zone e = false
            /\ DecisionEngine._win_prob gs e = Raise ZeroDivisionError)
  /\ (forall (x : Exn) (gs' : GameState.t) (log' : list LogRecord),
        DecisionEngine.decide self (gs, log) = (Raise x, (gs', log')) ->
        gs' = gs /\ log' = log).
Proof.
  split.
  - rewrite decide_action, <- select_target_raises_iff.
    unfold decide_table, hunt_target, combat_table, explore_table.
    destruct (DecisionEngine._zone_critical gs).
    { split; [discriminate | intros [H _]; discriminate H]. }
    destruct (critical_heal_fires gs).
    { split; [discriminate | intros [_ [H _]]; discriminate H]. }
    assert (Combat :
      (if normal_heal_fires gs
       then Ok (use_item (GameState.best_heal gs))
       else match DecisionEngine._select_target gs with
            | Ok (Some t) => Ok (attack (Enemy.id t))
            | Ok None =>
                match explore_target self gs with
                | Some region => Ok (move_to_region region)
                | None =>
                    match loot_target gs with
                    | Some loot => Ok (pick_loot (get loot "id"))
                    | None => Ok patrol
                    end
                end
            | Raise e => Raise e
            end) = Raise ZeroDivisionError
      <-> normal_heal_fires gs = false
          /\ DecisionEngine._select_target gs = Raise ZeroDivisionError).
    { destruct (normal_heal_fires gs).
      - split; [discriminate | intros [H _]; discriminate H].
      - destruct (DecisionEngine._select_target gs) as [[t|]|x].
        + split; [discriminate | intros [_ H]; discriminate H].
        + split; [| intros [_ H]; discriminate H].
          intros H. repeat table_case H; discriminate H.
        + split; [intros [= ->]; auto | intros [_ [= ->]]; reflexivity]. }
    destruct (DecisionEngine._best_nearby_weapon gs) as [w|].
    + destruct (weapon_rule_fires gs w) eqn:W.
      * split; [discriminate |].
        intros [_ [_ [H _]]]. specialize (H w eq_refl). congruence.
      * rewrite Combat. split.
        -- intros [Hn Hs]. repeat split; auto. now intros w' [= <-].
        -- intros [_ [_ [_ [Hn Hs]]]]. auto.
    + rewrite Combat. split.
      * intros [Hn Hs]. repeat split; auto. discriminate.
      * intros [_ [_ [_ [Hn Hs]]]]. auto.
  - intros x gs' log' H. apply decide_inv in H.
    inversion H as [Zc | Zc Ch | w Zc Ch B W | res g l Zc Ch B O]; subst.
    inversion O as [Heal | x' He | t wp Ht Hin Hz Hwp | a l' Hn Ha Hl]; subst.
    auto.
Qed.

(** A weapon of negative [dps] against one enemy at half health: the ratio
    is -1 and the division of [_win_prob] fails. *)
Lemma decide_zero_division_iff_witness :
  let gs := snapshot 100 (Some (Weapon.mk "cursed" (-5) 1 1 "common")) []
              Zone.default [Enemy.mk "e1" 50 100 10 50 false] [] [] "" in
  DecisionEngine._zone_critical gs = false
  /\ critical_heal_fires gs = false
  /\ (forall w, DecisionEngine._best_nearby_weapon gs = Some w ->
                weapon_rule_fires gs w = false)
  /\ normal_heal_fires gs = false
  /\ exists e : Enemy.t,
       In e (GameState.enemies gs) /\ Enemy.in_zone e = false
       /\ DecisionEngine._win_prob gs e = Raise ZeroDivisionError.
Proof.
  exact (proj1 (proj1 (decide_zero_division_iff
                         (DecisionEngine.mk RegionMemory.init)
                         (snapshot 100
                            (Some (Weapon.mk "cursed" (-5) 1 1 "common")) []
                            Zone.default
                            [Enemy.mk "e1" 50 100 10 50 false] [] [] "")
                         [])) eq_refl).
Defined.

(* ================================================================== *)
(** * Exploration *)
(* ================================================================== *)

Lemma keys_nonempty {V : Type} (d : dict V) :
  nonempty (keys d) = nonempty d.
Proof. destruct d; reflexivity. Qed.

(** X11. When [decide] returns [move_to_region], the region is the one
    [best_region] ranks first among the regions that have a score (the five
    default labels while none has), it is not the empty label and it is not
    the current region; and no enemy was selected. *)
Theorem decide_explores_best_other_region (self : DecisionEngine.t)
    (gs : GameState.t) (log : list LogRecord) (region : string) :
  fst (DecisionEngine.decide self (gs, log)) = Ok (move_to_region region) ->
  let known := keys (RegionMemory._rvs (DecisionEngine.memory self)) in
  let candidates := if nonempty known then known else DEFAULT_REGIONS in
  RegionMemory.best_region (DecisionEngine.memory self) candidates
  = Some region
  /\ In region candidates
  /\ region <> ""
  /\ region <> GameState.current_region gs
  /\ DecisionEngine._select_target gs = Ok None.
Proof.
  rewrite decide_action. intros H. cbv zeta.
  unfold decide_table, combat_table, explore_table, zone_escape_result in H.
  repeat table_case H; try discriminate H. injection H as ->.
  match goal with
  | E : explore_target self gs = Some _ |- _ =>
      unfold explore_target in E;
      destruct (DecisionEngine._choose_region self gs) as [r|] eqn:R;
        [| discriminate E];
      destruct (str_truthy r && _) eqn:C; [| discriminate E];
      injection E as ->
  end.
  apply andb_prop in C. destruct C as [C1 C2].
  unfold DecisionEngine._choose_region in R.
  split; [exact R |]. split; [| split; [| split]].
  - destruct (best_region_returns_candidate (DecisionEngine.memory self)
                (if nonempty (keys (RegionMemory._rvs (DecisionEngine.memory self)))
                 then keys (RegionMemory._rvs (DecisionEngine.memory self))
                 else DEFAULT_REGIONS)) as [r' [E' Hin]].
    + destruct (keys _) eqn:K; cbn [nonempty]; discriminate.
    + unfold DEFAULT_REGIONS in *. rewrite R in E'. injection E' as <-.
      exact Hin.
  - intros ->. discriminate C1.
  - intros ->. rewrite String.eqb_refl in C2. discriminate C2.
  - reflexivity.
Qed.

Lemma decide_explores_best_other_region_witness :
  let self := DecisionEngine.mk
                (RegionMemory.mk [("south", 0.4); ("north", 1.5)] [] []) in
  let known := keys (RegionMemory._rvs (DecisionEngine.memory self)) in
  let candidates := if nonempty known then known else DEFAULT_REGIONS in
  RegionMemory.best_region (DecisionEngine.memory self) candidates
  = Some "north"
  /\ In "north" candidates
  /\ "north" <> ""
  /\ "north" <> GameState.current_region
                  (snapshot 100 None [] Zone.default [] [] [] "south")
  /\ DecisionEngine._select_target
       (snapshot 100 None [] Zone.default [] [] [] "south") = Ok None.
Proof.
  exact (decide_explores_best_other_region
           (DecisionEngine.mk
              (RegionMemory.mk [("south", 0.4); ("north", 1.5)] [] []))
           (snapshot 100 None [] Zone.default [] [] [] "south") []
           "north" eq_refl).
Defined.

(* ================================================================== *)
(** * Loot *)
(* ================================================================== *)

Lemma pick_loot_unfold (gs : GameState.t) :
  DecisionEngine._pick_loot gs
  = if negb (nonempty (GameState.loot_nearby gs)) then None
    else
      match (if GameState.hp_pct gs <? HP_USE_HEAL
             then find (fun i => heal_class i && uncapped gs i)
                       (GameState.loot_nearby gs)
             else None) with
      | Some item => Some item
      | None => find (uncapped gs) (GameState.loot_nearby gs)
      end.
Proof. reflexivity. Qed.

Lemma find_none_existsb {A : Type} (f : A -> bool) (l : list A) :
  find f l = None -> existsb f l = false.
Proof.
  induction l as [|a l IH]; cbn [find existsb]; [reflexivity |].
  destruct (f a); [discriminate | exact IH].
Qed.

Lemma find_some_existsb {A : Type} (f : A -> bool) (l : list A) (x : A) :
  find f l = Some x -> existsb f l = true.
Proof.
  intros H. apply find_some in H. apply existsb_exists. exists x. exact H.
Qed.

Lemma pick_loot_sound (gs : GameState.t) (loot : Loot) :
  DecisionEngine._pick_loot gs = Some loot ->
  In loot (GameState.loot_nearby gs) /\ uncapped gs loot = true.
Proof.
  rewrite pick_loot_unfold.
  destruct (negb _); [discriminate |].
  destruct (GameState.hp_pct gs <? HP_USE_HEAL).
  - destruct (find (fun i => heal_class i && uncapped gs i) _) as [i|] eqn:F.
    + intros [= <-]. apply find_some in F. destruct F as [Hin Hc].
      apply andb_prop in Hc. split; [exact Hin | apply Hc].
    + intros F'. apply find_some in F'. exact F'.
  - intros F'. apply find_some in F'. exact F'.
Qed.

(** X12. [_pick_loot] never returns an entry whose item is at the cap of 3:
    it returns the first nearby entry under the cap, except that below 60%
    health, with a heal item under the cap nearby, it returns the first
    such heal entry; it returns [None] exactly when every nearby entry is
    at the cap (an empty list included). *)
Theorem pick_loot_spec (gs : GameState.t) :
  match DecisionEngine._pick_loot gs with
  | Some loot =>
      uncapped gs loot = true
      /\ exists l1 l2,
           GameState.loot_nearby gs = l1 ++ loot :: l2
           /\ if (GameState.hp_pct gs <? HP_USE_HEAL)
                 && existsb (fun i => heal_class i && uncapped gs i)
                            (GameState.loot_nearby gs)
              then heal_class loot = true
                   /\ forall y, In y l1 -> heal_class y && uncapped gs y = false
              else forall y, In y l1 -> uncapped gs y = false
  | None =>
      forall y, In y (GameState.loot_nearby gs) -> uncapped gs y = false
  end.
Proof.
  rewrite pick_loot_unfold.
  destruct (GameState.loot_nearby gs) as [|y0 ys] eqn:N; cbn [nonempty negb].
  { intros y []. }
  rewrite <- N. clear N y0 ys.
  destruct (GameState.hp_pct gs <? HP_USE_HEAL); cbn [andb].
  - destruct (find (fun i => heal_class i && uncapped gs i) _) as [i|] eqn:F.
    + rewrite (find_some_existsb _ _ _ F).
      destruct (find_split _ _ _ F) as [l1 [l2 [E [Hi Hl1]]]].
      apply andb_prop in Hi. destruct Hi as [Hh Hu].
      split; [exact Hu |]. exists l1, l2. auto.
    + rewrite (find_none_existsb _ _ F).
      destruct (find (uncapped gs) _) as [i|] eqn:U.
      * destruct (find_split _ _ _ U) as [l1 [l2 [E [Hu Hl1]]]].
        split; [exact Hu |]. exists l1, l2. auto.
      * intros y Hy. exact (find_none _ _ U y Hy).
  - destruct (find (uncapped gs) _) as [i|] eqn:U.
    + destruct (find_split _ _ _ U) as [l1 [l2 [E [Hu Hl1]]]].
      split; [exact Hu |]. exists l1, l2. auto.
    + intros y Hy. exact (find_none _ _ U y Hy).
Qed.

(** X13. When [decide] returns [pick_loot], the id is that of a nearby
    loot entry, a non-empty dict, whose item the agent holds fewer than 3
    of: [decide] never orders the pick-up of an item at the cap. *)
Theorem decide_picks_loot_under_cap (self : DecisionEngine.t)
    (gs : GameState.t) (log : list LogRecord) (item_id : option string) :
  fst (DecisionEngine.decide self (gs, log)) = Ok (pick_loot item_id) ->
  exists loot : Loot,
    In loot (GameState.loot_nearby gs)
    /\ loot <> []
    /\ item_id = get loot "id"
    /\ (held gs (loot_name loot) < MAX_HEAL_PER_TYPE)%Z.
Proof.
  rewrite decide_action. intros H.
  unfold decide_table, combat_table, explore_table, zone_escape_result in H.
  repeat table_case H; try discriminate H. injection H as <-.
  match goal with
  | E : loot_target gs = Some ?l |- _ =>
      unfold loot_target in E;
      destruct (DecisionEngine._pick_loot gs) as [loot|] eqn:P;
        [| discriminate E];
      destruct (nonempty loot) eqn:Ne; [| discriminate E];
      injection E as <-
  end.
  destruct (pick_loot_sound gs loot P) as [Hin Hu].
  exists loot. repeat split; auto.
  - intros ->. discriminate Ne.
  - unfold uncapped in Hu. now apply Z.ltb_lt.
Qed.

Lemma decide_picks_loot_under_cap_witness :
  exists loot : Loot,
    In loot (GameState.loot_nearby
               (snapshot 100 None [("ammo", 3%Z)] Zone.default [] 
                  [[("id", "7"); ("item", "ammo")];
                   [("id", "8"); ("item", "medkit")]] [] "central"))
    /\ loot <> []
    /\ Some "8" = get loot "id"
    /\ (held (snapshot 100 None [("ammo", 3%Z)] Zone.default [] 
                [[("id", "7"); ("item", "ammo")];
                 [("id", "8"); ("item", "medkit")]] [] "central")
             (loot_name loot) < MAX_HEAL_PER_TYPE)%Z.
Proof.
  exact (decide_picks_loot_under_cap
           (DecisionEngine.mk RegionMemory.init)
           (snapshot 100 None [("ammo", 3%Z)] Zone.default [] 
              [[("id", "7"); ("item", "ammo")];
               [("id", "8"); ("item", "medkit")]] [] "central")
           [] (Some "8") eq_refl).
Defined.

(* ================================================================== *)
(** * Region memory: counters, frame and known regions *)
(* ================================================================== *)

Lemma get_set_diff {V : Type} (d : dict V) (k k' : string) (v : V) :
  k' <> k -> get (set d k v) k' = get d k'.
Proof.
  intros Hne. induction d as [|[k0 v0] d IH]; cbn [set get].
  - destruct (String.eqb_spec k k'); congruence.
  - destruct (String.eqb_spec k0 k) as [->|]; cbn [get].
    + destruct (String.eqb_spec k k'); congruence.
    + now rewrite IH.
Qed.

Lemma get_default_set {V : Type} (d : dict V) (k k' : string) (v default : V) :
  get_default (set d k v) k' default
  = if String.eqb k k' then v else get_default d k' default.
Proof.
  unfold get_default. destruct (String.eqb_spec k k') as [->|Hne].
  - now rewrite get_set_same.
  - rewrite get_set_diff by congruence. reflexivity.
Qed.

Lemma keys_set {V : Type} (d : dict V) (k : string) (v : V) (x : string) :
  In x (keys (set d k v)) <-> x = k \/ In x (keys d).
Proof.
  unfold keys. induction d as [|[k0 v0] d IH]; cbn [set map In fst].
  - intuition.
  - destruct (String.eqb_spec k0 k) as [->|Hne]; cbn [map In fst].
    + intuition.
    + rewrite IH. intuition.
Qed.

Lemma call_run (c : Call) (mem : RegionMemory.t) (log : list LogRecord) :
  call c (mem, log) = (Ok tt, (after_call c mem, log ++ call_log c mem)).
Proof.
  destruct c as [region loot_found | region event];
    cbn [call after_call call_log].
  - rewrite record_explore_run.
    destruct (penalty_due mem region loot_found).
    + now rewrite adjust_run.
    + now rewrite app_nil_r.
  - rewrite record_event_run.
    destruct (truthy _).
    + now rewrite adjust_run.
    + now rewrite app_nil_r.
Qed.

Lemma after_call_explores (c : Call) (mem : RegionMemory.t) (region : string) :
  get_default (RegionMemory._explores (after_call c mem)) region 0%Z
  = (get_default (RegionMemory._explores mem) region 0
     + explore_count region [c])%Z.
Proof.
  destruct c as [r n | r ev]; cbn [after_call explore_count].
  - assert (E : RegionMemory._explores
                  (if penalty_due mem r n
                   then adjusted (counted mem r n) r RVS_FAIL_EXPLORE
                   else counted mem r n)
                = RegionMemory._explores (counted mem r n))
      by (destruct (penalty_due mem r n); reflexivity).
    rewrite E. unfold counted. cbn [RegionMemory._explores].
    rewrite get_default_set.
    destruct (String.eqb_spec r region) as [->|]; lia.
  - destruct (truthy _); cbn [adjusted RegionMemory._explores]; lia.
Qed.

Lemma after_call_loot (c : Call) (mem : RegionMemory.t) (region : string) :
  get_default (RegionMemory._loot_found (after_call c mem)) region 0%Z
  = (get_default (RegionMemory._loot_found mem) region 0
     + loot_total region [c])%Z.
Proof.
  destruct c as [r n | r ev]; cbn [after_call loot_total].
  - assert (E : RegionMemory._loot_found
                  (if penalty_due mem r n
                   then adjusted (counted mem r n) r RVS_FAIL_EXPLORE
                   else counted mem r n)
                = RegionMemory._loot_found (counted mem r n))
      by (destruct (penalty_due mem r n); reflexivity).
    rewrite E. unfold counted. cbn [RegionMemory._loot_found].
    rewrite get_default_set.
    destruct (String.eqb_spec r region) as [->|]; lia.
  - destruct (truthy _); cbn [adjusted RegionMemory._loot_found]; lia.
Qed.

Lemma explore_count_cons (region : string) (c : Call) (cs : list Call) :
  explore_count region (c :: cs)
  = (explore_count region [c] + explore_count region cs)%Z.
Proof. destruct c; cbn [explore_count]; lia. Qed.

Lemma loot_total_cons (region : string) (c : Call) (cs : list Call) :
  loot_total region (c :: cs)
  = (loot_total region [c] + loot_total region cs)%Z.
Proof. destruct c; cbn [loot_total]; lia. Qed.

Lemma calls_counters (cs : list Call) (region : string) :
  forall (mem : RegionMemory.t) (log : list LogRecord),
  exists (mem' : RegionMemory.t) (log' : list LogRecord),
    calls cs (mem, log) = (Ok tt, (mem', log'))
    /\ get_default (RegionMemory._explores mem') region 0%Z
       = (get_default (RegionMemory._explores mem) region 0
          + explore_count region cs)%Z
    /\ get_default (RegionMemory._loot_found mem') region 0%Z
       = (get_default (RegionMemory._loot_found mem) region 0
          + loot_total region cs)%Z.
Proof.
  induction cs as [|c cs IH]; intros mem log.
  - exists mem, log. cbn [calls explore_count loot_total].
    repeat split; lia.
  - destruct (IH (after_call c mem) (log ++ call_log c mem))
      as [mem' [log' [E [He Hl]]]].
    exists mem', log'. split.
    + cbn [calls]. unfold bind. rewrite call_run. exact E.
    + rewrite He, Hl, after_call_explores, after_call_loot.
      rewrite (explore_count_cons region c cs), (loot_total_cons region c cs).
      split; lia.
Qed.

(** X14. The two counters of a region count: after any session from a
    fresh memory, the explore counter of a region is the number of
    [record_explore] calls made for it and its cumulative loot is the sum
    of the loot those calls reported; [record_event] calls and calls about
    other regions do not count. *)
Theorem explore_counters_count (cs : list Call) (region : string) :
  exists (mem : RegionMemory.t) (log : list LogRecord),
    calls cs (RegionMemory.init, []) = (Ok tt, (mem, log))
    /\ get_default (RegionMemory._explores mem) region 0%Z
       = explore_count region cs
    /\ get_default (RegionMemory._loot_found mem) region 0%Z
       = loot_total region cs.
Proof.
  destruct (calls_counters cs region RegionMemory.init [])
    as [mem [log [E [He Hl]]]].
  exists mem, log. split; [exact E |].
  rewrite He, Hl. cbn. split; reflexivity.
Qed.

(** X15. A feedback call about one region changes nothing that the memory
    holds for another region: neither its score nor its two counters.
    [record_event] never changes a counter, and an event kind outside the
    four known ones changes nothing at all and logs nothing. *)
Theorem feedback_call_frame (c : Call) (mem : RegionMemory.t)
    (log : list LogRecord) :
  exists (mem' : RegionMemory.t) (log' : list LogRecord),
    call c (mem, log) = (Ok tt, (mem', log'))
    /\ (forall other : string,
          other <> call_region c ->
          get (RegionMemory._rvs mem') other = get (RegionMemory._rvs mem) other
          /\ get (RegionMemory._explores mem') other
             = get (RegionMemory._explores mem) other
          /\ get (RegionMemory._loot_found mem') other
             = get (RegionMemory._loot_found mem) other)
    /\ (forall region event : string,
          c = RecordEvent region event ->
          RegionMemory._explores mem' = RegionMemory._explores mem
          /\ RegionMemory._loot_found mem' = RegionMemory._loot_found mem
          /\ (get RegionMemory.delta_map event = None ->
              mem' = mem /\ log' = log)).
Proof.
  exists (after_call c mem), (log ++ call_log c mem).
  split; [apply call_run |]. split.
  - intros other Hne.
    destruct c as [r n | r ev]; cbn [call_region after_call] in *.
    + destruct (penalty_due mem r n);
        unfold adjusted, counted;
        cbn [RegionMemory._rvs RegionMemory._explores RegionMemory._loot_found];
        rewrite ?get_set_diff by exact Hne; auto.
    + destruct (truthy _);
        unfold adjusted;
        cbn [RegionMemory._rvs RegionMemory._explores RegionMemory._loot_found];
        rewrite ?get_set_diff by exact Hne; auto.
  - intros region event ->. cbn [after_call call_log].
    split; [| split].
    + destruct (truthy _); reflexivity.
    + destruct (truthy _); reflexivity.
    + intros Hn. unfold get_default. rewrite Hn.
      change (truthy 0) with false. cbn iota.
      split; [reflexivity | apply app_nil_r].
Qed.

Lemma adjusted_in_app (l1 l2 : list LogRecord) (region : string) :
  adjusted_in (l1 ++ l2) region
  <-> adjusted_in l1 region \/ adjusted_in l2 region.
Proof.
  unfold adjusted_in. split.
  - intros [old [new [reason H]]]. apply in_app_or in H.
    destruct H as [H | H]; [left | right]; eauto.
  - intros [[old [new [reason H]]] | [old [new [reason H]]]];
      exists old, new, reason; apply in_or_app; auto.
Qed.

Lemma call_known (c : Call) (mem : RegionMemory.t) (region : string) :
  In region (keys (RegionMemory._rvs (after_call c mem)))
  <-> In region (keys (RegionMemory._rvs mem))
      \/ adjusted_in (call_log c mem) region.
Proof.
  assert (One : forall r old new reason,
            adjusted_in [LogRVS r old new reason] region <-> region = r).
  { intros r old new reason. unfold adjusted_in. split.
    - intros [o [n [rs [H | []]]]]. now injection H.
    - intros ->. exists old, new, reason. now left. }
  assert (Nil : adjusted_in [] region <-> False).
  { unfold adjusted_in. split; [intros [o [n [rs []]]] | intros []]. }
  destruct c as [r n | r ev]; cbn [after_call call_log].
  - destruct (penalty_due mem r n).
    + unfold adjusted, counted. cbn [RegionMemory._rvs].
      rewrite keys_set, One. intuition.
    + unfold counted. cbn [RegionMemory._rvs]. rewrite Nil. intuition.
  - destruct (truthy _).
    + unfold adjusted. cbn [RegionMemory._rvs].
      rewrite keys_set, One. intuition.
    + rewrite Nil. intuition.
Qed.

Lemma calls_known (cs : list Call) :
  forall (mem : RegionMemory.t) (log : list LogRecord),
    (forall region, In region (keys (RegionMemory._rvs mem))
                    <-> adjusted_in log region) ->
    exists (mem' : RegionMemory.t) (log' : list LogRecord),
      calls cs (mem, log) = (Ok tt, (mem', log'))
      /\ forall region, In region (keys (RegionMemory._rvs mem'))
                        <-> adjusted_in log' region.
Proof.
  induction cs as [|c cs IH]; intros mem log Inv.
  - exists mem, log. split; [reflexivity | exact Inv].
  - destruct (IH (after_call c mem) (log ++ call_log c mem))
      as [mem' [log' [E Inv']]].
    + intros region. rewrite call_known, adjusted_in_app, Inv. reflexivity.
    + exists mem', log'. split; [| exact Inv'].
      cbn [calls]. unfold bind. rewrite call_run. exact E.
Qed.

(** X16. The regions that have a score, which are the candidates
    [_choose_region] ranks, are exactly the regions to which a score
    adjustment was applied: a region that was only explored without
    reaching the failed-explore test, or only named with unknown events,
    has no score entry. *)
Theorem known_regions_are_adjusted_regions (cs : list Call) :
  exists (mem : RegionMemory.t) (log : list LogRecord),
    calls cs (RegionMemory.init, []) = (Ok tt, (mem, log))
    /\ forall region : string,
         In region (keys (RegionMemory._rvs mem)) <-> adjusted_in log region.
Proof.
  apply calls_known. intros region. cbn [RegionMemory.init RegionMemory._rvs keys map In].
  unfold adjusted_in. split; [intros [] | intros [o [n [r []]]]].
Qed.

Lemma fail_penalty_record (region : string) (old new : float) :
  fail_penalties region [LogRVS region old new "2 failed explores"] = 1%nat.
Proof.
  unfold fail_penalties. cbn [filter is_fail_penalty].
  now rewrite !String.eqb_refl.
Qed.

Lemma after_call_score (region : string) (loot_found : Z)
    (mem : RegionMemory.t) :
  RegionMemory.rvs (after_call (RecordExplore region loot_found) mem) region
  = if penalty_due mem region loot_found
    then penalised (RegionMemory.rvs mem region)
    else RegionMemory.rvs mem region.
Proof.
  cbn [after_call]. destruct (penalty_due mem region loot_found);
    [| reflexivity].
  unfold adjusted, counted, penalised, RVS_FAIL_EXPLORE.
  unfold RegionMemory.rvs at 1. cbn [RegionMemory._rvs].
  apply get_default_set_same.
Qed.

Lemma failed_explores_after_first (region : string) (n : nat) :
  forall (mem : RegionMemory.t) (log : list LogRecord),
    (1 <= get_default (RegionMemory._explores mem) region 0)%Z ->
    get_default (RegionMemory._loot_found mem) region 0%Z = 0%Z ->
    exists (mem' : RegionMemory.t) (log' : list LogRecord),
      calls (repeat (RecordExplore region 0) n) (mem, log)
      = (Ok tt, (mem', log'))
      /\ fail_penalties region log' = (fail_penalties region log + n)%nat
      /\ RegionMemory.rvs mem' region
         = Nat.iter n penalised (RegionMemory.rvs mem region).
Proof.
  induction n as [|n IH]; intros mem log Hc Hl; cbn [repeat calls].
  - exists mem, log. split; [reflexivity | split; [lia | reflexivity]].
  - unfold bind. rewrite call_run.
    assert (D : penalty_due mem region 0 = true).
    { unfold penalty_due. rewrite Hl.
      apply andb_true_intro. split; [apply Z.leb_le; lia | reflexivity]. }
    destruct (IH (after_call (RecordExplore region 0) mem)
                 (log ++ call_log (RecordExplore region 0) mem))
      as [mem' [log' [E [P R]]]].
    + rewrite after_call_explores. cbn [explore_count].
      rewrite String.eqb_refl. lia.
    + rewrite after_call_loot. cbn [loot_total].
      rewrite String.eqb_refl. lia.
    + exists mem', log'. split; [exact E | split].
      * rewrite P, fail_penalties_app. cbn [call_log].
        rewrite D, fail_penalty_record. lia.
      * rewrite R, after_call_score, D. symmetry. apply Nat.iter_succ_r.
Qed.

(** X17. On a region with no earlier explore and no earlier loot, [n]
    consecutive [record_explore(region, 0)] calls apply the failed-explore
    penalty [n - 1] times, never on the first call and on every call from
    the second on: the score of the region ends as its score before the
    calls lowered [n - 1] times by 0.3 within [[0, 2]], and the log shows
    [n - 1] penalties more. *)
Theorem failed_explores_penalties (region : string) (n : nat)
    (mem : RegionMemory.t) (log : list LogRecord) :
  get_default (RegionMemory._explores mem) region 0%Z = 0%Z ->
  get_default (RegionMemory._loot_found mem) region 0%Z = 0%Z ->
  exists (mem' : RegionMemory.t) (log' : list LogRecord),
    calls (repeat (RecordExplore region 0) n) (mem, log)
    = (Ok tt, (mem', log'))
    /\ RegionMemory.rvs mem' region
       = Nat.iter (Nat.pred n) penalised (RegionMemory.rvs mem region)
    /\ fail_penalties region log'
       = (fail_penalties region log + Nat.pred n)%nat.
Proof.
  intros Hc Hl. destruct n as [|n]; cbn [repeat calls Nat.pred].
  - exists mem, log. split; [reflexivity | split; [reflexivity | lia]].
  - unfold bind. rewrite call_run.
    assert (D : penalty_due mem region 0 = false).
    { unfold penalty_due. rewrite Hc. reflexivity. }
    destruct (failed_explores_after_first region n
                (after_call (RecordExplore region 0) mem)
                (log ++ call_log (RecordExplore region 0) mem))
      as [mem' [log' [E [P R]]]].
    + rewrite after_call_explores. cbn [explore_count].
      rewrite String.eqb_refl. lia.
    + rewrite after_call_loot. cbn [loot_total].
      rewrite String.eqb_refl. lia.
    + exists mem', log'. split; [exact E | split].
      * rewrite R, after_call_score, D. reflexivity.
      * rewrite P, fail_penalties_app. cbn [call_log].
        rewrite D. cbn. lia.
Qed.

(** Five failed explores of a fresh region: the score goes from 1.0 through
    four penalties. *)
Lemma failed_explores_penalties_witness :
  exists (mem' : RegionMemory.t) (log' : list LogRecord),
    calls (repeat (RecordExplore "north" 0) 5) (RegionMemory.init, [])
    = (Ok tt, (mem', log'))
    /\ RegionMemory.rvs mem' "north"
       = Nat.iter (Nat.pred 5) penalised
           (RegionMemory.rvs RegionMemory.init "north")
    /\ fail_penalties "north" log'
       = (fail_penalties "north" [] + Nat.pred 5)%nat.
Proof.
  apply failed_explores_penalties; reflexivity.
Defined.

Lemma known_event_reason (event : string) :
  truthy (get_default RegionMemory.delta_map event 0) = true ->
  String.eqb event "2 failed explores" = false.
Proof.
  destruct (String.eqb_spec event "2 failed explores") as [->|];
    [| reflexivity].
  vm_compute. intros H. discriminate H.
Qed.

Lemma call_keeps_penalties (c : Call) (region : string)
    (mem : RegionMemory.t) :
  (0 < get_default (RegionMemory._loot_found mem) region 0)%Z ->
  loot_nonnegative [c] ->
  fail_penalties region (call_log c mem) = 0%nat.
Proof.
  intros Hl Hn. destruct c as [r n | r ev]; cbn [call_log].
  - destruct (penalty_due mem r n) eqn:D; [| reflexivity].
    unfold fail_penalties. cbn [filter is_fail_penalty].
    destruct (String.eqb_spec r region) as [->|]; [| reflexivity].
    exfalso. unfold penalty_due in D. apply andb_prop in D.
    destruct D as [_ D]. apply Z.eqb_eq in D.
    inversion Hn as [|c l Hc _]; subst. cbn in Hc. lia.
  - destruct (truthy _) eqn:T; [| reflexivity].
    unfold fail_penalties. cbn [filter is_fail_penalty].
    rewrite (known_event_reason ev T), andb_false_r. reflexivity.
Qed.

Lemma calls_keep_penalties (cs : list Call) (region : string) :
  forall (mem : RegionMemory.t) (log : list LogRecord),
    (0 < get_default (RegionMemory._loot_found mem) region 0)%Z ->
    loot_nonnegative cs ->
    exists (mem' : RegionMemory.t) (log' : list LogRecord),
      calls cs (mem, log) = (Ok tt, (mem', log'))
      /\ fail_penalties region log' = fail_penalties region log.
Proof.
  induction cs as [|c cs IH]; intros mem log Hl Hn.
  - exists mem, log. split; reflexivity.
  - inversion Hn as [|c' l Hc Hcs]; subst.
    destruct (IH (after_call c mem) (log ++ call_log c mem))
      as [mem' [log' [E P]]]; [| exact Hcs |].
    + rewrite after_call_loot.
      destruct c as [r n | r ev]; cbn [loot_total]; cbn in Hc;
        [destruct (String.eqb r region) |]; lia.
    + exists mem', log'. split.
      * cbn [calls]. unfold bind. rewrite call_run. exact E.
      * rewrite P, fail_penalties_app.
        rewrite (call_keeps_penalties c region mem Hl).
        -- lia.
        -- constructor; [exact Hc | constructor].
Qed.

(** X18. Once a region has yielded loot, it is never charged the
    failed-explore penalty again: from a memory whose cumulative loot for
    the region is positive, no session whose loot reports are not negative
    applies the penalty to that region, however many zero-loot explores it
    contains. *)
Theorem loot_found_stops_penalties (cs : list Call) (region : string)
    (mem : RegionMemory.t) (log : list LogRecord) :
  (0 < get_default (RegionMemory._loot_found mem) region 0)%Z ->
  loot_nonnegative cs ->
  exists (mem' : RegionMemory.t) (log' : list LogRecord),
    calls cs (mem, log) = (Ok tt, (mem', log'))
    /\ fail_penalties region log' = fail_penalties region log.
Proof.
  exact (calls_keep_penalties cs region mem log).
Qed.

Lemma loot_found_stops_penalties_witness :
  exists (mem' : RegionMemory.t) (log' : list LogRecord),
    calls [RecordExplore "north" 0; RecordExplore "north" 0;
           RecordEvent "north" "ambush"; RecordExplore "north" 0]
      (RegionMemory.mk [] [("north", 1%Z)] [("north", 2%Z)], [])
    = (Ok tt, (mem', log'))
    /\ fail_penalties "north" log' = fail_penalties "north" [].
Proof.
  apply loot_found_stops_penalties.
  - reflexivity.
  - repeat constructor; discriminate.
Defined.

(* ================================================================== *)
(** * What [decide] does not read *)
(* ================================================================== *)

Lemma select_target_loop_ext (gs1 gs2 : GameState.t) :
  (forall acc e, DecisionEngine._select_target_step gs1 acc e
                 = DecisionEngine._select_target_step gs2 acc e) ->
  forall (enemies : list Enemy.t) (acc : option Enemy.t * float),
    DecisionEngine._select_target_loop gs1 enemies acc
    = DecisionEngine._select_target_loop gs2 enemies acc.
Proof.
  intros Hstep. induction enemies as [|e rest IH]; intros acc;
    cbn [DecisionEngine._select_target_loop]; [reflexivity |].
  rewrite Hstep.
  destruct (DecisionEngine._select_target_step gs2 acc e); cbn [rbind];
    [apply IH | reflexivity].
Qed.

Lemma select_target_set_lock (gs : GameState.t) (target : option Enemy.t)
    (id : option string) :
  DecisionEngine._select_target (GameState.set_lock gs target id)
  = DecisionEngine._select_target gs.
Proof.
  unfold DecisionEngine._select_target.
  change (GameState.enemies (GameState.set_lock gs target id))
    with (GameState.enemies gs).
  rewrite (select_target_loop_ext (GameState.set_lock gs target id) gs);
    reflexivity.
Qed.

(** X19. The action of [decide] does not depend on the enemies inside the
    danger zone, on the lock fields of the snapshot, or on the log: the
    snapshot without its in-zone enemies and with any lock, under any log,
    gets the same action. In particular calling [decide] again on the
    snapshot it has just mutated returns the same action. *)
Theorem decide_reads_no_lock_no_zone_enemy (self : DecisionEngine.t)
    (gs : GameState.t) (target : option Enemy.t) (id : option string)
    (log1 log2 : list LogRecord) :
  fst (DecisionEngine.decide self
         (GameState.set_lock
            (with_enemies gs (filter outside_zone (GameState.enemies gs)))
            target id, log1))
  = fst (DecisionEngine.decide self (gs, log2)).
Proof.
  rewrite !decide_action.
  unfold decide_table, combat_table.
  rewrite select_target_set_lock, select_target_outside_zone.
  reflexivity.
Qed.

Lemma select_target_spec_witness :
  exists s l1 l2,
    scored
      (snapshot 100 (Some (Weapon.mk "rifle" 20 1 1 "common")) []
         Zone.default
         [Enemy.mk "full" 100 100 10 30 false;
          Enemy.mk "hurt" 20 100 10 30 false;
          Enemy.mk "twin" 20 100 10 30 false] [] [] "")
      (Enemy.mk "hurt" 20 100 10 30 false) s
    /\ lt 0 s
    /\ [Enemy.mk "full" 100 100 10 30 false;
        Enemy.mk "hurt" 20 100 10 30 false;
        Enemy.mk "twin" 20 100 10 30 false]
       = l1 ++ Enemy.mk "hurt" 20 100 10 30 false :: l2
    /\ (forall e s', In e l1 ->
          scored
            (snapshot 100 (Some (Weapon.mk "rifle" 20 1 1 "common")) []
               Zone.default
               [Enemy.mk "full" 100 100 10 30 false;
                Enemy.mk "hurt" 20 100 10 30 false;
                Enemy.mk "twin" 20 100 10 30 false] [] [] "") e s' ->
          (s <=? s') = false)
    /\ (forall e s', In e l2 ->
          scored
            (snapshot 100 (Some (Weapon.mk "rifle" 20 1 1 "common")) []
               Zone.default
               [Enemy.mk "full" 100 100 10 30 false;
                Enemy.mk "hurt" 20 100 10 30 false;
                Enemy.mk "twin" 20 100 10 30 false] [] [] "") e s' ->
          (s <? s') = false).
Proof.
  exact (select_target_spec
           (snapshot 100 (Some (Weapon.mk "rifle" 20 1 1 "common")) []
              Zone.default
              [Enemy.mk "full" 100 100 10 30 false;
               Enemy.mk "hurt" 20 100 10 30 false;
               Enemy.mk "twin" 20 100 10 30 false] [] [] "")
           (Some (Enemy.mk "hurt" 20 100 10 30 false)) eq_refl).
Defined.

(* ================================================================== *)
(** * Room selection *)
(* ================================================================== *)

Lemma examine_kept (py : Json.Builtins) (balance : float)
    (room : dict Json.t) (logged : list RoomSelector.LogRecord) :
  RoomSelector.examine py balance room = Json.Returned (true, logged) ->
  open_and_affordable py balance room.
Proof.
  unfold RoomSelector.examine, open_and_affordable.
  destruct (RoomSelector.current_of py room) as [current|];
    cbn [Json.obind]; [| discriminate].
  destruct (RoomSelector.max_of py room) as [max_p|];
    cbn [Json.obind]; [| discriminate].
  destruct (RoomSelector.cost_of py room) as [cost|];
    cbn [Json.obind]; [| discriminate].
  destruct (max_p <=? current)%Z eqn:Full; [discriminate |].
  destruct (String.eqb _ "paid" && (balance <? cost)) eqn:Paid;
    [discriminate |].
  intros _. exists current, max_p, cost. repeat split.
  - apply Z.leb_gt in Full. lia.
  - intros Ht. rewrite Ht in Paid. cbn in Paid. exact Paid.
Qed.

Lemma select_loop_cons (py : Json.Builtins) (balance : float)
    (raw_room : Json.t) (rest : list Json.t) (st : RoomSelector.LoopState) :
  RoomSelector.select_loop py balance (raw_room :: rest) st
  = match candidate raw_room with
    | None =>
        RoomSelector.select_loop py balance rest
          (RoomSelector.Build_LoopState
             (RoomSelector.visited st ++ [in_place raw_room])
             (RoomSelector.available st)
             (RoomSelector.log st ++ [RoomSelector.LogUnknownType raw_room]))
    | Some room =>
        match RoomSelector.examine py balance room with
        | Json.Raised e =>
            (Json.Raised e,
             RoomSelector.Build_LoopState
               (RoomSelector.visited st ++ [in_place raw_room])
               (RoomSelector.available st) (RoomSelector.log st),
             rest)
        | Json.Returned (keep, logged) =>
            RoomSelector.select_loop py balance rest
              (RoomSelector.Build_LoopState
                 (RoomSelector.visited st ++ [in_place raw_room])
                 (if keep then RoomSelector.available st ++ [room]
                  else RoomSelector.available st)
                 (RoomSelector.log st ++ logged))
        end
    end.
Proof. destruct raw_room; reflexivity. Qed.

Lemma readable_cons (py : Json.Builtins) (balance : float)
    (raw_room : Json.t) (rest : list Json.t) :
  readable py balance (raw_room :: rest)
  <-> (forall room, candidate raw_room = Some room ->
         exists r, RoomSelector.examine py balance room = Json.Returned r)
      /\ readable py balance rest.
Proof.
  unfold readable. split.
  - intros H. split.
    + intros room. apply H. now left.
    + intros raw room Hin. apply H. now right.
  - intros [H1 H2] raw room [<- | Hin]; [apply H1 | apply H2; exact Hin].
Qed.

Lemma select_loop_returns (py : Json.Builtins) (balance : float)
    (rooms : list Json.t) :
  forall (st st' : RoomSelector.LoopState) (rest : list Json.t),
    RoomSelector.select_loop py balance rooms st
    = (Json.Returned tt, st', rest) ->
    RoomSelector.available st'
    = RoomSelector.available st ++ kept_rooms py balance rooms
    /\ RoomSelector.visited st'
       = RoomSelector.visited st ++ map in_place rooms
    /\ rest = []
    /\ readable py balance rooms.
Proof.
  induction rooms as [|raw rooms IH]; intros st st' rest.
  - cbn [RoomSelector.select_loop kept_rooms map].
    intros [= <- <-]. rewrite !app_nil_r. repeat split.
    intros raw_room room [].
  - rewrite select_loop_cons, readable_cons. cbn [kept_rooms map].
    destruct (candidate raw) as [room|].
    + destruct (RoomSelector.examine py balance room) as [[keep logged]|e]
        eqn:Ex; [| discriminate].
      intros H. apply IH in H.
      cbn [RoomSelector.available RoomSelector.visited] in H.
      destruct H as [Ha [Hv [Hr Hread]]].
      rewrite Ha, Hv, <- !app_assoc.
      repeat split; try assumption.
      * destruct keep; [rewrite <- app_assoc |]; reflexivity.
      * intros room' [= <-]. eauto.
    + intros H. apply IH in H.
      cbn [RoomSelector.available RoomSelector.visited] in H.
      destruct H as [Ha [Hv [Hr Hread]]].
      rewrite Ha, Hv, <- !app_assoc.
      repeat split; try assumption. discriminate.
Qed.

Lemma select_loop_readable (py : Json.Builtins) (balance : float)
    (rooms : list Json.t) :
  readable py balance rooms ->
  forall st, exists st',
    RoomSelector.select_loop py balance rooms st = (Json.Returned tt, st', []).
Proof.
  induction rooms as [|raw rooms IH]; intros Hread st.
  - cbn [RoomSelector.select_loop]. eauto.
  - rewrite select_loop_cons. apply readable_cons in Hread.
    destruct Hread as [H1 H2].
    destruct (candidate raw) as [room|].
    + destruct (H1 room eq_refl) as [[keep logged] ->]. apply IH, H2.
    + apply IH, H2.
Qed.

Lemma kept_rooms_sound (py : Json.Builtins) (balance : float)
    (rooms : list Json.t) (room : dict Json.t) :
  In room (kept_rooms py balance rooms) ->
  (exists raw_room, In raw_room rooms /\ candidate raw_room = Some room)
  /\ open_and_affordable py balance room.
Proof.
  induction rooms as [|raw rooms IH]; cbn [kept_rooms]; [intros [] |].
  assert (Rest : In room (kept_rooms py balance rooms) ->
                 (exists raw_room, In raw_room (raw :: rooms)
                                   /\ candidate raw_room = Some room)
                 /\ open_and_affordable py balance room).
  { intros H. destruct (IH H) as [[raw_room [Hin Hc]] Ho].
    split; [exists raw_room; split; [now right | exact Hc] | exact Ho]. }
  destruct (candidate raw) as [room0|] eqn:C; [| exact Rest].
  destruct (RoomSelector.examine py balance room0) as [[[|] logged]|e] eqn:Ex;
    try exact Rest.
  intros [<- | H]; [| exact (Rest H)].
  split; [exists raw; split; [now left | exact C] |].
  exact (examine_kept py balance room0 logged Ex).
Qed.

Lemma keys_of_spec (py : Json.Builtins) (rooms : list (dict Json.t)) :
  forall ks,
    RoomSelector.keys_of py rooms = Json.Returned ks ->
    map fst ks = rooms
    /\ forall item, In item ks ->
          RoomSelector.current_of py (fst item) = Json.Returned (snd item).
Proof.
  induction rooms as [|room rooms IH]; intros ks; cbn [RoomSelector.keys_of].
  - intros [= <-]. split; [reflexivity | intros item []].
  - destruct (RoomSelector.current_of py room) as [k|] eqn:K;
      cbn [Json.obind]; [| discriminate].
    destruct (RoomSelector.keys_of py rooms) as [ks'|];
      cbn [Json.obind]; [| discriminate].
    intros [= <-]. destruct (IH ks' eq_refl) as [Hm Hk].
    split; [cbn [map fst]; now rewrite Hm |].
    intros item [<- | Hin]; [exact K | exact (Hk item Hin)].
Qed.

Lemma kept_rooms_keys (py : Json.Builtins) (balance : float)
    (rooms : list Json.t) :
  exists ks, RoomSelector.keys_of py (kept_rooms py balance rooms)
             = Json.Returned ks.
Proof.
  assert (G : forall l : list (dict Json.t),
            (forall room, In room l ->
               exists k, RoomSelector.current_of py room = Json.Returned k) ->
            exists ks, RoomSelector.keys_of py l = Json.Returned ks).
  { induction l as [|room l IH]; intros H; cbn [RoomSelector.keys_of].
    - eauto.
    - destruct (H room (or_introl eq_refl)) as [k ->]. cbn [Json.obind].
      destruct IH as [ks ->]; [intros r Hr; apply H; now right |].
      cbn [Json.obind]. eauto. }
  apply G. intros room Hin.
  destruct (kept_rooms_sound py balance rooms room Hin)
    as [_ [current [max_p [cost [Hc _]]]]].
  eauto.
Qed.

Lemma max_keyed_running {A : Type} (rest : list (A * Z)) :
  forall (l1 : list (A * Z)) (b : A * Z) (l2 : list (A * Z)),
    (forall y, In y l1 -> (snd y < snd b)%Z) ->
    (forall y, In y l2 -> (snd y <= snd b)%Z) ->
    exists m1 m2,
      l1 ++ b :: l2 ++ rest
      = m1 ++ fold_left (fun best item =>
                           if (snd best <? snd item)%Z then item else best)
                        rest b :: m2
      /\ (forall y, In y m1 ->
            (snd y < snd (fold_left
                            (fun best item =>
                               if (snd best <? snd item)%Z then item else best)
                            rest b))%Z)
      /\ (forall y, In y m2 ->
            (snd y <= snd (fold_left
                             (fun best item =>
                                if (snd best <? snd item)%Z then item else best)
                             rest b))%Z).
Proof.
  induction rest as [|e rest IH]; intros l1 b l2 H1 H2; cbn [fold_left].
  - exists l1, l2. rewrite app_nil_r. auto.
  - destruct (snd b <? snd e)%Z eqn:E.
    + apply Z.ltb_lt in E.
      replace (l1 ++ b :: l2 ++ e :: rest)
        with ((l1 ++ b :: l2) ++ e :: [] ++ rest)
        by (rewrite <- app_assoc; reflexivity).
      apply IH.
      * intros y Hy. apply in_app_or in Hy.
        destruct Hy as [Hy | [<- | Hy]];
          [specialize (H1 y Hy) | | specialize (H2 y Hy)]; lia.
      * intros y [].
    + apply Z.ltb_ge in E.
      replace (l1 ++ b :: l2 ++ e :: rest)
        with (l1 ++ b :: (l2 ++ [e]) ++ rest)
        by (rewrite <- app_assoc; reflexivity).
      apply IH; [exact H1 |].
      intros y Hy. apply in_app_or in Hy.
      destruct Hy as [Hy | [<- | []]]; [exact (H2 y Hy) | exact E].
Qed.

Lemma max_keyed_spec (py : Json.Builtins) (first : dict Json.t) (k : Z)
    (others : list (dict Json.t)) (ks : list (dict Json.t * Z)) :
  RoomSelector.current_of py first = Json.Returned k ->
  RoomSelector.keys_of py others = Json.Returned ks ->
  exists l1 l2,
    first :: others
    = l1 ++ fst (RoomSelector.max_keyed (first, k) ks) :: l2
    /\ RoomSelector.current_of py (fst (RoomSelector.max_keyed (first, k) ks))
       = Json.Returned (snd (RoomSelector.max_keyed (first, k) ks))
    /\ (forall room, In room l1 ->
          exists c, RoomSelector.current_of py room = Json.Returned c
                    /\ (c < snd (RoomSelector.max_keyed (first, k) ks))%Z)
    /\ (forall room, In room l2 ->
          exists c, RoomSelector.current_of py room = Json.Returned c
                    /\ (c <= snd (RoomSelector.max_keyed (first, k) ks))%Z).
Proof.
  intros Hk Hks. destruct (keys_of_spec py others ks Hks) as [Hm Hcur].
  destruct (max_keyed_running ks [] (first, k) [])
    as [m1 [m2 [Heq [Hlt Hle]]]]; try (intros y []).
  cbn [app] in Heq. fold (RoomSelector.max_keyed (first, k) ks) in *.
  set (best := RoomSelector.max_keyed (first, k) ks) in *.
  assert (Key : forall y, In y ((first, k) :: ks) ->
                  RoomSelector.current_of py (fst y) = Json.Returned (snd y)).
  { intros y [<- | Hy]; [exact Hk | exact (Hcur y Hy)]. }
  exists (map fst m1), (map fst m2). repeat split.
  - rewrite <- Hm.
    change (first :: map fst ks) with (map fst ((first, k) :: ks)).
    rewrite Heq, map_app. reflexivity.
  - apply Key. rewrite Heq. apply in_or_app. right. now left.
  - intros room Hin. apply in_map_iff in Hin. destruct Hin as [y [<- Hy]].
    exists (snd y). split; [| exact (Hlt y Hy)].
    apply Key. rewrite Heq. apply in_or_app. now left.
  - intros room Hin. apply in_map_iff in Hin. destruct Hin as [y [<- Hy]].
    exists (snd y). split; [| exact (Hle y Hy)].
    apply Key. rewrite Heq. apply in_or_app. right. now right.
Qed.

(** What [select] returns, from the rooms that pass its tests. *)
Lemma select_result (py : Json.Builtins) (rooms : list Json.t)
    (balance : float) :
  readable py balance rooms ->
  RoomSelector.rooms_after (RoomSelector.select py rooms balance)
  = map in_place rooms
  /\ match kept_rooms py balance rooms with
     | [] =>
         RoomSelector.result (RoomSelector.select py rooms balance)
         = Json.Returned None
     | first :: others =>
         exists k ks,
           RoomSelector.current_of py first = Json.Returned k
           /\ RoomSelector.keys_of py others = Json.Returned ks
           /\ RoomSelector.result (RoomSelector.select py rooms balance)
              = Json.Returned
                  (Some (fst (RoomSelector.max_keyed (first, k) ks)))
     end.
Proof.
  intros Hread. unfold RoomSelector.select.
  destruct (select_loop_readable py balance rooms Hread
              (RoomSelector.Build_LoopState [] [] [])) as [st' Hloop].
  rewrite Hloop.
  destruct (select_loop_returns py balance rooms _ _ _ Hloop)
    as [Ha [Hv _]].
  cbn [RoomSelector.available RoomSelector.visited app] in Ha, Hv.
  rewrite Ha, Hv, app_nil_r.
  destruct (kept_rooms_keys py balance rooms) as [ks0 Hks0].
  destruct (kept_rooms py balance rooms) as [|first others].
  - split; reflexivity.
  - cbn [RoomSelector.keys_of] in Hks0.
    destruct (RoomSelector.current_of py first) as [k|];
      cbn [Json.obind] in *; [| discriminate].
    destruct (RoomSelector.keys_of py others) as [ks|];
      cbn [Json.obind] in *; [| discriminate].
    split; [reflexivity |]. exists k, ks. auto.
Qed.

Lemma select_returned_readable (py : Json.Builtins) (rooms : list Json.t)
    (balance : float) (r : option (dict Json.t)) :
  RoomSelector.result (RoomSelector.select py rooms balance)
  = Json.Returned r ->
  readable py balance rooms.
Proof.
  unfold RoomSelector.select.
  destruct (RoomSelector.select_loop py balance rooms _)
    as [[[[]|e] st'] rest] eqn:Hloop.
  - intros _. exact (proj2 (proj2 (proj2
      (select_loop_returns py balance rooms _ _ _ Hloop)))).
  - cbn. discriminate.
Qed.

Lemma select_some (py : Json.Builtins) (rooms : list Json.t)
    (balance : float) (best : dict Json.t) :
  RoomSelector.result (RoomSelector.select py rooms balance)
  = Json.Returned (Some best) ->
  exists l1 l2 kb,
    kept_rooms py balance rooms = l1 ++ best :: l2
    /\ RoomSelector.current_of py best = Json.Returned kb
    /\ (forall room, In room l1 ->
          exists c, RoomSelector.current_of py room = Json.Returned c
                    /\ (c < kb)%Z)
    /\ (forall room, In room l2 ->
          exists c, RoomSelector.current_of py room = Json.Returned c
                    /\ (c <= kb)%Z).
Proof.
  intros Hres.
  pose proof (select_returned_readable py rooms balance _ Hres) as Hread.
  destruct (select_result py rooms balance Hread) as [_ Hsel].
  destruct (kept_rooms py balance rooms) as [|first others].
  - rewrite Hsel in Hres. discriminate.
  - destruct Hsel as [k [ks [Hk [Hks Hsel]]]].
    rewrite Hsel in Hres. injection Hres as <-.
    destruct (max_keyed_spec py first k others ks Hk Hks)
      as [l1 [l2 H]].
    exists l1, l2, (snd (RoomSelector.max_keyed (first, k) ks)). exact H.
Qed.

(** X20. A room returned by [select] comes from an element of [rooms] (the
    dict made for a plain id, or the normalised dict), has fewer current
    players than its maximum, and if its type is "paid" (in any case) its
    entry cost is not above the balance. *)
Theorem select_returns_open_affordable_room (py : Json.Builtins)
    (rooms : list Json.t) (balance : float) (best : dict Json.t) :
  RoomSelector.result (RoomSelector.select py rooms balance)
  = Json.Returned (Some best) ->
  (exists raw_room, In raw_room rooms /\ candidate raw_room = Some best)
  /\ open_and_affordable py balance best.
Proof.
  intros Hres.
  destruct (select_some py rooms balance best Hres) as [l1 [l2 [kb [Hk _]]]].
  apply (kept_rooms_sound py balance rooms). rewrite Hk.
  apply in_or_app. right. now left.
Qed.

(** X21. The room returned by [select] has the greatest number of current
    players among the rooms that pass the tests, and is the first of them
    with that number. *)
Theorem select_returns_first_fullest_room (py : Json.Builtins)
    (rooms : list Json.t) (balance : float) (best : dict Json.t) :
  RoomSelector.result (RoomSelector.select py rooms balance)
  = Json.Returned (Some best) ->
  exists l1 l2 kb,
    kept_rooms py balance rooms = l1 ++ best :: l2
    /\ RoomSelector.current_of py best = Json.Returned kb
    /\ (forall room, In room l1 ->
          exists c, RoomSelector.current_of py room = Json.Returned c
                    /\ (c < kb)%Z)
    /\ (forall room, In room l2 ->
          exists c, RoomSelector.current_of py room = Json.Returned c
                    /\ (c <= kb)%Z).
Proof. exact (select_some py rooms balance best). Qed.

(** X22. [select] returns (a room or [None]) exactly when every conversion
    it makes on the rooms returns; it returns [None] exactly when, in
    addition, no room passes the tests; and whenever it returns, every dict
    of [rooms] has been normalised in place. *)
Theorem select_none_iff_no_room_kept (py : Json.Builtins)
    (rooms : list Json.t) (balance : float) :
  ((exists r, RoomSelector.result (RoomSelector.select py rooms balance)
              = Json.Returned r)
   <-> readable py balance rooms)
  /\ (RoomSelector.result (RoomSelector.select py rooms balance)
      = Json.Returned None
      <-> readable py balance rooms /\ kept_rooms py balance rooms = [])
  /\ (readable py balance rooms ->
      RoomSelector.rooms_after (RoomSelector.select py rooms balance)
      = map in_place rooms).
Proof.
  assert (Ret : readable py balance rooms ->
                exists r, RoomSelector.result
                            (RoomSelector.select py rooms balance)
                          = Json.Returned r
                          /\ (r = None <-> kept_rooms py balance rooms = [])).
  { intros Hread. destruct (select_result py rooms balance Hread) as [_ Hsel].
    destruct (kept_rooms py balance rooms) as [|first others].
    - exists None. split; [exact Hsel | tauto].
    - destruct Hsel as [k [ks [_ [_ Hsel]]]].
      eexists. split; [exact Hsel |]. split; discriminate. }
  split; [| split].
  - split.
    + intros [r Hr]. exact (select_returned_readable py rooms balance r Hr).
    + intros Hread. destruct (Ret Hread) as [r [Hr _]]. eauto.
  - split.
    + intros Hres.
      pose proof (select_returned_readable py rooms balance _ Hres) as Hread.
      split; [exact Hread |].
      destruct (Ret Hread) as [r [Hr Hnone]].
      rewrite Hr in Hres. injection Hres as ->. now apply Hnone.
    + intros [Hread Hkept]. destruct (Ret Hread) as [r [Hr Hnone]].
      rewrite Hr. f_equal. now apply Hnone.
  - intros Hread. exact (proj1 (select_result py rooms balance Hread)).
Qed.

Lemma select_returns_open_affordable_room_witness :
  let rooms :=
    [ Json.Str "r1";
      Json.Dict [ ("room_id", Json.Str "r2"); ("players", Json.Int 5);
                  ("capacity", Json.Int 10); ("roomType", Json.Str "Paid");
                  ("fee", Json.Float 2.5) ] ] in
  let best :=
    [ ("room_id", Json.Str "r2"); ("players", Json.Int 5);
      ("capacity", Json.Int 10); ("roomType", Json.Str "Paid");
      ("fee", Json.Float 2.5); ("id", Json.Str "r2");
      ("current_players", Json.Int 5); ("max_players", Json.Int 10);
      ("type", Json.Str "Paid"); ("entry_cost", Json.Float 2.5) ] in
  (exists raw_room, In raw_room rooms /\ candidate raw_room = Some best)
  /\ open_and_affordable no_text_numbers 3.0 best.
Proof.
  exact (select_returns_open_affordable_room no_text_numbers
           [ Json.Str "r1";
             Json.Dict [ ("room_id", Json.Str "r2"); ("players", Json.Int 5);
                         ("capacity", Json.Int 10);
                         ("roomType", Json.Str "Paid");
                         ("fee", Json.Float 2.5) ] ]
           3.0 _ eq_refl).
Defined.

Lemma select_returns_first_fullest_room_witness :
  let rooms :=
    [ Json.Dict [ ("id", Json.Str "a"); ("current_players", Json.Int 2) ];
      Json.Dict [ ("id", Json.Str "b"); ("current_players", Json.Int 7) ];
      Json.Dict [ ("id", Json.Str "c"); ("current_players", Json.Int 7) ] ] in
  let best :=
    [ ("id", Json.Str "b"); ("current_players", Json.Int 7);
      ("max_players", Json.Int 99); ("type", Json.Str "free");
      ("entry_cost", Json.Int 0) ] in
  exists l1 l2 kb,
    kept_rooms no_text_numbers 0.0 rooms = l1 ++ best :: l2
    /\ RoomSelector.current_of no_text_numbers best = Json.Returned kb
    /\ (forall room, In room l1 ->
          exists c, RoomSelector.current_of no_text_numbers room
                    = Json.Returned c /\ (c < kb)%Z)
    /\ (forall room, In room l2 ->
          exists c, RoomSelector.current_of no_text_numbers room
                    = Json.Returned c /\ (c <= kb)%Z).
Proof.
  exact (select_returns_first_fullest_room no_text_numbers
           [ Json.Dict [ ("id", Json.Str "a");
                         ("current_players", Json.Int 2) ];
             Json.Dict [ ("id", Json.Str "b");
                         ("current_players", Json.Int 7) ];
             Json.Dict [ ("id", Json.Str "c");
                         ("current_players", Json.Int 7) ] ]
           0.0 _ eq_refl).
Defined.

Lemma examine_of_id (py : Json.Builtins) (balance : float) (s : string) :
  RoomSelector.examine py balance (RoomSelector.of_id s)
  = Json.Returned (true, []).
Proof. reflexivity. Qed.

Lemma kept_rooms_complete (py : Json.Builtins) (balance : float)
    (rooms : list Json.t) (raw_room : Json.t) (room : dict Json.t)
    (logged : list RoomSelector.LogRecord) :
  In raw_room rooms ->
  candidate raw_room = Some room ->
  RoomSelector.examine py balance room = Json.Returned (true, logged) ->
  In room (kept_rooms py balance rooms).
Proof.
  intros Hin Hc Hex. induction rooms as [|raw rooms IH]; [destruct Hin |].
  cbn [kept_rooms]. destruct Hin as [-> | Hin].
  - rewrite Hc, Hex. now left.
  - specialize (IH Hin). destruct (candidate raw) as [room0|]; [| exact IH].
    destruct (RoomSelector.examine py balance room0) as [[[|] l]|];
      [right | |]; exact IH.
Qed.

(** X23. A room given as a plain id passes both tests whatever the
    balance: with such a room in [rooms], [select] never returns [None]. *)
Theorem select_plain_id_always_kept (py : Json.Builtins)
    (rooms : list Json.t) (balance : float) (s : string) :
  In (Json.Str s) rooms ->
  In (RoomSelector.of_id s) (kept_rooms py balance rooms)
  /\ RoomSelector.result (RoomSelector.select py rooms balance)
     <> Json.Returned None.
Proof.
  intros Hin.
  assert (Hk : In (RoomSelector.of_id s) (kept_rooms py balance rooms)).
  { exact (kept_rooms_complete py balance rooms (Json.Str s) _ []
             Hin eq_refl (examine_of_id py balance s)). }
  split; [exact Hk |]. intros Hres.
  pose proof (select_returned_readable py rooms balance _ Hres) as Hread.
  destruct (select_result py rooms balance Hread) as [_ Hsel].
  destruct (kept_rooms py balance rooms) as [|first others];
    [destruct Hk |].
  destruct Hsel as [k [ks [_ [_ Hsel]]]]. rewrite Hsel in Hres.
  discriminate.
Qed.

Lemma select_plain_id_always_kept_witness :
  let rooms :=
    [ Json.Dict [ ("id", Json.Str "a"); ("current_players", Json.Int 4);
                  ("max_players", Json.Int 4) ];
      Json.Str "r1" ] in
  In (RoomSelector.of_id "r1") (kept_rooms no_text_numbers (-1.0) rooms)
  /\ RoomSelector.result (RoomSelector.select no_text_numbers rooms (-1.0))
     <> Json.Returned None.
Proof.
  apply (select_plain_id_always_kept no_text_numbers
           [ Json.Dict [ ("id", Json.Str "a");
                         ("current_players", Json.Int 4);
                         ("max_players", Json.Int 4) ];
             Json.Str "r1" ] (-1.0) "r1").
  cbn [In]. right. left. reflexivity.
Defined.

Lemma setdefault_keeps (d : dict Json.t) (k : string) (v : Json.t)
    (k' : string) (v' : Json.t) :
  get d k' = Some v' -> get (Json.setdefault d k v) k' = Some v'.
Proof.
  intros H. unfold Json.setdefault. destruct (get d k) eqn:E; [exact H |].
  rewrite get_set_diff; [exact H |]. intros ->. congruence.
Qed.

Lemma setdefault_present (d : dict Json.t) (k : string) (v : Json.t)
    (k' : string) :
  k' = k \/ (exists v', get d k' = Some v') ->
  exists v', get (Json.setdefault d k v) k' = Some v'.
Proof.
  intros [-> | [v' H]].
  - unfold Json.setdefault. destruct (get d k) eqn:E; [eauto |].
    rewrite get_set_same. eauto.
  - exists v'. now apply setdefault_keeps.
Qed.

Lemma setdefault_noop (d : dict Json.t) (k : string) (v v' : Json.t) :
  get d k = Some v' -> Json.setdefault d k v = d.
Proof. intros H. unfold Json.setdefault. now rewrite H. Qed.

Lemma setdefault_keys (d : dict Json.t) (k : string) (v : Json.t)
    (x : string) :
  In x (keys (Json.setdefault d k v)) -> x = k \/ In x (keys d).
Proof.
  unfold Json.setdefault. destruct (get d k); [now right |].
  apply keys_set.
Qed.

Lemma normalise_keeps (room : dict Json.t) (k : string) (v : Json.t) :
  get room k = Some v -> get (RoomSelector.normalise room) k = Some v.
Proof.
  intros H. unfold RoomSelector.normalise. cbv zeta.
  repeat apply setdefault_keeps. exact H.
Qed.

Lemma normalise_supplies (room : dict Json.t) (k : string) :
  In k ROOM_KEYS -> exists v, get (RoomSelector.normalise room) k = Some v.
Proof.
  unfold ROOM_KEYS, RoomSelector.normalise. cbv zeta. cbn [In].
  intros [<- | [<- | [<- | [<- | [<- | []]]]]];
    repeat (apply setdefault_present; first [left; reflexivity | right]).
Qed.

Lemma normalise_fixed (room : dict Json.t) :
  (forall k, In k ROOM_KEYS -> exists v, get room k = Some v) ->
  RoomSelector.normalise room = room.
Proof.
  intros H. unfold RoomSelector.normalise. cbv zeta.
  destruct (H "id") as [v1 H1]; [cbn; tauto |].
  destruct (H "current_players") as [v2 H2]; [cbn; tauto |].
  destruct (H "max_players") as [v3 H3]; [cbn; tauto |].
  destruct (H "type") as [v4 H4]; [cbn; tauto |].
  destruct (H "entry_cost") as [v5 H5]; [cbn; tauto |].
  rewrite !(setdefault_noop room "id" _ v1 H1).
  rewrite !(setdefault_noop room "current_players" _ v2 H2).
  rewrite !(setdefault_noop room "max_players" _ v3 H3).
  rewrite !(setdefault_noop room "type" _ v4 H4).
  rewrite !(setdefault_noop room "entry_cost" _ v5 H5).
  reflexivity.
Qed.

(** X24. The normalisation of a room dict keeps every key it has with its
    value (also a null or a zero), leaves it with the five keys that
    [select] reads, adds no other key, and changes nothing when applied
    again. *)
Theorem normalise_spec (room : dict Json.t) :
  (forall k v, get room k = Some v ->
               get (RoomSelector.normalise room) k = Some v)
  /\ (forall k, In k ROOM_KEYS ->
                exists v, get (RoomSelector.normalise room) k = Some v)
  /\ (forall k, In k (keys (RoomSelector.normalise room)) ->
                In k ROOM_KEYS \/ In k (keys room))
  /\ RoomSelector.normalise (RoomSelector.normalise room)
     = RoomSelector.normalise room.
Proof.
  split; [exact (normalise_keeps room) |].
  split; [exact (normalise_supplies room) |].
  split; [| exact (normalise_fixed _ (normalise_supplies room))].
  intros k. unfold RoomSelector.normalise, ROOM_KEYS. cbv zeta. cbn [In].
  intros H.
  repeat (apply setdefault_keys in H; destruct H as [-> | H]; [tauto |]).
  now right.
Qed.

(** X25. A room dict whose "current_players" is present with a value that
    [int] refuses (an explicit null, for one) is not given the default:
    with such a room in [rooms], [select] raises. *)
Theorem select_raises_on_unconvertible_count (py : Json.Builtins)
    (rooms : list Json.t) (balance : float) (room : dict Json.t)
    (v : Json.t) (e0 : Json.PyError) :
  In (Json.Dict room) rooms ->
  get room "current_players" = Some v ->
  Json.int_ py v = Json.Raised e0 ->
  exists e,
    RoomSelector.result (RoomSelector.select py rooms balance)
    = Json.Raised e.
Proof.
  intros Hin Hget Hint.
  destruct (RoomSelector.result (RoomSelector.select py rooms balance))
    as [r|e] eqn:Hres; [exfalso | eauto].
  pose proof (select_returned_readable py rooms balance r Hres) as Hread.
  destruct (Hread (Json.Dict room) _ Hin eq_refl) as [x Hx].
  unfold RoomSelector.examine, RoomSelector.current_of, get_default in Hx.
  rewrite (normalise_keeps room _ v Hget), Hint in Hx.
  discriminate Hx.
Qed.

Lemma select_raises_on_unconvertible_count_witness :
  exists e,
    RoomSelector.result
      (RoomSelector.select no_text_numbers
         [ Json.Str "r1";
           Json.Dict [ ("id", Json.Str "r2");
                       ("current_players", Json.Null);
                       ("players", Json.Int 3) ] ]
         1.0)
    = Json.Raised e.
Proof.
  apply (select_raises_on_unconvertible_count no_text_numbers
           [ Json.Str "r1";
             Json.Dict [ ("id", Json.Str "r2");
                         ("current_players", Json.Null);
                         ("players", Json.Int 3) ] ]
           1.0
           [ ("id", Json.Str "r2"); ("current_players", Json.Null);
             ("players", Json.Int 3) ]
           Json.Null Json.TypeError).
  - cbn [In]. right. left. reflexivity.
  - reflexivity.
  - reflexivity.
Defined.

(* ================================================================== *)
(** * From the client to the selector *)
(* ================================================================== *)

Lemma normalize_room_keeps (room : dict Json.t) (k : string) (v : Json.t) :
  get room k = Some v -> get (MoltyClient._normalize_room room) k = Some v.
Proof.
  intros H. unfold MoltyClient._normalize_room. cbv zeta.
  repeat apply setdefault_keeps. exact H.
Qed.

Lemma normalize_room_supplies (room : dict Json.t) (k : string) :
  In k ROOM_KEYS ->
  exists v, get (MoltyClient._normalize_room room) k = Some v.
Proof.
  unfold ROOM_KEYS, MoltyClient._normalize_room. cbv zeta. cbn [In].
  intros [<- | [<- | [<- | [<- | [<- | []]]]]];
    repeat (apply setdefault_present; first [left; reflexivity | right]).
Qed.

Lemma normalize_room_fixed (room : dict Json.t) :
  (forall k, In k ROOM_KEYS -> exists v, get room k = Some v) ->
  MoltyClient._normalize_room room = room.
Proof.
  intros H. unfold MoltyClient._normalize_room. cbv zeta.
  destruct (H "id") as [v1 H1]; [cbn; tauto |].
  destruct (H "current_players") as [v2 H2]; [cbn; tauto |].
  destruct (H "max_players") as [v3 H3]; [cbn; tauto |].
  destruct (H "type") as [v4 H4]; [cbn; tauto |].
  destruct (H "entry_cost") as [v5 H5]; [cbn; tauto |].
  rewrite !(setdefault_noop room "id" _ v1 H1).
  rewrite !(setdefault_noop room "current_players" _ v2 H2).
  rewrite !(setdefault_noop room "max_players" _ v3 H3).
  rewrite !(setdefault_noop room "type" _ v4 H4).
  rewrite !(setdefault_noop room "entry_cost" _ v5 H5).
  reflexivity.
Qed.

Lemma listed_in_place (raw_room : Json.t) :
  listed raw_room ->
  in_place raw_room = raw_room
  /\ exists room, raw_room = Json.Dict room /\ candidate raw_room = Some room.
Proof.
  intros [room [-> H]].
  assert (Fix : RoomSelector.normalise room = room).
  { destruct H as [[d ->] | [id ->]].
    - exact (normalise_fixed _ (normalize_room_supplies d)).
    - reflexivity. }
  cbn [in_place candidate]. rewrite Fix. eauto.
Qed.

Lemma select_loop_visited (py : Json.Builtins) (balance : float)
    (rooms : list Json.t) :
  forall (st st' : RoomSelector.LoopState) (o : Json.Outcome unit)
         (rest : list Json.t),
    RoomSelector.select_loop py balance rooms st = (o, st', rest) ->
    exists visited,
      rooms = visited ++ rest
      /\ RoomSelector.visited st'
         = RoomSelector.visited st ++ map in_place visited.
Proof.
  induction rooms as [|raw rooms IH]; intros st st' o rest.
  - cbn [RoomSelector.select_loop]. intros [= <- <- <-].
    exists []. cbn [map app]. now rewrite app_nil_r.
  - rewrite select_loop_cons.
    assert (Next : forall st0,
              RoomSelector.visited st0
              = RoomSelector.visited st ++ [in_place raw] ->
              RoomSelector.select_loop py balance rooms st0
              = (o, st', rest) ->
              exists visited,
                raw :: rooms = visited ++ rest
                /\ RoomSelector.visited st'
                   = RoomSelector.visited st ++ map in_place visited).
    { intros st0 Hv H. destruct (IH _ _ _ _ H) as [done [-> Hd]].
      exists (raw :: done). split; [reflexivity |].
      rewrite Hd, Hv, <- app_assoc. reflexivity. }
    destruct (candidate raw) as [room|].
    + destruct (RoomSelector.examine py balance room) as [[keep logged]|e].
      * apply Next. reflexivity.
      * intros [= <- <- <-]. exists [raw]. split; reflexivity.
    + apply Next. reflexivity.
Qed.

Lemma select_rooms_after (py : Json.Builtins) (rooms : list Json.t)
    (balance : float) :
  exists visited rest,
    rooms = visited ++ rest
    /\ RoomSelector.rooms_after (RoomSelector.select py rooms balance)
       = map in_place visited ++ rest.
Proof.
  unfold RoomSelector.select.
  destruct (RoomSelector.select_loop py balance rooms _)
    as [[o st'] rest] eqn:Hloop.
  destruct (select_loop_visited py balance rooms _ _ _ _ Hloop)
    as [done [Hrooms Hv]].
  cbn [RoomSelector.visited app] in Hv.
  exists done, rest. split; [exact Hrooms |]. rewrite <- Hv.
  destruct o as [[]|e]; [| reflexivity].
  destruct (RoomSelector.available st') as [|first others]; [reflexivity |].
  destruct (Json.obind _ _); reflexivity.
Qed.

(** X26. [_normalize_room] keeps every key a room dict has with its value,
    leaves it with the five keys that [select] reads and adds no other key;
    the normalisation that [select] then applies to it changes nothing, nor
    does a second [_normalize_room]. *)
Theorem normalize_room_spec (room : dict Json.t) :
  (forall k v, get room k = Some v ->
               get (MoltyClient._normalize_room room) k = Some v)
  /\ (forall k, In k ROOM_KEYS ->
                exists v, get (MoltyClient._normalize_room room) k = Some v)
  /\ (forall k, In k (keys (MoltyClient._normalize_room room)) ->
                In k ROOM_KEYS \/ In k (keys room))
  /\ RoomSelector.normalise (MoltyClient._normalize_room room)
     = MoltyClient._normalize_room room
  /\ MoltyClient._normalize_room (MoltyClient._normalize_room room)
     = MoltyClient._normalize_room room.
Proof.
  split; [exact (normalize_room_keeps room) |].
  split; [exact (normalize_room_supplies room) |].
  split; [| split].
  - intros k. unfold MoltyClient._normalize_room, ROOM_KEYS. cbv zeta.
    cbn [In]. intros H.
    repeat (apply setdefault_keys in H; destruct H as [-> | H]; [tauto |]).
    now right.
  - exact (normalise_fixed _ (normalize_room_supplies room)).
  - exact (normalize_room_fixed _ (normalize_room_supplies room)).
Qed.

(** X27. On a list as [list_rooms] builds it, [select] changes no room,
    whether it returns or raises, and a room it returns is an element of
    the list. *)
Theorem select_leaves_listed_rooms_unchanged (py : Json.Builtins)
    (rooms : list Json.t) (balance : float) :
  Forall listed rooms ->
  RoomSelector.rooms_after (RoomSelector.select py rooms balance) = rooms
  /\ forall best,
       RoomSelector.result (RoomSelector.select py rooms balance)
       = Json.Returned (Some best) ->
       In (Json.Dict best) rooms.
Proof.
  intros Hall. split.
  - destruct (select_rooms_after py rooms balance)
      as [done [rest [Hrooms ->]]].
    rewrite Hrooms. f_equal.
    assert (Hd : Forall listed done).
    { rewrite Hrooms in Hall. exact (proj1 (proj1 (Forall_app _ _ _) Hall)). }
    clear - Hd. induction Hd as [|raw done Hraw _ IH]; [reflexivity |].
    cbn [map]. rewrite IH, (proj1 (listed_in_place raw Hraw)). reflexivity.
  - intros best Hres.
    destruct (select_some py rooms balance best Hres)
      as [l1 [l2 [kb [Hk _]]]].
    destruct (kept_rooms_sound py balance rooms best) as [[raw [Hin Hc]] _].
    { rewrite Hk. apply in_or_app. right. now left. }
    destruct (listed_in_place raw (proj1 (Forall_forall _ _) Hall raw Hin))
      as [_ [room [-> Hc']]].
    rewrite Hc in Hc'. injection Hc' as ->. exact Hin.
Qed.

Lemma select_leaves_listed_rooms_unchanged_witness :
  let rooms :=
    [ Json.Dict (MoltyClient._normalize_room
                   [ ("_id", Json.Str "r7"); ("currentPlayers", Json.Int 3);
                     ("size", Json.Int 8) ]);
      Json.Dict (MoltyClient.fallback_room "r1") ] in
  RoomSelector.rooms_after (RoomSelector.select no_text_numbers rooms 0.0)
  = rooms
  /\ forall best,
       RoomSelector.result (RoomSelector.select no_text_numbers rooms 0.0)
       = Json.Returned (Some best) ->
       In (Json.Dict best) rooms.
Proof.
  apply (select_leaves_listed_rooms_unchanged no_text_numbers
           [ Json.Dict (MoltyClient._normalize_room
                          [ ("_id", Json.Str "r7");
                            ("currentPlayers", Json.Int 3);
                            ("size", Json.Int 8) ]);
             Json.Dict (MoltyClient.fallback_room "r1") ] 0.0).
  repeat constructor; eexists; (split; [reflexivity |]);
    [left | right]; eexists; reflexivity.
Defined.
